(** * A shallow embedding of the ai-candyshop agent tools

    The development models, after the Python sources:
    - [json.loads] (CPython's C scanner: [scan_once_unicode],
      [scanstring_unicode], [_match_number_unicode], [_parse_object_unicode],
      [_parse_array_unicode]) and [json.dumps] ([encode_basestring] and the
      iterencode layout, with and without [indent]);
    - the two JSON-extraction heuristics [extract_json_from_response]
      (research_exa.py) and [extract_json_from_text] (thinking_ReAct.py),
      together with the [re.search] semantics of the regexes they use;
    - the ReAct loop [run_gemini_simulation] (thinking_ReAct.py);
    - the page joining of pdf2md.py [main];
    - [save_research] / [load_research] (research_exa.py);
    - [process_path] of merge_codebase_context.py.

    Python [str] values are lists of code points ([N]). *)

From Stdlib Require Import List NArith ZArith Arith Lia Bool Ascii Permutation Sorting.Sorted.
From Stdlib Require String.
Import (notations) String.
Import ListNotations.
Set Warnings "-register-all".

Definition pystr := list N.

(** A Rocq string literal read as a Python [str] (ASCII only). *)
Definition str (s : String.string) : pystr := map N_of_ascii (String.list_ascii_of_string s).

Local Open Scope string_scope.
Local Open Scope N_scope.
Local Open Scope list_scope.

(** ** Character classes *)

(** [str.isspace] / [str.strip] / the [\s] class of [re] on [str]
    patterns ([Py_UNICODE_ISSPACE]). *)
Definition py_isspace (c : N) : bool :=
  ((9 <=? c) && (c <=? 13)) || ((28 <=? c) && (c <=? 32)) ||
  (c =? 133) || (c =? 160) || (c =? 5760) ||
  ((8192 <=? c) && (c <=? 8202)) || (c =? 8232) || (c =? 8233) ||
  (c =? 8239) || (c =? 8287) || (c =? 12288).

(** [json.decoder.WHITESPACE] = [[ \t\n\r]]. *)
Definition is_json_ws (c : N) : bool :=
  (c =? 32) || (c =? 9) || (c =? 10) || (c =? 13).

Definition is_digit (c : N) : bool := (48 <=? c) && (c <=? 57).

(** [str.strip()] *)
Fixpoint lstrip (s : pystr) : pystr :=
  match s with
  | c :: s' => if py_isspace c then lstrip s' else s
  | [] => []
  end.

Definition py_strip (s : pystr) : pystr := rev (lstrip (rev (lstrip s))).

Fixpoint starts_with (w s : pystr) : bool :=
  match w, s with
  | [], _ => true
  | a :: w', b :: s' => (a =? b) && starts_with w' s'
  | _ :: _, [] => false
  end.

Definition is_empty {A} (l : list A) : bool :=
  match l with [] => true | _ => false end.

(** ** JSON values as [json.loads] returns them

    Numbers keep the lexeme the scanner matched ([int(lexeme)] or
    [float(lexeme)] in Python); objects are Python dicts, kept as
    association lists in insertion order. *)
Inductive json : Type :=
| JNull
| JBool (b : bool)
| JNum (lex : pystr)
| JStr (s : pystr)
| JArr (xs : list json)
| JObj (kvs : list (pystr * json)).

(** [d[key] = v] on a Python dict: an existing key keeps its position. *)
Fixpoint dict_set (d : list (pystr * json)) (key : pystr) (v : json)
  : list (pystr * json) :=
  match d with
  | [] => [(key, v)]
  | (k, w) :: d' =>
      if list_eq_dec N.eq_dec k key then (k, v) :: d' else (k, w) :: dict_set d' key v
  end.

Fixpoint dict_get (d : list (pystr * json)) (key : pystr) : option json :=
  match d with
  | [] => None
  | (k, w) :: d' => if list_eq_dec N.eq_dec k key then Some w else dict_get d' key
  end.

(** Exceptions. [NoFuel] is not a Python exception: it marks exhaustion of
    the recursion budget of the scanner below, which never happens with the
    budget [loads] gives it (see [loads_never_out_of_fuel]). *)
Inductive perr := JSONDecodeError | ValueError | NoFuel.

Inductive scan (A : Type) := Ok (v : A) (rest : pystr) | Err (e : perr).
Arguments Ok {A}. Arguments Err {A}.

Inductive py (A : Type) := Ret (a : A) | Exc (e : perr).
Arguments Ret {A}. Arguments Exc {A}.

(** ** The scanner of [json.loads] *)

Fixpoint skip_ws (s : pystr) : pystr :=
  match s with
  | c :: s' => if is_json_ws c then skip_ws s' else s
  | [] => []
  end.

Definition hexval (c : N) : option N :=
  if (48 <=? c) && (c <=? 57) then Some (c - 48)
  else if (97 <=? c) && (c <=? 102) then Some (c - 87)
  else if (65 <=? c) && (c <=? 70) then Some (c - 55)
  else None.

Definition hex4 (a b c d : N) : option N :=
  match hexval a, hexval b, hexval c, hexval d with
  | Some x1, Some x2, Some x3, Some x4 => Some (((x1 * 16 + x2) * 16 + x3) * 16 + x4)
  | _, _, _, _ => None
  end.

Definition is_high_surrogate (u : N) : bool := (55296 <=? u) && (u <=? 56319).
Definition is_low_surrogate (u : N) : bool := (56320 <=? u) && (u <=? 57343).
Definition join_surrogates (hi lo : N) : N := 65536 + (hi - 55296) * 1024 + (lo - 56320).

(** The one-character escapes of [scanstring_unicode]. *)
Definition simple_escape (e : N) : option N :=
  if e =? 34 then Some 34 else if e =? 92 then Some 92 else if e =? 47 then Some 47
  else if e =? 98 then Some 8 else if e =? 102 then Some 12
  else if e =? 110 then Some 10 else if e =? 114 then Some 13
  else if e =? 116 then Some 9 else None.

(** [scanstring_unicode] in strict mode, called after the opening quote;
    [acc] holds the decoded characters in reverse. *)
Fixpoint scanstring (s : pystr) (acc : pystr) : scan pystr :=
  match s with
  | [] => Err JSONDecodeError
  | c :: s' =>
      if c =? 34 then Ok (rev acc) s'
      else if c =? 92 then
        match s' with
        | [] => Err JSONDecodeError
        | e :: s'' =>
            if e =? 117 then
              match s'' with
              | h1 :: h2 :: h3 :: h4 :: s3 =>
                  match hex4 h1 h2 h3 h4 with
                  | None => Err JSONDecodeError
                  | Some u =>
                      if is_high_surrogate u then
                        match s3 with
                        | b :: v :: k1 :: k2 :: k3 :: k4 :: s4 =>
                            if (b =? 92) && (v =? 117) then
                              match hex4 k1 k2 k3 k4 with
                              | None => Err JSONDecodeError
                              | Some u2 =>
                                  if is_low_surrogate u2
                                  then scanstring s4 (join_surrogates u u2 :: acc)
                                  else scanstring s3 (u :: acc)
                              end
                            else scanstring s3 (u :: acc)
                        | _ => scanstring s3 (u :: acc)
                        end
                      else scanstring s3 (u :: acc)
                  end
              | _ => Err JSONDecodeError
              end
            else
              match simple_escape e with
              | Some d => scanstring s'' (d :: acc)
              | None => Err JSONDecodeError
              end
        end
      else if c <? 32 then Err JSONDecodeError
      else scanstring s' (c :: acc)
  end.

Fixpoint span_digits (s : pystr) : pystr * pystr :=
  match s with
  | c :: s' => if is_digit c then let '(ds, r) := span_digits s' in (c :: ds, r) else ([], s)
  | [] => ([], [])
  end.

(** [_match_number_unicode]: the lexeme matched by
    [-?(0|[1-9]\d* )(\.\d+)?([eE][-+]?\d+)?], whether it is a float, and
    the number of its integer digits. *)
Definition match_number (s : pystr) : option (pystr * bool * nat * pystr) :=
  let '(sign, s1) :=
    match s with
    | c :: t => if c =? 45 then ([45], t) else ([], s)
    | [] => ([], [])
    end in
  let ip :=
    match s1 with
    | c :: t =>
        if c =? 48 then Some ([48], t)
        else if (49 <=? c) && (c <=? 57) then
          let '(ds, t') := span_digits t in Some (c :: ds, t')
        else None
    | [] => None
    end in
  match ip with
  | None => None
  | Some (ids, s2) =>
      let '(frac, s3) :=
        match s2 with
        | p :: d :: t =>
            if (p =? 46) && is_digit d then
              let '(ds, t') := span_digits t in (p :: d :: ds, t')
            else ([], s2)
        | _ => ([], s2)
        end in
      let '(ex, s4) :=
        match s3 with
        | e :: t =>
            if (e =? 101) || (e =? 69) then
              let '(sg, t1) :=
                match t with
                | c :: t' => if (c =? 43) || (c =? 45) then ([c], t') else ([], t)
                | [] => ([], [])
                end in
              let '(ds, t2) := span_digits t1 in
              if is_empty ds then ([], s3) else (e :: app sg ds, t2)
            else ([], s3)
        | [] => ([], s3)
        end in
      Some (app sign (app ids (app frac ex)), negb (is_empty frac && is_empty ex), length ids, s4)
  end.

(** [sys.int_info.default_max_str_digits]: [int()] of a longer digit string
    raises [ValueError]. *)
Definition int_max_str_digits : nat := 4300.

Definition pnumber (s : pystr) : scan json :=
  match match_number s with
  | None => Err JSONDecodeError
  | Some (lex, is_float, ndigits, r) =>
      if negb is_float && (int_max_str_digits <? ndigits)%nat then Err ValueError
      else Ok (JNum lex) r
  end.

(** [scan_once_unicode] and the object and array loops; [n] bounds the
    number of nested calls. *)
Fixpoint pvalue (n : nat) (s : pystr) {struct n} : scan json :=
  match n with
  | O => Err NoFuel
  | S n' =>
      match s with
      | [] => Err JSONDecodeError
      | c :: s' =>
          if c =? 34 then
            match scanstring s' [] with
            | Ok v r => Ok (JStr v) r
            | Err e => Err e
            end
          else if c =? 123 then
            match skip_ws s' with
            | d :: s2 => if d =? 125 then Ok (JObj []) s2 else pmembers n' (d :: s2) []
            | [] => pmembers n' [] []
            end
          else if c =? 91 then
            match skip_ws s' with
            | d :: s2 => if d =? 93 then Ok (JArr []) s2 else pelems n' (d :: s2) []
            | [] => pelems n' [] []
            end
          else if (c =? 110) && starts_with (str "ull") s' then Ok JNull (skipn 3 s')
          else if (c =? 116) && starts_with (str "rue") s' then Ok (JBool true) (skipn 3 s')
          else if (c =? 102) && starts_with (str "alse") s' then Ok (JBool false) (skipn 4 s')
          else if (c =? 78) && starts_with (str "aN") s' then Ok (JNum (str "NaN")) (skipn 2 s')
          else if (c =? 73) && starts_with (str "nfinity") s' then
            Ok (JNum (str "Infinity")) (skipn 7 s')
          else if (c =? 45) && starts_with (str "Infinity") s' then
            Ok (JNum (str "-Infinity")) (skipn 8 s')
          else pnumber s
      end
  end
with pelems (n : nat) (s : pystr) (acc : list json) {struct n} : scan json :=
  match n with
  | O => Err NoFuel
  | S n' =>
      match pvalue n' s with
      | Err e => Err e
      | Ok v r =>
          match skip_ws r with
          | d :: r2 =>
              if d =? 93 then Ok (JArr (rev (v :: acc))) r2
              else if d =? 44 then pelems n' (skip_ws r2) (v :: acc)
              else Err JSONDecodeError
          | [] => Err JSONDecodeError
          end
      end
  end
with pmembers (n : nat) (s : pystr) (acc : list (pystr * json)) {struct n} : scan json :=
  match n with
  | O => Err NoFuel
  | S n' =>
      match s with
      | d :: s1 =>
          if d =? 34 then
            match scanstring s1 [] with
            | Err e => Err e
            | Ok key r =>
                match skip_ws r with
                | d2 :: r2 =>
                    if d2 =? 58 then
                      match pvalue n' (skip_ws r2) with
                      | Err e => Err e
                      | Ok v r3 =>
                          match skip_ws r3 with
                          | d3 :: r5 =>
                              if d3 =? 125 then Ok (JObj (dict_set acc key v)) r5
                              else if d3 =? 44 then pmembers n' (skip_ws r5) (dict_set acc key v)
                              else Err JSONDecodeError
                          | [] => Err JSONDecodeError
                          end
                      end
                    else Err JSONDecodeError
                | [] => Err JSONDecodeError
                end
            end
          else Err JSONDecodeError
      | [] => Err JSONDecodeError
      end
  end.

(** [json.loads(s)]: a leading BOM is refused, the value must be followed
    by whitespace only ("Extra data" otherwise). *)
Definition loads (s : pystr) : py json :=
  if starts_with [65279] s then Exc JSONDecodeError
  else
    match pvalue (S (2 * length s)) (skip_ws s) with
    | Err e => Exc e
    | Ok v r => if is_empty (skip_ws r) then Ret v else Exc JSONDecodeError
    end.

(** ** [json.dumps] ([ensure_ascii=False], default separators)

    [ind = None] is [indent=None] (separators [", "] and [": "]);
    [ind = Some i] is [indent=i] (item separator [","], a newline and
    [i * level] spaces before each item and before the closing bracket).
    A number is printed as its lexeme: the values the programs serialize
    are Python numbers, whose lexeme here is their [repr]. *)

Definition hexdigit (d : N) : N := if d <? 10 then 48 + d else 87 + d.

(** [py_encode_basestring] / [c_encode_basestring] on one character. *)
Definition escape_char (c : N) : pystr :=
  if c =? 34 then [92; 34]
  else if c =? 92 then [92; 92]
  else if c =? 10 then [92; 110]
  else if c =? 13 then [92; 114]
  else if c =? 9 then [92; 116]
  else if c =? 8 then [92; 98]
  else if c =? 12 then [92; 102]
  else if c <? 32 then [92; 117; 48; 48; hexdigit (c / 16); hexdigit (c mod 16)]
  else [c].

Definition encode_str (s : pystr) : pystr := [34] ++ flat_map escape_char s ++ [34].

Definition newline_indent (ind : option nat) (lvl : nat) : pystr :=
  match ind with
  | None => []
  | Some i => 10 :: repeat 32 (i * lvl)
  end.

Definition item_separator (ind : option nat) : pystr :=
  match ind with None => [44; 32] | Some _ => [44] end.

Definition key_separator : pystr := [58; 32].

Fixpoint dumps_at (ind : option nat) (lvl : nat) (j : json) : pystr :=
  match j with
  | JNull => str "null"
  | JBool true => str "true"
  | JBool false => str "false"
  | JNum lex => lex
  | JStr s => encode_str s
  | JArr [] => str "[]"
  | JArr (x :: xs) =>
      [91] ++ newline_indent ind (S lvl) ++ dumps_at ind (S lvl) x ++
      flat_map (fun y => item_separator ind ++ newline_indent ind (S lvl) ++ dumps_at ind (S lvl) y) xs ++
      newline_indent ind lvl ++ [93]
  | JObj [] => str "{}"
  | JObj ((k, v) :: kvs) =>
      [123] ++ newline_indent ind (S lvl) ++ encode_str k ++ key_separator ++ dumps_at ind (S lvl) v ++
      flat_map (fun kv => item_separator ind ++ newline_indent ind (S lvl) ++
                          encode_str (fst kv) ++ key_separator ++ dumps_at ind (S lvl) (snd kv)) kvs ++
      newline_indent ind lvl ++ [125]
  end.

(** [json.dumps(obj, ensure_ascii=False, indent=ind)] *)
Definition dumps (ind : option nat) (j : json) : pystr := dumps_at ind 0 j.

(** ** [re.search] for the patterns of the two extractors

    A backtracking matcher in continuation-passing style: a pattern gets
    the remaining input and a continuation, and returns the first success
    in the order [sre] explores the alternatives (greedy repetitions try
    the longest run first, lazy ones the shortest).  A success carries the
    captured groups. *)

Definition matcher := pystr -> (pystr -> option (list pystr)) -> option (list pystr).

Definition m_lit (w : pystr) : matcher :=
  fun s k => if starts_with w s then k (skipn (length w) s) else None.

(** [(?:w)?] *)
Definition m_opt_lit (w : pystr) : matcher :=
  fun s k => match m_lit w s k with Some g => Some g | None => k s end.

(** [p*] (greedy) for a one-character class [p] *)
Fixpoint m_star (p : N -> bool) (s : pystr) (k : pystr -> option (list pystr))
  : option (list pystr) :=
  match s with
  | c :: s' =>
      if p c then
        match m_star p s' k with Some g => Some g | None => k s end
      else k s
  | [] => k s
  end.

(** [p*?] (lazy) *)
Fixpoint m_star_lazy (p : N -> bool) (s : pystr) (k : pystr -> option (list pystr))
  : option (list pystr) :=
  match k s with
  | Some g => Some g
  | None =>
      match s with
      | c :: s' => if p c then m_star_lazy p s' k else None
      | [] => None
      end
  end.

Definition m_seq (r1 r2 : matcher) : matcher := fun s k => r1 s (fun s' => r2 s' k).

(** A capturing group: the text consumed by [r] is prepended to the
    groups found by the rest of the match. *)
Definition m_group (r : matcher) : matcher :=
  fun s k => r s (fun s' =>
    match k s' with
    | Some gs => Some (firstn (length s - length s') s :: gs)
    | None => None
    end).

Definition any_char (_ : N) : bool := true.

(** [re.search(pattern, s, re.DOTALL)]: the leftmost start position with a
    match, and the groups of the first match found there. *)
Fixpoint re_search (r : matcher) (s : pystr) : option (list pystr) :=
  match r s (fun _ => Some []) with
  | Some g => Some g
  | None =>
      match s with
      | _ :: s' => re_search r s'
      | [] => None
      end
  end.

Definition fence : pystr := str "```".

(** thinking_ReAct.py: [r"```(?:json)?\s*(\{.*?\})\s*```"] *)
Definition react_fence_re : matcher :=
  m_seq (m_lit fence) (m_seq (m_opt_lit (str "json")) (m_seq (m_star py_isspace)
    (m_seq (m_group (m_seq (m_lit [123]) (m_seq (m_star_lazy any_char) (m_lit [125]))))
    (m_seq (m_star py_isspace) (m_lit fence))))).

(** research_exa.py: [r"```(?:json)?\s*(.*?)\s*```"] *)
Definition research_fence_re : matcher :=
  m_seq (m_lit fence) (m_seq (m_opt_lit (str "json")) (m_seq (m_star py_isspace)
    (m_seq (m_group (m_star_lazy any_char)) (m_seq (m_star py_isspace) (m_lit fence))))).

(** research_exa.py: [r"(\{.*\})"] and [r"(\[.*\])"] *)
Definition research_obj_re : matcher :=
  m_group (m_seq (m_lit [123]) (m_seq (m_star any_char) (m_lit [125]))).
Definition research_arr_re : matcher :=
  m_group (m_seq (m_lit [91]) (m_seq (m_star any_char) (m_lit [93]))).

(** [match.group(1)] of a successful search *)
Definition group1 (m : option (list pystr)) : option pystr :=
  match m with
  | Some (g :: _) => Some g
  | _ => None
  end.

(** ** [extract_json_from_text] (thinking_ReAct.py)

    Every exception is swallowed by a bare [except]; Python's [None] is
    [JNull] (the same value [json.loads("null")] returns). *)

(** [text.find('{')] *)
Fixpoint find_char (c : N) (s : pystr) : option nat :=
  match s with
  | [] => None
  | d :: s' => if d =? c then Some O else option_map S (find_char c s')
  end.

(** The bracket-counting loop [for i in range(start, len(text))], started
    on [text[start:]] with [bracket_count = 0]: the length [i + 1 - start]
    of the slice it parses, if the count ever returns to 0. *)
Fixpoint bracket_scan (s : pystr) (count : Z) : option nat :=
  match s with
  | [] => None
  | c :: s' =>
      let count' := if c =? 123 then (count + 1)%Z
                    else if c =? 125 then (count - 1)%Z else count in
      if Z.eqb count' 0 then Some 1%nat else option_map S (bracket_scan s' count')
  end.

Definition extract_json_from_text (text : pystr) : json :=
  if is_empty text then JNull
  else
    match loads text with
    | Ret v => v
    | Exc _ =>
        let strategy3 :=
          match find_char 123 text with
          | None => JNull
          | Some start =>
              let t := skipn start text in
              match bracket_scan t 0 with
              | Some len =>
                  match loads (firstn len t) with
                  | Ret v => v
                  | Exc _ => JNull
                  end
              | None => JNull
              end
          end in
        match group1 (re_search react_fence_re text) with
        | Some g =>
            match loads g with
            | Ret v => v
            | Exc _ => strategy3
            end
        | None => strategy3
        end
    end.

(** ** [extract_json_from_response] (research_exa.py)

    Only [json.JSONDecodeError] is caught; any other exception of
    [json.loads] propagates. *)
Definition catch_decode (r : py json) (k : unit -> py json) : py json :=
  match r with
  | Ret v => Ret v
  | Exc JSONDecodeError => k tt
  | Exc NoFuel => k tt
  | Exc ValueError => Exc ValueError
  end.

Definition extract_json_from_response (content : pystr) (default : json) : py json :=
  if is_empty content then Ret default
  else
    let content := py_strip content in
    catch_decode (loads content) (fun _ =>
      let strategy3 (_ : unit) :=
        let arr (_ : unit) :=
          match group1 (re_search research_arr_re content) with
          | Some g => catch_decode (loads g) (fun _ => Ret default)
          | None => Ret default
          end in
        match group1 (re_search research_obj_re content) with
        | Some g => catch_decode (loads g) arr
        | None => arr tt
        end in
      match group1 (re_search research_fence_re content) with
      | Some g => catch_decode (loads g) strategy3
      | None => strategy3 tt
      end).

(** ** The ReAct agent loop [run_gemini_simulation] (thinking_ReAct.py) *)

Record message := { role : pystr; content : pystr }.

(** The dict [{"content": ..., "reasoning": ...}] of [call_llm_step]. *)
Record response := { r_content : pystr; r_reasoning : pystr }.

Definition takewhile (p : N -> bool) : pystr -> pystr :=
  fix go s := match s with c :: s' => if p c then c :: go s' else [] | [] => [] end.

(** A number lexeme denotes zero when its digits before the exponent are
    all [0] ([NaN] and [Infinity] are true). *)
Definition num_is_zero (lex : pystr) : bool :=
  let m := match lex with c :: t => if c =? 45 then t else lex | [] => [] end in
  match m with
  | d :: _ =>
      is_digit d &&
      forallb (fun c => negb (is_digit c) || (c =? 48))
              (takewhile (fun c => negb ((c =? 101) || (c =? 69))) m)
  | [] => false
  end.

(** [bool(value)] *)
Definition truthy (j : json) : bool :=
  match j with
  | JNull => false
  | JBool b => b
  | JNum lex => negb (num_is_zero lex)
  | JStr s => negb (is_empty s)
  | JArr xs => negb (is_empty xs)
  | JObj kvs => negb (is_empty kvs)
  end.

(** [value == "lit"] for a decoded value *)
Definition is_str (j : json) (w : pystr) : bool :=
  match j with
  | JStr s => if list_eq_dec N.eq_dec s w then true else false
  | _ => false
  end.

(** [d.get(key, default)] *)
Definition dict_get_default (d : list (pystr * json)) (key : pystr) (default : json) : json :=
  match dict_get d key with Some v => v | None => default end.

Definition max_steps : nat := 7.

Definition user_msg (c : pystr) : message := {| role := str "user"; content := c |}.
Definition assistant_msg (c : pystr) : message := {| role := str "assistant"; content := c |}.
Definition system_msg (c : pystr) : message := {| role := str "system"; content := c |}.

Definition parse_error_msg : message :=
  user_msg (str "Error: No valid JSON found. Please output ONLY JSON.").

(** What happens observably during a run: the LLM calls (round number and
    the history sent) and the tool calls. *)
Inductive event :=
| ELLM (step : nat) (history : list message)
| ESearch (query : json)
| EVisit (url : json).

Inductive round_result :=
| RBreak
| RReturn (answer : json)
| RRaise                      (* [decision.get] on a value that is not a dict *)
| RNext (tools : list event) (history : list message).

Inductive exit_kind := Answered (answer : json) | Broke | MaxSteps | Raised.

(** The decision a round acts on: the JSON of the content, or, when that
    is falsy, the JSON of the reasoning trace. *)
Definition decision_of (result : response) : json :=
  let decision := extract_json_from_text (r_content result) in
  if truthy decision then decision else extract_json_from_text (r_reasoning result).

Section ReActLoop.

(** The model: its answer at a given round to the history sent. *)
Variable call_llm_step : nat -> list message -> response.
(** [tools_search] and [tools_visit], applied to [action_input]. *)
Variables tools_search tools_visit : json -> pystr.
(** [str()] of a value inside an f-string. *)
Variable py_str : json -> pystr.

(** The body of [while step < max_steps], after [step += 1]. *)
Definition react_round (step : nat) (messages : list message) : round_result :=
  let result := call_llm_step step messages in
  if is_empty (r_content result) && is_empty (r_reasoning result) then RBreak
  else
    let decision := decision_of result in
    if negb (truthy decision) then RNext [] (messages ++ [parse_error_msg])
    else
      match decision with
      | JObj d =>
          let action := dict_get_default d (str "action") (JStr []) in
          let action_input := dict_get_default d (str "action_input") (JStr []) in
          let fold_back (tools : list event) (observation : pystr) :=
            RNext tools (messages ++
              [assistant_msg (dumps None decision);
               user_msg (str "Observation from " ++ py_str action ++ [58; 10] ++ observation)]) in
          if is_str action (str "search") then
            fold_back [ESearch action_input] (tools_search action_input)
          else if is_str action (str "visit") then
            fold_back [EVisit action_input] (tools_visit action_input)
          else if is_str action (str "answer") then RReturn action_input
          else fold_back [] (str "Unknown action: " ++ py_str action)
      | _ => RRaise
      end.

(** [while step < max_steps: step += 1; ...]; [fuel] only makes the
    recursion structural (see [react_loop_fuel]). *)
Fixpoint react_loop (fuel step : nat) (messages : list message)
  : exit_kind * list message * list event :=
  match fuel with
  | O => (MaxSteps, messages, [])
  | S fuel' =>
      if (step <? max_steps)%nat then
        let step := S step in
        let ev := ELLM step messages in
        match react_round step messages with
        | RBreak => (Broke, messages, [ev])
        | RReturn v => (Answered v, messages, [ev])
        | RRaise => (Raised, messages, [ev])
        | RNext tools messages' =>
            let '(x, ms, evs) := react_loop fuel' step messages' in
            (x, ms, ev :: tools ++ evs)
        end
      else (MaxSteps, messages, [])
  end.

(** [run_gemini_simulation(user_query)]; the system prompt is the literal
    of the source. *)
Definition run_gemini_simulation (system_prompt user_query : pystr) :=
  react_loop max_steps 0 [system_msg system_prompt; user_msg user_query].

End ReActLoop.

(** The histories sent to the model, in the order of the calls. *)
Fixpoint llm_histories (evs : list event) : list (list message) :=
  match evs with
  | [] => []
  | ELLM _ h :: evs' => h :: llm_histories evs'
  | _ :: evs' => llm_histories evs'
  end.

(** Each history of [hs] extends the one before it, the first one
    extending [h]: messages are only ever appended. *)
Fixpoint history_chain (h : list message) (hs : list (list message)) : Prop :=
  match hs with
  | [] => True
  | h' :: hs' => (exists t, h' = h ++ t) /\ history_chain h' hs'
  end.

(** ** Assembling the OCR pages in pdf2md.py [main] *)

(** [sep.join(parts)] *)
Fixpoint py_join (sep : pystr) (parts : list pystr) : pystr :=
  match parts with
  | [] => []
  | [p] => p
  | p :: ps => p ++ sep ++ py_join sep ps
  end.

(** [results[page_num] = content] on a dict with int keys *)
Fixpoint page_set (d : list (nat * pystr)) (p : nat) (c : pystr) : list (nat * pystr) :=
  match d with
  | [] => [(p, c)]
  | (q, c') :: d' => if Nat.eqb q p then (p, c) :: d' else (q, c') :: page_set d' p c
  end.

Fixpoint page_get (d : list (nat * pystr)) (p : nat) : option pystr :=
  match d with
  | [] => None
  | (q, c) :: d' => if Nat.eqb q p then Some c else page_get d' p
  end.

(** [sorted()] on a list of ints (any correct sort gives this list). *)
Fixpoint insert_sorted (x : nat) (l : list nat) : list nat :=
  match l with
  | [] => [x]
  | y :: l' => if Nat.leb x y then x :: l else y :: insert_sorted x l'
  end.

Fixpoint py_sorted (l : list nat) : list nat :=
  match l with
  | [] => []
  | x :: l' => insert_sorted x (py_sorted l')
  end.

(** The pages [(page_num, content)] in the order [as_completed] yields
    their futures, folded into [results], then joined in key order. *)
Definition raw_full_text (completed : list (nat * pystr)) : pystr :=
  let results := fold_left (fun d pc => page_set d (fst pc) (snd pc)) completed [] in
  let sorted_pages := py_sorted (map fst results) in
  py_join [10; 10] (map (fun p => match page_get results p with Some c => c | None => [] end)
                        sorted_pages).

(** ** UTF-8 and text-mode files *)

Definition in_range (lo hi b : N) : bool := (lo <=? b) && (b <=? hi).
Definition cont_byte (b : N) : bool := in_range 128 191 b.

(** [bytes.decode('utf-8')] (strict): [None] is [UnicodeDecodeError]. *)
Fixpoint utf8_decode (bs : list N) : option pystr :=
  match bs with
  | [] => Some []
  | b0 :: t =>
      if b0 <? 128 then option_map (cons b0) (utf8_decode t)
      else if in_range 194 223 b0 then
        match t with
        | b1 :: t' =>
            if cont_byte b1
            then option_map (cons ((b0 - 192) * 64 + (b1 - 128))) (utf8_decode t')
            else None
        | _ => None
        end
      else if in_range 224 239 b0 then
        match t with
        | b1 :: b2 :: t' =>
            if in_range (if b0 =? 224 then 160 else 128) (if b0 =? 237 then 159 else 191) b1
               && cont_byte b2
            then option_map (cons ((b0 - 224) * 4096 + (b1 - 128) * 64 + (b2 - 128)))
                            (utf8_decode t')
            else None
        | _ => None
        end
      else if in_range 240 244 b0 then
        match t with
        | b1 :: b2 :: b3 :: t' =>
            if in_range (if b0 =? 240 then 144 else 128) (if b0 =? 244 then 143 else 191) b1
               && cont_byte b2 && cont_byte b3
            then option_map (cons ((b0 - 240) * 262144 + (b1 - 128) * 4096
                                   + (b2 - 128) * 64 + (b3 - 128)))
                            (utf8_decode t')
            else None
        | _ => None
        end
      else None
  end.

(** [str.encode('utf-8')] on one character: [None] is
    [UnicodeEncodeError] (a lone surrogate). *)
Definition utf8_encode_char (c : N) : option (list N) :=
  if c <? 128 then Some [c]
  else if c <? 2048 then Some [192 + c / 64; 128 + c mod 64]
  else if c <? 65536 then
    if in_range 55296 57343 c then None
    else Some [224 + c / 4096; 128 + (c / 64) mod 64; 128 + c mod 64]
  else if c <? 1114112 then
    Some [240 + c / 262144; 128 + (c / 4096) mod 64; 128 + (c / 64) mod 64; 128 + c mod 64]
  else None.

Fixpoint utf8_encode (s : pystr) : option (list N) :=
  match s with
  | [] => Some []
  | c :: s' =>
      match utf8_encode_char c, utf8_encode s' with
      | Some b, Some r => Some (b ++ r)
      | _, _ => None
      end
  end.

(** Reading in text mode with [newline=None]: ["\r\n"] and ["\r"]
    become ["\n"]. *)
Fixpoint universal_newlines (s : pystr) : pystr :=
  match s with
  | [] => []
  | c :: t =>
      if c =? 13 then
        match t with
        | d :: t' => if d =? 10 then 10 :: universal_newlines t' else 10 :: universal_newlines t
        | [] => [10]
        end
      else c :: universal_newlines t
  end.

(** [open(path, 'r', encoding='utf-8').read()] *)
Definition read_text (data : list N) : option pystr :=
  option_map universal_newlines (utf8_decode data).

(** ** [save_research] and [load_research] (research_exa.py) *)

(** A [ResearchStep]; its fields hold the JSON-shaped Python values the
    program stores in them, [timestamp] the ISO string of its creation. *)
Record research_step := {
  rs_query : json;
  rs_step_type : json;
  rs_sources : json;
  rs_analysis : json;
  rs_reasoning : json;
  rs_timestamp : pystr
}.

(** [ResearchStep(query, step_type, sources, analysis, reasoning)], created
    at time [now]: [self.sources = sources or []]. *)
Definition make_step (query step_type sources analysis reasoning : json) (now : pystr)
  : research_step :=
  {| rs_query := query; rs_step_type := step_type;
     rs_sources := if truthy sources then sources else JArr [];
     rs_analysis := analysis; rs_reasoning := reasoning; rs_timestamp := now |}.

Definition step_to_json (s : research_step) : json :=
  JObj [(str "query", rs_query s); (str "step_type", rs_step_type s);
        (str "analysis", rs_analysis s); (str "reasoning", rs_reasoning s);
        (str "sources", rs_sources s); (str "timestamp", JStr (rs_timestamp s))].

Definition research_data (query : json) (steps : list research_step) (now : pystr) : json :=
  JObj [(str "query", query); (str "timestamp", JStr now);
        (str "steps", JArr (map step_to_json steps))].

(** The bytes [save_research] writes ([json.dump(..., ensure_ascii=False,
    indent=2)] through a UTF-8 text file); [None] when it raises. *)
Definition save_research (query : json) (steps : list research_step) (now : pystr)
  : option (list N) :=
  utf8_encode (dumps (Some 2%nat) (research_data query steps now)).

(** [value[key]]: [None] is the [KeyError] or [TypeError] raised. *)
Definition subscript (j : json) (key : pystr) : option json :=
  match j with
  | JObj d => dict_get d key
  | _ => None
  end.

(** [for x in value]: a list gives its items, a dict its keys, a string
    its characters; anything else raises [TypeError]. *)
Definition py_iter (j : json) : option (list json) :=
  match j with
  | JArr xs => Some xs
  | JObj d => Some (map (fun kv => JStr (fst kv)) d)
  | JStr s => Some (map (fun c => JStr [c]) s)
  | _ => None
  end.

(** The loop of [load_research]; [clock i] is [datetime.now().isoformat()]
    when the [i]-th step is built. *)
Fixpoint load_steps (clock : nat -> pystr) (i : nat) (items : list json)
  : option (list research_step) :=
  match items with
  | [] => Some []
  | step_data :: items' =>
      match subscript step_data (str "query"), subscript step_data (str "step_type") with
      | Some q, Some t =>
          let get k dflt := match subscript step_data k with Some v => v | None => dflt end in
          let step := make_step q t (get (str "sources") (JArr []))
                                (get (str "analysis") (JStr [])) (get (str "reasoning") (JStr []))
                                (clock i) in
          option_map (cons step) (load_steps clock (S i) items')
      | _, _ => None
      end
  end.

(** [load_research] on the bytes of the file; [None] when it raises. *)
Definition load_research (file : list N) (clock : nat -> pystr)
  : option (json * list research_step) :=
  match read_text file with
  | None => None
  | Some text =>
      match loads text with
      | Exc _ => None
      | Ret data =>
          match subscript data (str "steps") with
          | None => None
          | Some steps_v =>
              match py_iter steps_v with
              | None => None
              | Some items =>
                  match load_steps clock 0 items with
                  | None => None
                  | Some steps =>
                      match subscript data (str "query") with
                      | Some q => Some (q, steps)
                      | None => None
                      end
                  end
              end
          end
      end
  end.

(** ** [process_path] (merge_codebase_context.py) *)

(** A directory tree as [os.walk] lists it: entries in listing order. *)
Inductive entry :=
| EFile (name : pystr) (data : list N)
| EDir (name : pystr) (children : list entry).

Definition mem (x : pystr) (l : list pystr) : bool :=
  existsb (fun y => if list_eq_dec N.eq_dec x y then true else false) l.

(** [str.lower()] where only membership of the result in a set of ASCII
    strings is used: [A-Z] and the Kelvin sign (U+212A) are the only
    characters whose lowercase is ASCII, and ASCII characters other than
    [A-Z] are unchanged. *)
Definition lower_char (c : N) : N :=
  if in_range 65 90 c then c + 32 else if c =? 8490 then 107 else c.

Definition py_lower (s : pystr) : pystr := map lower_char s.

Fixpoint last_dot (s : pystr) (i : nat) : option nat :=
  match s with
  | [] => None
  | c :: s' =>
      match last_dot s' (S i) with
      | Some j => Some j
      | None => if c =? 46 then Some i else None
      end
  end.

(** [os.path.splitext(name)[1]] for a name without [/]: from the last dot,
    unless only dots precede it. *)
Definition splitext_ext (name : pystr) : pystr :=
  match last_dot name 0 with
  | None => []
  | Some i =>
      if existsb (fun c => negb (c =? 46)) (firstn i name) then skipn i name else []
  end.

Definition BINARY_EXTENSIONS : list pystr :=
  map str [".png"; ".jpg"; ".jpeg"; ".gif"; ".bmp"; ".ico"; ".svg"; ".webp";
           ".mp4"; ".mp3"; ".wav"; ".pdf"; ".zip"; ".tar"; ".gz"; ".7z"; ".rar";
           ".pyc"; ".exe"; ".dll"; ".so"; ".dylib"; ".class"; ".jar"; ".bin";
           ".eot"; ".woff"; ".woff2"; ".ttf"; ".lock"].

Definition is_binary_file (filename : pystr) : bool :=
  mem (py_lower (splitext_ext filename)) BINARY_EXTENSIONS.

Definition get_comment_prefix (filename : pystr) : pystr :=
  let ext := py_lower (splitext_ext filename) in
  if mem ext (map str [".py"; ".sh"; ".yaml"; ".yml"; ".conf"; ".ini"; ".rb"; ".pl";
                       ".dockerfile"; "makefile"])
  then str "# " else str "// ".

Definition IGNORE_DIRS : list pystr :=
  map str [".git"; ".idea"; ".vscode"; "__pycache__"; "node_modules";
           "dist"; "build"; "venv"; "env"; ".DS_Store"; "target"; "out"].

Definition IGNORE_FILES (output_file : pystr) : list pystr :=
  map str [".DS_Store"; "package-lock.json"; "yarn.lock"; "pnpm-lock.yaml"] ++
  [output_file] ++ map str ["LICENSE"; ".gitignore"].

(** [os.walk(source_path)] (top-down) with [dirs[:]] pruned by
    [IGNORE_DIRS]: for each directory visited, its path below the source
    (as components) and its files [(name, bytes)]. *)
Fixpoint os_walk (root : list pystr) (e : entry) : list (list pystr * list (pystr * list N)) :=
  match e with
  | EFile _ _ => []
  | EDir _ children =>
      let files := flat_map (fun c => match c with EFile n d => [(n, d)] | EDir _ _ => [] end)
                            children in
      (root, files) ::
      (fix subdirs (cs : list entry) :=
         match cs with
         | [] => []
         | c :: cs' =>
             match c with
             | EDir n _ => if mem n IGNORE_DIRS then [] else os_walk (root ++ [n]) c
             | EFile _ _ => []
             end ++ subdirs cs'
         end) children
  end.

(** [os.path.relpath(os.path.join(root, file), source_path)] *)
Definition rel_path (root : list pystr) (file : pystr) : pystr := py_join [47] (root ++ [file]).

(** The inner [for file in files] loop: what it writes and how many files. *)
Fixpoint process_files (output_file : pystr) (root : list pystr) (files : list (pystr * list N))
  : pystr * nat :=
  match files with
  | [] => ([], O)
  | (file, data) :: files' =>
      let '(out, n) := process_files output_file root files' in
      if mem file (IGNORE_FILES output_file) || is_binary_file file then (out, n)
      else
        match read_text data with
        | None => (out, n)
        | Some content =>
            if is_empty (py_strip content) then (out, n)
            else (get_comment_prefix file ++ rel_path root file ++ [10] ++ content ++ [10; 10] ++ out,
                  S n)
        end
  end.

(** [process_path(source_path, output_file)] on the tree at [source_path]:
    the text written to [output_file] and the returned [total_files]. *)
Definition process_path (source : entry) (output_file : pystr) : pystr * nat :=
  fold_right (fun rf acc =>
                let '(out, n) := process_files output_file (fst rf) (snd rf) in
                (out ++ fst acc, (n + snd acc)%nat))
             ([], O) (os_walk [] source).

(** ** [generate_search_queries] (research_exa.py)

    From the [try] on, on the text of the model's reply.
    [extract_json_from_response] may raise [ValueError], [result.get] on a
    value that is not a dict raises [AttributeError], and [len(queries)] on
    a value without a length raises [TypeError]; [except Exception] turns
    each into [[main_query]]. *)

(** Values with a [len]: strings, lists and dicts. *)
Definition py_sized (j : json) : bool :=
  match j with JStr _ | JArr _ | JObj _ => true | _ => false end.

Definition generate_search_queries (main_query : pystr) (content : pystr) : json :=
  match extract_json_from_response (py_strip content) JNull with
  | Ret (JObj d) =>
      let queries := dict_get_default d (str "queries") (JArr [JStr main_query]) in
      if py_sized queries then queries else JArr [JStr main_query]
  | _ => JArr [JStr main_query]
  end.

(** ** The response stream of [call_llm_step] (thinking_ReAct.py)

    The lines [resp.iter_lines()] yields, as bytes, and the status code of
    the response; a failed request ends like a status other than 200. *)

Inductive llm_exc := UnicodeDecodeError | TypeError.

Inductive llm_result := LOk (r : response) | LRaise (e : llm_exc).

Definition data_prefix : pystr := str "data: ".

(** [if s.startswith("data: "): s = s[len("data: "):]] *)
Definition strip_data (s : pystr) : pystr :=
  if starts_with data_prefix s then skipn (length data_prefix) s else s.

(** [if "k" in delta: v = delta["k"]; if v: parts.append(v)] on a dict *)
Definition delta_part (delta : list (pystr * json)) (key : pystr) : list json :=
  match dict_get delta key with
  | Some v => if truthy v then [v] else []
  | None => []
  end.

(** What one decoded chunk appends to [full_reasoning] and to
    [full_content]. Every other shape raises a [TypeError], [KeyError] or
    [IndexError] inside the [try] (a string [delta] or [chunk] answers
    [in] but not [[...]]), which the [except: continue] swallows before
    anything is appended. *)
Definition chunk_parts (chunk : json) : list json * list json :=
  match chunk with
  | JObj d =>
      match dict_get d (str "choices") with
      | None => ([], [])
      | Some choices =>
          if negb (truthy choices) then ([], [])
          else
            match choices with
            | JArr (JObj c0 :: _) =>
                match dict_get c0 (str "delta") with
                | Some (JObj delta) =>
                    (delta_part delta (str "reasoning_content"), delta_part delta (str "content"))
                | _ => ([], [])
                end
            | _ => ([], [])
            end
      end
  | _ => ([], [])
  end.

(** The [for line in resp.iter_lines()] loop; [None] is the
    [UnicodeDecodeError] of [line.decode("utf-8")], which sits outside the
    [try]. *)
Fixpoint stream_loop (lines : list (list N)) (full_reasoning full_content : list json)
  : option (list json * list json) :=
  match lines with
  | [] => Some (full_reasoning, full_content)
  | line :: lines' =>
      if is_empty line then stream_loop lines' full_reasoning full_content
      else
        match utf8_decode line with
        | None => None
        | Some s =>
            let s := strip_data s in
            if list_eq_dec N.eq_dec (py_strip s) (str "[DONE]") then Some (full_reasoning, full_content)
            else
              match loads s with
              | Ret chunk =>
                  let '(r, c) := chunk_parts chunk in
                  stream_loop lines' (full_reasoning ++ r) (full_content ++ c)
              | Exc _ => stream_loop lines' full_reasoning full_content
              end
        end
  end.

(** [''.join(parts)]: [None] is the [TypeError] of an item that is not a
    string. *)
Fixpoint str_join (parts : list json) : option pystr :=
  match parts with
  | [] => Some []
  | JStr s :: ps => option_map (app s) (str_join ps)
  | _ :: _ => None
  end.

(** [call_llm_step(messages)] from the response on: [status_code] and the
    lines of the body. *)
Definition call_llm_step (status_code : N) (lines : list (list N)) : llm_result :=
  if negb (status_code =? 200) then LOk {| r_content := []; r_reasoning := [] |}
  else
    match stream_loop lines [] [] with
    | None => LRaise UnicodeDecodeError
    | Some (full_reasoning, full_content) =>
        match str_join full_content, str_join full_reasoning with
        | Some c, Some r => LOk {| r_content := c; r_reasoning := r |}
        | _, _ => LRaise TypeError
        end
    end.

(** ** The cleaning in [tools_visit] (thinking_ReAct.py) *)

(** [r'\n\s*\n'] *)
Definition blank_lines_re : matcher :=
  m_seq (m_lit [10]) (m_seq (m_star py_isspace) (m_lit [10])).

(** [re.sub(pattern, repl, s)] for a pattern that never matches the empty
    string: from left to right, the first match found at a position is
    replaced by [repl] and the scan resumes at its end; where nothing
    matches the character is copied. [fuel] bounds the positions. *)
Fixpoint re_sub_fuel (fuel : nat) (r : matcher) (repl s : pystr) : pystr :=
  match fuel with
  | O => s
  | S fuel' =>
      match r s (fun rest => Some [rest]) with
      | Some (rest :: _) => repl ++ re_sub_fuel fuel' r repl rest
      | _ =>
          match s with
          | c :: s' => c :: re_sub_fuel fuel' r repl s'
          | [] => []
          end
      end
  end.

Definition re_sub (r : matcher) (repl s : pystr) : pystr := re_sub_fuel (S (length s)) r repl s.

(** [cleaned_text = re.sub(r'\n\s*\n', '\n\n', raw_text)] *)
Definition tools_visit_clean (raw_text : pystr) : pystr := re_sub blank_lines_re [10; 10] raw_text.

(** ** Auxiliary notions for the proofs *)

(** [r] is a suffix of [s]. *)
Definition sfx (r s : pystr) : Prop := exists t, s = t ++ r.

(** Page order of [(page_num, content)] pairs. *)
Definition page_lt (a b : nat * pystr) : Prop := (fst a < fst b)%nat.

(** What may follow a number lexeme without extending it: the end of the
    input, or a character that is neither a digit, nor [.], [e] or [E]. *)
Definition numstop (r : pystr) : bool :=
  match r with
  | [] => true
  | c :: _ => negb (is_digit c || (c =? 46) || (c =? 101) || (c =? 69))
  end.

Definition nodigit_head (r : pystr) : Prop :=
  match r with c :: _ => is_digit c = false | [] => True end.

(** The characters a number lexeme is made of. *)
Definition numch (x : N) : bool :=
  is_digit x || (x =? 45) || (x =? 43) || (x =? 46) || (x =? 101) || (x =? 69).

(** The characters a JSON value can start with. *)
Definition vhead (c : N) : bool :=
  numch c || (c =? 34) || (c =? 123) || (c =? 91) || (c =? 110) || (c =? 116) ||
  (c =? 102) || (c =? 78) || (c =? 73).

(** ** Well-formed JSON values and what the proofs assume of them *)

Definition pystr_eqb (a b : pystr) : bool := if list_eq_dec N.eq_dec a b then true else false.

Fixpoint keys_distinct (ks : list pystr) : bool :=
  match ks with
  | [] => true
  | k :: ks' => negb (existsb (pystr_eqb k) ks') && keys_distinct ks'
  end.

Definition num_ok (lex : pystr) : bool :=
  match pvalue 1 lex with
  | Ok (JNum l) [] => pystr_eqb l lex
  | _ => false
  end.

Fixpoint json_wf (j : json) : bool :=
  match j with
  | JNum lex => num_ok lex
  | JArr xs => forallb json_wf xs
  | JObj kvs => keys_distinct (map fst kvs) && forallb (fun kv => json_wf (snd kv)) kvs
  | _ => true
  end.

Section JsonInd.
Variable P : json -> Prop.
Hypothesis Hnull : P JNull.
Hypothesis Hbool : forall b, P (JBool b).
Hypothesis Hnum : forall lex, P (JNum lex).
Hypothesis Hstr : forall s, P (JStr s).
Hypothesis Harr : forall xs, Forall P xs -> P (JArr xs).
Hypothesis Hobj : forall kvs, Forall (fun kv => P (snd kv)) kvs -> P (JObj kvs).

Fixpoint json_ind' (j : json) : P j :=
  match j with
  | JNull => Hnull
  | JBool b => Hbool b
  | JNum lex => Hnum lex
  | JStr s => Hstr s
  | JArr xs =>
      Harr xs ((fix go (l : list json) : Forall P l :=
                  match l with
                  | [] => Forall_nil _
                  | x :: l' => Forall_cons _ (json_ind' x) (go l')
                  end) xs)
  | JObj kvs =>
      Hobj kvs ((fix go (l : list (pystr * json)) : Forall (fun kv => P (snd kv)) l :=
                   match l with
                   | [] => Forall_nil _
                   | (k, v) :: l' => Forall_cons (P := fun kv => P (snd kv)) (k, v) (json_ind' v) (go l')
                   end) kvs)
  end.
End JsonInd.

Definition dumps_parses (ind : option nat) (j : json) : Prop :=
  forall lvl r, numstop r = true -> exists n, pvalue n (dumps_at ind lvl j ++ r) = Ok j r.

(** ** Fenced responses *)

Definition no_tick (s : pystr) : bool := forallb (fun c => negb (c =? 96)) s.

(** [s] contains no [```]. *)
Fixpoint no_fence (s : pystr) : bool :=
  match s with
  | [] => true
  | _ :: t => negb (starts_with fence s) && no_fence t
  end.

(** The number scanner of [json.loads] raises [ValueError] at the head of
    [s]: an integer of more than [int_max_str_digits] digits. *)
Definition int_too_long (s : pystr) : bool :=
  match pnumber s with Err ValueError => true | _ => false end.

(** Prose before a fence that [json.loads] refuses with [JSONDecodeError]
    whatever follows it: its first non-whitespace character, if any, is
    not a double quote, [[] or [{], and does not start an integer too long to
    convert. *)
Definition prose_head_ok (p : pystr) : bool :=
  match lstrip p with
  | [] => true
  | c :: t => negb ((c =? 34) || (c =? 91) || (c =? 123)) && negb (int_too_long (c :: t))
  end.

(** The opening brackets [[] and [{] of a text: a bound on the nesting
    depth of any JSON value decoded from a part of it. *)
Definition open_brackets (s : pystr) : nat :=
  length (filter (fun c => (c =? 91) || (c =? 123)) s).

(** Nesting depth of a JSON value: CPython's decoder raises
    [RecursionError] near its recursion limit (1000 by default), which the
    model of [json.loads] does not represent; statements about decoding
    are restricted to values of bounded depth. *)
Fixpoint json_depth (j : json) : nat :=
  match j with
  | JArr xs => S (list_max (map json_depth xs))
  | JObj kvs => S (list_max (map (fun kv => json_depth (snd kv)) kvs))
  | _ => O
  end.

(** ** Saved research files *)

Definition no_cr (s : pystr) : bool := forallb (fun c => negb (c =? 13)) s.

Definition is_empty_list (j : json) : bool := match j with JArr [] => true | _ => false end.

Definition step_wf (s : research_step) : bool :=
  json_wf (rs_query s) && json_wf (rs_step_type s) && json_wf (rs_sources s) &&
  json_wf (rs_analysis s) && json_wf (rs_reasoning s) &&
  (truthy (rs_sources s) || is_empty_list (rs_sources s)).

Definition step_fields (s : research_step) : json * json * json * json * json :=
  (rs_query s, rs_step_type s, rs_sources s, rs_analysis s, rs_reasoning s).

(** ** The files [process_path] includes *)

(** The files of the tree at [e] (as [(directory, name, bytes)], the
    directory given by its components below the source) that are not
    located under a directory whose name is in [IGNORE_DIRS]: the files of
    a directory, then those of its subdirectories in listing order. *)
Fixpoint visible_files (root : list pystr) (e : entry) : list (list pystr * pystr * list N) :=
  match e with
  | EFile _ _ => []
  | EDir _ children =>
      flat_map (fun c => match c with EFile n d => [(root, n, d)] | EDir _ _ => [] end) children ++
      flat_map (fun c => match c with
                         | EDir n _ => if mem n IGNORE_DIRS then [] else visible_files (root ++ [n]) c
                         | EFile _ _ => []
                         end) children
  end.

(** A file is included: its name is not in [IGNORE_FILES], its extension
    is not in [BINARY_EXTENSIONS], its bytes decode as UTF-8 and the text
    has a non-whitespace character. *)
Definition included (output_file : pystr) (f : list pystr * pystr * list N) : bool :=
  let '(_, name, data) := f in
  negb (mem name (IGNORE_FILES output_file)) && negb (is_binary_file name) &&
  match utf8_decode data with
  | Some text => existsb (fun c => negb (py_isspace c)) text
  | None => false
  end.

(** The block of an included file: comment line with its relative path,
    its text as read in text mode (decoded, line ends translated to
    ["\n"]), and a blank line. *)
Definition file_block (f : list pystr * pystr * list N) : pystr :=
  let '(root, name, data) := f in
  match utf8_decode data with
  | Some text =>
      get_comment_prefix name ++ rel_path root name ++ [10] ++ universal_newlines text ++ [10; 10]
  | None => []
  end.

Definition walk_flat (L : list (list pystr * list (pystr * list N))) : list (list pystr * pystr * list N) :=
  flat_map (fun rf => map (fun f => (fst rf, fst f, snd f)) (snd rf)) L.

Section EntryInd.
Variable P : entry -> Prop.
Hypothesis Hfile : forall n d, P (EFile n d).
Hypothesis Hdir : forall n cs, Forall P cs -> P (EDir n cs).

Fixpoint entry_ind' (e : entry) : P e :=
  match e with
  | EFile n d => Hfile n d
  | EDir n cs =>
      Hdir n cs ((fix go (l : list entry) : Forall P l :=
                    match l with
                    | [] => Forall_nil _
                    | x :: l' => Forall_cons _ (entry_ind' x) (go l')
                    end) cs)
  end.
End EntryInd.

(** ** The remaining functions: what their properties are stated with *)

Definition no_dot (s : pystr) : bool := forallb (fun c => negb (c =? 46)) s.

Definition script_exts : list pystr :=
  map str [".py"; ".sh"; ".yaml"; ".yml"; ".conf"; ".ini"; ".rb"; ".pl"; ".dockerfile"].

Definition decode_safe (r : py json) : Prop := (exists v, r = Ret v) \/ r = Exc ValueError.

Definition delim_free (c : N) : bool := negb ((c =? 96) || (c =? 123) || (c =? 91)).

Definition no_json_delim (s : pystr) : bool := forallb delim_free s.

Definition has_required_keys (item : json) : bool :=
  match subscript item (str "query"), subscript item (str "step_type") with
  | Some _, Some _ => true
  | _, _ => false
  end.

Definition sample_file (data : json) : list N :=
  match utf8_encode (dumps (Some 2%nat) data) with Some b => b | None => [] end.

Fixpoint prune_ignored (e : entry) : entry :=
  match e with
  | EFile n d => EFile n d
  | EDir n cs =>
      EDir n (flat_map (fun c => match c with
                                 | EFile _ _ => [c]
                                 | EDir m _ => if mem m IGNORE_DIRS then [] else [prune_ignored c]
                                 end) cs)
  end.

(** A streamed chunk carrying reasoning [r] and content [c], and the
    [data:] line that sends it. *)
Definition delta_chunk (r c : pystr) : json :=
  JObj [(str "choices", JArr [JObj [(str "delta",
          JObj [(str "reasoning_content", JStr r); (str "content", JStr c)])]])].

Definition sse_line (chunk : json) : option (list N) :=
  utf8_encode (data_prefix ++ dumps None chunk).

Definition done_line : list N := str "data: [DONE]".

(** A line the loop passes over without appending anything. *)
Definition line_skipped (line : list N) : bool :=
  is_empty line ||
  match utf8_decode line with
  | None => false
  | Some s =>
      negb (pystr_eqb (py_strip (strip_data s)) (str "[DONE]")) &&
      match loads (strip_data s) with
      | Ret chunk => let '(r, c) := chunk_parts chunk in is_empty r && is_empty c
      | Exc _ => true
      end
  end.

Definition keep_part (s : pystr) : list json := if negb (is_empty s) then [JStr s] else [].

Definition content_chunk (v : json) : json :=
  JObj [(str "choices", JArr [JObj [(str "delta", JObj [(str "content", v)])]])].

Definition no_nl (s : pystr) : bool := forallb (fun c => negb (c =? 10)) s.

(** [cnt] newlines in the current stretch of whitespace; [false] when a
    stretch holds a third one. *)
Fixpoint nl_runs_ok (cnt : nat) (s : pystr) : bool :=
  match s with
  | [] => true
  | c :: t =>
      if c =? 10 then (cnt <? 2)%nat && nl_runs_ok (S cnt) t
      else if py_isspace c then nl_runs_ok cnt t
      else nl_runs_ok 0 t
  end.

Definition not_space (c : N) : bool := negb (py_isspace c).

Definition nl_k : pystr -> option (list pystr) := fun rest => Some [rest].

(** The shape of a cleaned text: in a stretch of whitespace, state [0]
    has seen no newline, [1] one newline just before, [2] one newline
    further back, [3] two adjacent newlines. *)
Fixpoint tight (st : nat) (s : pystr) : bool :=
  match s with
  | [] => true
  | c :: t =>
      if c =? 10 then
        match st with 0%nat => tight 1 t | 1%nat => tight 3 t | _ => false end
      else if py_isspace c then
        match st with 1%nat => tight 2 t | _ => tight st t end
      else tight 0 t
  end.

Definition tight_step (st : nat) : nat := match st with 1%nat => 2%nat | _ => st end.

(** * Properties *)


(** ** The two extractors on concrete responses *)

(** C1 (counterexample): on ["x [1]"] the two extractors differ:
    [extract_json_from_response] finds the array [[1]] with its third
    strategy, [extract_json_from_text] (which looks for [{] only) returns
    [None]. *)
Lemma extractors_differ_on_prose_array :
  extract_json_from_response (str "x [1]") JNull = Ret (JArr [JNum (str "1")]) /\
  extract_json_from_text (str "x [1]") = JNull.
Proof. split; vm_compute; reflexivity. Qed.

(** C3: a response made of 4301 digits makes [json.loads] raise
    [ValueError] (the int string-conversion limit);
    [extract_json_from_response] catches only [JSONDecodeError] and so
    raises, while its sibling [extract_json_from_text] returns [None]. *)
Theorem extract_json_from_response_raises_on_long_int :
  extract_json_from_response (repeat 49 4301) JNull = Exc ValueError /\
  extract_json_from_text (repeat 49 4301) = JNull.
Proof. split; vm_compute; reflexivity. Qed.

(** ** The ReAct loop on concrete model answers *)

(** C4: a model whose content is the JSON array [[1]] makes the first
    round call [.get] on a list: [run_gemini_simulation] ends by the
    [AttributeError] after one LLM call, neither answering nor breaking. *)
Theorem react_run_raises_on_list_decision (tools_search tools_visit py_str : json -> pystr)
  (system_prompt user_query : pystr) :
  run_gemini_simulation (fun _ _ => {| r_content := str "[1]"; r_reasoning := [] |})
    tools_search tools_visit py_str system_prompt user_query =
  (Raised, [system_msg system_prompt; user_msg user_query],
   [ELLM 1 [system_msg system_prompt; user_msg user_query]]).
Proof. reflexivity. Qed.



(** ** [process_path] on a concrete tree *)

(** C10 (counterexample): a file with a CRLF line end is written with the
    line end translated to ["\n"], not with its content as decoded. *)
Lemma process_path_translates_crlf :
  process_path (EDir (str "src") [EFile (str "a.txt") [97; 13; 10; 98]]) (str "context.txt") =
  (str "// a.txt" ++ [10; 97; 10; 98; 10; 10], 1%nat) /\
  utf8_decode [97; 13; 10; 98] = Some [97; 13; 10; 98].
Proof. split; vm_compute; reflexivity. Qed.

(** ** A round with no extractable JSON *)

(** C7: in a round (within the 7-round bound) whose response is not empty
    and whose content and reasoning both yield no JSON, the decision is
    looked up in the reasoning trace, and the round's only effect is the
    parse-error message appended to the history: no tool event, and the
    loop goes on with the next round number. *)
Theorem react_round_no_json_appends_error
  (call_llm_step : nat -> list message -> response) (tools_search tools_visit py_str : json -> pystr)
  (fuel step : nat) (messages : list message) :
  (step < max_steps)%nat ->
  (is_empty (r_content (call_llm_step (S step) messages))
   && is_empty (r_reasoning (call_llm_step (S step) messages))) = false ->
  extract_json_from_text (r_content (call_llm_step (S step) messages)) = JNull ->
  extract_json_from_text (r_reasoning (call_llm_step (S step) messages)) = JNull ->
  decision_of (call_llm_step (S step) messages)
    = extract_json_from_text (r_reasoning (call_llm_step (S step) messages)) /\
  react_loop call_llm_step tools_search tools_visit py_str (S fuel) step messages =
  (let '(x, ms, evs) :=
     react_loop call_llm_step tools_search tools_visit py_str fuel (S step)
       (messages ++ [parse_error_msg]) in
   (x, ms, ELLM (S step) messages :: evs)).
Proof.
  intros Hlt Hne Hc Hr.
  assert (Hd : decision_of (call_llm_step (S step) messages)
               = extract_json_from_text (r_reasoning (call_llm_step (S step) messages))).
  { unfold decision_of. rewrite Hc. reflexivity. }
  split; [exact Hd|].
  apply Nat.ltb_lt in Hlt.
  simpl react_loop. rewrite Hlt.
  unfold react_round. rewrite Hne, Hd, Hr. reflexivity.
Qed.

Lemma react_round_no_json_appends_error_witness :
  decision_of {| r_content := str "x"; r_reasoning := str "y" |}
    = extract_json_from_text (r_reasoning {| r_content := str "x"; r_reasoning := str "y" |}) /\
  react_loop (fun _ _ => {| r_content := str "x"; r_reasoning := str "y" |})
    (fun _ => []) (fun _ => []) (fun _ => []) 1 0 [] =
  (let '(x, ms, evs) :=
     react_loop (fun _ _ => {| r_content := str "x"; r_reasoning := str "y" |})
       (fun _ => []) (fun _ => []) (fun _ => []) 0 1 ([] ++ [parse_error_msg]) in
   (x, ms, ELLM 1 [] :: evs)).
Proof.
  apply (react_round_no_json_appends_error
           (fun _ _ => {| r_content := str "x"; r_reasoning := str "y" |})
           (fun _ => []) (fun _ => []) (fun _ => []) 0 0 []);
    [unfold max_steps; lia | reflexivity | vm_compute; reflexivity | vm_compute; reflexivity].
Defined.

(** ** Joining the OCR pages *)

Lemma page_set_new (d : list (nat * pystr)) (p : nat) (c : pystr) :
  ~ In p (map fst d) -> page_set d p c = d ++ [(p, c)].
Proof.
  induction d as [|[q c'] d IH]; intros Hn; simpl; [reflexivity|].
  simpl in Hn. destruct (Nat.eqb_spec q p) as [->|Hqp]; [tauto|].
  rewrite IH; [reflexivity|tauto].
Qed.

Lemma fold_page_set (l acc : list (nat * pystr)) :
  NoDup (map fst (acc ++ l)) ->
  fold_left (fun d pc => page_set d (fst pc) (snd pc)) l acc = acc ++ l.
Proof.
  revert acc. induction l as [|[p c] l IH]; intros acc Hnd; simpl.
  - now rewrite app_nil_r.
  - rewrite page_set_new.
    + rewrite IH; [now rewrite <- app_assoc|]. now rewrite <- app_assoc.
    + rewrite map_app in Hnd. simpl in Hnd.
      intros Hin. apply NoDup_remove_2 in Hnd. apply Hnd, in_or_app. now left.
Qed.

Lemma page_get_in (l : list (nat * pystr)) (p : nat) (c : pystr) :
  NoDup (map fst l) -> In (p, c) l -> page_get l p = Some c.
Proof.
  induction l as [|[q c'] l IH]; simpl; intros Hnd Hin; [contradiction|].
  inversion Hnd as [|? ? Hq Hnd']; subst.
  destruct Hin as [Heq|Hin].
  - injection Heq as -> ->. now rewrite Nat.eqb_refl.
  - destruct (Nat.eqb_spec q p) as [->|]; [|now apply IH].
    exfalso. apply Hq. change p with (fst (p, c)). now apply in_map.
Qed.

Lemma insert_sorted_perm (x : nat) (l : list nat) : Permutation (insert_sorted x l) (x :: l).
Proof.
  induction l as [|y l IH]; simpl; [reflexivity|].
  destruct (Nat.leb x y); [reflexivity|].
  rewrite IH. apply perm_swap.
Qed.

Lemma py_sorted_perm (l : list nat) : Permutation (py_sorted l) l.
Proof.
  induction l as [|x l IH]; simpl; [reflexivity|].
  rewrite insert_sorted_perm. now apply perm_skip.
Qed.

Lemma insert_sorted_sorted (x : nat) (l : list nat) :
  StronglySorted le l -> StronglySorted le (insert_sorted x l).
Proof.
  induction l as [|y l IH]; simpl; intros Hs.
  - repeat constructor.
  - inversion Hs as [|? ? Hs' Hall]; subst.
    destruct (Nat.leb_spec x y) as [Hxy|Hxy].
    + constructor; [exact Hs|]. constructor; [exact Hxy|].
      eapply Forall_impl; [|exact Hall]. intros; lia.
    + constructor; [now apply IH|].
      apply Forall_forall. intros z Hz.
      apply (Permutation_in _ (insert_sorted_perm x l)) in Hz.
      destruct Hz as [<-|Hz]; [lia|]. now apply (proj1 (Forall_forall _ _) Hall).
Qed.

Lemma py_sorted_sorted (l : list nat) : StronglySorted le (py_sorted l).
Proof.
  induction l as [|x l IH]; simpl; [constructor|]. now apply insert_sorted_sorted.
Qed.

Lemma strongly_sorted_strict (l : list nat) :
  NoDup l -> StronglySorted le l -> StronglySorted lt l.
Proof.
  induction l as [|x l IH]; intros Hnd Hs; [constructor|].
  inversion Hnd; inversion Hs; subst. constructor; [now apply IH|].
  apply Forall_forall. intros z Hz.
  assert (x <= z)%nat by now apply (proj1 (Forall_forall _ _) H6).
  assert (x <> z) by (intros ->; contradiction). lia.
Qed.



Lemma sorted_pages_unique (l1 l2 : list (nat * pystr)) :
  StronglySorted page_lt l1 -> StronglySorted page_lt l2 -> Permutation l1 l2 -> l1 = l2.
Proof.
  revert l2. induction l1 as [|a l1 IH]; intros l2 H1 H2 Hp.
  - symmetry. now apply Permutation_nil.
  - destruct l2 as [|b l2]; [apply Permutation_sym, Permutation_nil in Hp; discriminate|].
    inversion H1 as [|? ? H1' Ha]; inversion H2 as [|? ? H2' Hb]; subst.
    assert (a = b) as <-.
    { destruct (Permutation_in a Hp (or_introl eq_refl)) as [|Hin]; [congruence|].
      assert (Hb' : In b (a :: l1)) by (apply (Permutation_in b (Permutation_sym Hp)); now left).
      destruct Hb' as [|Hin']; [congruence|].
      pose proof (proj1 (Forall_forall _ _) Hb a Hin).
      pose proof (proj1 (Forall_forall _ _) Ha b Hin').
      unfold page_lt in *. lia. }
    f_equal. apply IH; auto. now apply Permutation_cons_inv in Hp.
Qed.

Lemma sorted_keys_pages (f : nat -> nat * pystr) (l : list nat) :
  (forall p, fst (f p) = p) -> StronglySorted lt l -> StronglySorted page_lt (map f l).
Proof.
  intros Hf. induction l as [|x l IH]; intros Hs; simpl; [constructor|].
  inversion Hs as [|? ? Hs' Hall]; subst. constructor; [now apply IH|].
  apply Forall_map. eapply Forall_impl; [|exact Hall].
  intros y Hy. unfold page_lt. now rewrite !Hf.
Qed.

Lemma raw_full_text_spec (completed : list (nat * pystr)) :
  NoDup (map fst completed) ->
  exists L, Permutation L completed /\ StronglySorted page_lt L /\
            raw_full_text completed = py_join [10; 10] (map snd L).
Proof.
  intros Hnd. unfold raw_full_text.
  rewrite (fold_page_set completed []) by exact Hnd. simpl (app [] completed).
  set (f := fun p => (p, match page_get completed p with Some x => x | None => [] end)).
  exists (map f (py_sorted (map fst completed))). split; [|split].
  - transitivity (map f (map fst completed)).
    + apply Permutation_map, py_sorted_perm.
    + rewrite map_map. rewrite <- (map_id completed) at 2. apply Permutation_refl'.
      apply map_ext_in. intros [p y] Hin. unfold f. simpl.
      now rewrite (page_get_in completed p y Hnd Hin).
  - apply sorted_keys_pages; [reflexivity|].
    apply strongly_sorted_strict; [|apply py_sorted_sorted].
    apply (Permutation_NoDup (Permutation_sym (py_sorted_perm _))), Hnd.
  - rewrite map_map. reflexivity.
Qed.

(** C8: whatever order [as_completed] yields the pages in (any
    permutation [completed] of the pool's results [outputs], one per page
    number), the raw text is the page outputs joined by blank lines in
    strictly increasing page order, the same text as for the submission
    order. *)
Theorem raw_full_text_page_order (outputs completed : list (nat * pystr)) :
  NoDup (map fst outputs) -> Permutation completed outputs ->
  raw_full_text completed = raw_full_text outputs /\
  exists L, Permutation L outputs /\ StronglySorted page_lt L /\
            raw_full_text completed = py_join [10; 10] (map snd L).
Proof.
  intros Hnd Hp.
  assert (Hnd' : NoDup (map fst completed))
    by exact (Permutation_NoDup (Permutation_map fst (Permutation_sym Hp)) Hnd).
  destruct (raw_full_text_spec completed Hnd') as (L1 & HL1 & HS1 & HE1).
  destruct (raw_full_text_spec outputs Hnd) as (L2 & HL2 & HS2 & HE2).
  assert (L1 = L2) as <-.
  { apply sorted_pages_unique; auto. now rewrite HL1, HL2. }
  split; [congruence|]. exists L1. split; [now rewrite HL1|]. auto.
Qed.

Lemma raw_full_text_page_order_witness :
  raw_full_text [(1%nat, str "a"); (2%nat, str "b")] = raw_full_text [(2%nat, str "b"); (1%nat, str "a")] /\
  exists L, Permutation L [(2%nat, str "b"); (1%nat, str "a")] /\ StronglySorted page_lt L /\
            raw_full_text [(1%nat, str "a"); (2%nat, str "b")] = py_join [10; 10] (map snd L).
Proof.
  apply raw_full_text_page_order.
  - repeat constructor; simpl; intuition congruence.
  - apply perm_swap.
Defined.

(** ** Dispatch and history in the ReAct loop *)

Section ReActProps.

Variable call_llm_step : nat -> list message -> response.
Variables tools_search tools_visit py_str : json -> pystr.

Abbreviation round := (react_round call_llm_step tools_search tools_visit py_str).
Abbreviation loop := (react_loop call_llm_step tools_search tools_visit py_str).

Lemma react_round_extends (step : nat) (messages messages' : list message) (tools : list event) :
  round step messages = RNext tools messages' ->
  (exists t, messages' = messages ++ t) /\ (forall k h, ~ In (ELLM k h) tools).
Proof.
  unfold react_round.
  destruct (_ && _); [discriminate|].
  destruct (negb (truthy (decision_of _))).
  { intros H; injection H as <- <-. split; [eauto|]. intros k h []. }
  destruct (decision_of _); try discriminate.
  repeat match goal with |- context [if ?b then _ else _] => destruct b end;
    intros H; try discriminate; injection H as <- <-;
    (split; [eauto | intros k h Hin; simpl in Hin; intuition discriminate]).
Qed.

Lemma react_loop_extends (fuel step : nat) (messages : list message) :
  let '(_, ms, evs) := loop fuel step messages in
  (exists t, ms = messages ++ t) /\ (forall k h, In (ELLM k h) evs -> exists t, h = messages ++ t).
Proof.
  revert step messages. induction fuel as [|fuel IH]; intros step messages; simpl.
  { split; [exists []; now rewrite app_nil_r | intros k h []]. }
  destruct (step <? max_steps)%nat.
  2:{ split; [exists []; now rewrite app_nil_r | intros k h []]. }
  assert (Hself : forall k h, In (ELLM k h) [ELLM (S step) messages] -> exists t, h = messages ++ t).
  { intros k h [Heq|[]]. injection Heq as _ <-. exists []. now rewrite app_nil_r. }
  destruct (round (S step) messages) as [| | |tools messages'] eqn:Er;
    try (split; [exists []; now rewrite app_nil_r | exact Hself]).
  destruct (react_round_extends _ _ _ _ Er) as [[t ->] Hno].
  specialize (IH (S step) (messages ++ t)).
  destruct (loop fuel (S step) (messages ++ t)) as [[x ms] evs].
  destruct IH as [[t' ->] Hevs]. split; [exists (t ++ t'); now rewrite app_assoc|].
  intros k h Hin. destruct Hin as [Heq|Hin].
  - injection Heq as _ <-. exists []. now rewrite app_nil_r.
  - apply in_app_or in Hin. destruct Hin as [Hin|Hin]; [now apply Hno in Hin|].
    destruct (Hevs k h Hin) as [t'' ->]. exists (t ++ t''). now rewrite app_assoc.
Qed.

Lemma llm_histories_app (a b : list event) :
  llm_histories (a ++ b) = llm_histories a ++ llm_histories b.
Proof. induction a as [|[k h|q|u] a IH]; cbn [app llm_histories]; rewrite ?IH; reflexivity. Qed.

Lemma llm_histories_tools (tools : list event) :
  (forall k h, ~ In (ELLM k h) tools) -> llm_histories tools = [].
Proof.
  induction tools as [|[k h|q|u] tools IH]; intros H; [reflexivity| |apply IH..].
  - exfalso. apply (H k h). left. reflexivity.
  - intros k h Hin. apply (H k h). right. exact Hin.
  - intros k h Hin. apply (H k h). right. exact Hin.
Qed.

Lemma history_chain_weaken (h h' : list message) (hs : list (list message)) :
  history_chain h' hs -> (exists t, h' = h ++ t) -> history_chain h hs.
Proof.
  destruct hs as [|h1 hs]; [trivial|]. intros [[t1 ->] Hc] [t ->]. split; [|exact Hc].
  exists (t ++ t1). now rewrite app_assoc.
Qed.

Lemma history_chain_prefix (hs : list (list message)) : forall h,
  history_chain h hs -> forall x, In x hs -> exists t, x = h ++ t.
Proof.
  induction hs as [|h1 hs IH]; intros h Hc x Hin; [destruct Hin|].
  destruct Hc as [[t ->] Hc]. destruct Hin as [<-|Hin]; [now exists t|].
  destruct (IH _ Hc x Hin) as [t' ->]. exists (t ++ t'). now rewrite app_assoc.
Qed.

Lemma react_loop_chain (fuel step : nat) (messages : list message) :
  let '(_, ms, evs) := loop fuel step messages in
  history_chain messages (llm_histories evs ++ [ms]).
Proof.
  assert (Hself : history_chain messages [messages]).
  { split; [exists []; now rewrite app_nil_r|exact I]. }
  revert step messages Hself. induction fuel as [|fuel IH]; intros step messages Hself; simpl; [exact Hself|].
  destruct (step <? max_steps)%nat; [|exact Hself].
  destruct (round (S step) messages) as [| | |tools messages'] eqn:Er;
    try (cbn [llm_histories app]; split; [exists []; now rewrite app_nil_r|exact Hself]).
  destruct (react_round_extends _ _ _ _ Er) as [[t ->] Hno].
  assert (Hs' : history_chain (messages ++ t) [messages ++ t])
    by (split; [exists []; now rewrite app_nil_r|exact I]).
  specialize (IH (S step) (messages ++ t) Hs').
  destruct (loop fuel (S step) (messages ++ t)) as [[x ms] evs].
  cbn [llm_histories app]. rewrite llm_histories_app, (llm_histories_tools _ Hno). cbn [app].
  split; [exists []; now rewrite app_nil_r|].
  exact (history_chain_weaken _ _ _ IH (ex_intro _ t eq_refl)).
Qed.

End ReActProps.





(** ** The scanner: what it consumes *)

Lemma sfx_refl (s : pystr) : sfx s s.
Proof. exists []. reflexivity. Qed.

Lemma sfx_trans (a b c : pystr) : sfx a b -> sfx b c -> sfx a c.
Proof. intros [t1 ->] [t2 ->]. exists (t2 ++ t1). now rewrite app_assoc. Qed.

Lemma sfx_cons (r s : pystr) (c : N) : sfx r s -> sfx r (c :: s).
Proof. intros [t ->]. now exists (c :: t). Qed.

Lemma sfx_len (r s : pystr) : sfx r s -> (length r <= length s)%nat.
Proof. intros [t ->]. rewrite length_app. lia. Qed.

Lemma sfx_tl (r x : pystr) : x <> [] -> sfx r (tl x) -> sfx r x.
Proof. destruct x; [contradiction|]. intros _. simpl. apply sfx_cons. Qed.

Lemma skip_ws_sfx (s : pystr) : sfx (skip_ws s) s.
Proof.
  induction s as [|c s IH]; simpl; [apply sfx_refl|].
  destruct (is_json_ws c); [now apply sfx_cons|apply sfx_refl].
Qed.

Lemma skipn_sfx (k : nat) (s : pystr) : sfx (skipn k s) s.
Proof. exists (firstn k s). symmetry. apply firstn_skipn. Qed.

Lemma span_digits_sfx (s : pystr) : sfx (snd (span_digits s)) s.
Proof.
  induction s as [|c s IH]; simpl; [apply sfx_refl|].
  destruct (is_digit c); [|apply sfx_refl].
  destruct (span_digits s) as [ds r]. now apply sfx_cons.
Qed.

Lemma scanstring_sfx (s : pystr) : forall acc v r, scanstring s acc = Ok v r -> sfx r s.
Proof.
  induction s as [s IH] using (induction_ltof1 _ (@length N)); unfold ltof in IH.
  intros acc v r H. destruct s as [|c s']; [discriminate|]. simpl in H.
  apply sfx_cons.
  destruct (c =? 34). { injection H as _ <-. apply sfx_refl. }
  destruct (c =? 92).
  - destruct s' as [|e s'']; [discriminate|]. apply sfx_cons.
    destruct (e =? 117).
    + destruct s'' as [|h1 [|h2 [|h3 [|h4 s3]]]]; try discriminate.
      do 4 apply sfx_cons.
      destruct (hex4 h1 h2 h3 h4); [|discriminate].
      destruct (is_high_surrogate n).
      * destruct s3 as [|b [|v' [|k1 [|k2 [|k3 [|k4 s4]]]]]];
          try (eapply IH; [simpl; lia|exact H]).
        destruct ((b =? 92) && (v' =? 117)); [|eapply IH; [simpl; lia|exact H]].
        destruct (hex4 k1 k2 k3 k4); [|discriminate].
        destruct (is_low_surrogate n0).
        -- do 6 apply sfx_cons. eapply IH; [simpl; lia|exact H].
        -- eapply IH; [simpl; lia|exact H].
      * eapply IH; [simpl; lia|exact H].
    + destruct (simple_escape e); [|discriminate]. eapply IH; [simpl; lia|exact H].
  - destruct (c <? 32); [discriminate|]. eapply IH; [simpl; lia|exact H].
Qed.

Lemma span_digits_eq (s ds r : pystr) : span_digits s = (ds, r) -> s = ds ++ r.
Proof.
  revert ds r. induction s as [|c s IH]; simpl; intros ds r H.
  - now injection H as <- <-.
  - destruct (is_digit c).
    + destruct (span_digits s) as [ds' r'] eqn:E. injection H as <- <-.
      simpl. f_equal. now apply IH.
    + now injection H as <- <-.
Qed.

(** Case analysis on the branches [match_number] took. *)
Ltac mn_cases :=
  repeat match goal with
  | Hx : context [match ?x with _ => _ end] |- _ =>
      lazymatch x with
      | span_digits _ => let E := fresh "E" in destruct x eqn:E; apply span_digits_eq in E
      | _ => destruct x eqn:?
      end
  | Hx : (_, _) = (_, _) |- _ => injection Hx; clear Hx; intros; subst
  | Hx : Some _ = Some _ |- _ => injection Hx; clear Hx; intros; subst
  | Hx : None = Some _ |- _ => discriminate Hx
  | Hx : (_ =? _) = true |- _ => apply N.eqb_eq in Hx; subst
  end.

Lemma match_number_app (s lex r : pystr) (f : bool) (d : nat) :
  match_number s = Some (lex, f, d, r) -> s = lex ++ r.
Proof.
  unfold match_number. intros H. mn_cases;
  simpl; repeat (rewrite <- ?app_assoc; simpl); try reflexivity.
  all: first [assumption | congruence].
Qed.

Lemma match_number_nonempty (s lex r : pystr) (f : bool) (d : nat) :
  match_number s = Some (lex, f, d, r) -> lex <> [].
Proof.
  unfold match_number. intros H. mn_cases; simpl; try discriminate.
  all: intros Hx; destruct l; discriminate.
Qed.

Lemma pnumber_sfx (c : N) (s' r : pystr) (v : json) :
  pnumber (c :: s') = Ok v r -> sfx r s'.
Proof.
  unfold pnumber. destruct (match_number (c :: s')) as [[[[lex f] d] r']|] eqn:E; [|discriminate].
  destruct (negb f && _); [discriminate|]. intros H. injection H as _ <-.
  pose proof (match_number_nonempty _ _ _ _ _ E) as Hne.
  apply match_number_app in E. destruct lex as [|c' lex]; [contradiction|].
  injection E as _ ->. now exists lex.
Qed.

(** Case analysis on the branches a scanning function took in [H]. *)
Ltac scan_cases H :=
  repeat match type of H with
  | context [match ?x with _ => _ end] => destruct x eqn:?
  end.

Ltac sfx_facts IHv :=
  repeat match goal with
  | E : skip_ws ?x = ?y |- _ =>
      let F := fresh "F" in pose proof (skip_ws_sfx x) as F; rewrite E in F; clear E
  | E : scanstring ?x ?acc = Ok ?v ?y |- _ => apply scanstring_sfx in E
  | E : pvalue _ _ = Ok _ _ |- _ =>
      let Hn := fresh "Hn" in let E' := fresh "E" in
      apply IHv in E; destruct E as [E Hn];
      pose proof (sfx_tl _ _ Hn E) as E'; simpl tl in E
  end.

Create HintDb sfx.
#[local] Hint Resolve sfx_refl sfx_cons skipn_sfx skip_ws_sfx : sfx.

Lemma scan_sfx (n : nat) :
  (forall s v r, pvalue n s = Ok v r -> sfx r (tl s) /\ s <> []) /\
  (forall s acc v r, pelems n s acc = Ok v r -> sfx r (tl s) /\ s <> []) /\
  (forall s acc v r, pmembers n s acc = Ok v r -> sfx r (tl s) /\ s <> []).
Proof.
  induction n as [|n IH]; [repeat split; intros; discriminate|].
  destruct IH as (IHv & IHe & IHm).
  split; [|split].
  - intros s v r H. destruct s as [|c s']; [discriminate|]. split; [|discriminate]. simpl tl.
    simpl in H. scan_cases H; try discriminate;
      try (injection H as _ <-); sfx_facts IHv;
      try (apply IHm in H; destruct H as [H Hne]; simpl tl in H);
      try (apply IHe in H; destruct H as [H Hne]; simpl tl in H);
      try (apply pnumber_sfx in H);
      try solve [eauto 8 using sfx_trans with sfx | repeat apply sfx_cons; apply sfx_refl
                | exfalso; auto].
  - intros s acc v r H. simpl in H. scan_cases H; try discriminate;
      try (injection H as _ <-); sfx_facts IHv;
      try (apply IHe in H; destruct H as [H Hne']; apply sfx_tl in H; [|exact Hne']).
    all: destruct s as [|c s']; [exfalso; auto|]; split; [|discriminate]; simpl tl in *;
      eauto 8 using sfx_trans with sfx.
  - intros s acc v r H. simpl in H. destruct s as [|c s']; [discriminate|].
    split; [|discriminate]. simpl tl.
    scan_cases H; try discriminate;
      try (injection H as _ <-); sfx_facts IHv;
      try (apply IHm in H; destruct H as [H Hne']; apply sfx_tl in H; [|exact Hne']);
      eauto 14 using sfx_trans with sfx.
Qed.

(** ** Fuel: more fuel never changes a result that did not run out *)

Lemma fuel_mono (n : nat) : forall m, (n <= m)%nat ->
  (forall s, pvalue n s <> Err NoFuel -> pvalue m s = pvalue n s) /\
  (forall s acc, pelems n s acc <> Err NoFuel -> pelems m s acc = pelems n s acc) /\
  (forall s acc, pmembers n s acc <> Err NoFuel -> pmembers m s acc = pmembers n s acc).
Proof.
  induction n as [|n IH]; intros m Hle.
  { repeat split; intros; simpl in *; congruence. }
  destruct m as [|m]; [lia|]. apply le_S_n in Hle.
  destruct (IH m Hle) as (IHv & IHe & IHm). clear IH.
  split; [|split].
  - intros s H. destruct s as [|c s']; [reflexivity|]. simpl in H |- *.
    destruct (c =? 34); [reflexivity|].
    destruct (c =? 123).
    { destruct (skip_ws s') as [|d s2]; [now apply IHm|].
      destruct (d =? 125); [reflexivity|]. now apply IHm. }
    destruct (c =? 91).
    { destruct (skip_ws s') as [|d s2]; [now apply IHe|].
      destruct (d =? 93); [reflexivity|]. now apply IHe. }
    reflexivity.
  - intros s acc H. simpl in H |- *.
    destruct (pvalue n s) as [v r|e] eqn:E.
    + rewrite (IHv s) by congruence. rewrite E.
      destruct (skip_ws r) as [|d r2]; [reflexivity|].
      destruct (d =? 93); [reflexivity|]. destruct (d =? 44); [|reflexivity].
      now apply IHe.
    + rewrite (IHv s) by congruence. now rewrite E.
  - intros s acc H. simpl in H |- *.
    destruct s as [|d s1]; [reflexivity|]. destruct (d =? 34); [|reflexivity].
    destruct (scanstring s1 []) as [key r|e]; [|reflexivity].
    destruct (skip_ws r) as [|d2 r2]; [reflexivity|]. destruct (d2 =? 58); [|reflexivity].
    destruct (pvalue n (skip_ws r2)) as [v r3|e] eqn:E.
    + rewrite (IHv (skip_ws r2)) by congruence. rewrite E.
      destruct (skip_ws r3) as [|d3 r5]; [reflexivity|].
      destruct (d3 =? 125); [reflexivity|]. destruct (d3 =? 44); [|reflexivity].
      now apply IHm.
    + rewrite (IHv (skip_ws r2)) by congruence. now rewrite E.
Qed.

Lemma scanstring_no_fuel (s : pystr) : forall acc, scanstring s acc <> Err NoFuel.
Proof.
  induction s as [s IH] using (induction_ltof1 _ (@length N)); unfold ltof in IH.
  intros acc. destruct s as [|c s']; [discriminate|]. simpl.
  repeat match goal with |- context [match ?x with _ => _ end] => destruct x end;
    try discriminate; apply IH; simpl; lia.
Qed.

(** ** Fuel: [2 * length + 1] is enough *)

Lemma fuel_enough (n : nat) :
  (forall s, (2 * length s + 1 <= n)%nat -> pvalue n s <> Err NoFuel) /\
  (forall s acc, (2 * length s + 2 <= n)%nat -> pelems n s acc <> Err NoFuel) /\
  (forall s acc, (2 * length s + 2 <= n)%nat -> pmembers n s acc <> Err NoFuel).
Proof.
  induction n as [|n IH]; [repeat split; intros; lia|].
  destruct IH as (IHv & IHe & IHm).
  split; [|split].
  - intros s Hn. destruct s as [|c s']; [discriminate|]. simpl length in Hn. simpl.
    pose proof (sfx_len _ _ (skip_ws_sfx s')) as Hw.
    destruct (c =? 34).
    { destruct (scanstring s' []) eqn:Es; [discriminate|].
      intros Heq. injection Heq as ->. exact (scanstring_no_fuel _ _ Es). }
    destruct (c =? 123).
    { destruct (skip_ws s') as [|d s2] eqn:E.
      - apply IHm. simpl. lia.
      - destruct (d =? 125); [discriminate|]. apply IHm. simpl in *. lia. }
    destruct (c =? 91).
    { destruct (skip_ws s') as [|d s2] eqn:E.
      - apply IHe. simpl. lia.
      - destruct (d =? 93); [discriminate|]. apply IHe. simpl in *. lia. }
    repeat match goal with |- context [if ?b then _ else _] => destruct b; [discriminate|] end.
    unfold pnumber. destruct (match_number _) as [[[[? ?] ?] ?]|]; [|discriminate].
    destruct (_ && _); discriminate.
  - intros s acc Hn. simpl.
    destruct (pvalue n s) as [v r|e] eqn:E.
    + destruct (proj1 (scan_sfx n) _ _ _ E) as [Hs Hne].
      destruct s as [|c s']; [contradiction|]. simpl in Hs. apply sfx_len in Hs. simpl in Hn.
      pose proof (sfx_len _ _ (skip_ws_sfx r)) as Hw.
      destruct (skip_ws r) as [|d r2]; [discriminate|].
      destruct (d =? 93); [discriminate|]. destruct (d =? 44); [|discriminate].
      apply IHe. pose proof (sfx_len _ _ (skip_ws_sfx r2)). simpl in Hw. lia.
    + intros Heq. injection Heq as ->. revert E. apply IHv. lia.
  - intros s acc Hn. simpl. destruct s as [|d s1]; [discriminate|].
    destruct (d =? 34); [|discriminate]. simpl in Hn.
    destruct (scanstring s1 []) as [key r|e] eqn:Es;
      [|intros Heq; injection Heq as ->; exact (scanstring_no_fuel _ _ Es)].
    apply scanstring_sfx, sfx_len in Es.
    pose proof (sfx_len _ _ (skip_ws_sfx r)) as Hw.
    destruct (skip_ws r) as [|d2 r2]; [discriminate|]. destruct (d2 =? 58); [|discriminate].
    simpl in Hw. pose proof (sfx_len _ _ (skip_ws_sfx r2)) as Hw2.
    destruct (pvalue n (skip_ws r2)) as [v r3|e] eqn:E.
    + destruct (proj1 (scan_sfx n) _ _ _ E) as [Hs Hne].
      destruct (skip_ws r2) as [|c x]; [contradiction|]. simpl in Hs, Hw2. apply sfx_len in Hs.
      pose proof (sfx_len _ _ (skip_ws_sfx r3)) as Hw3.
      destruct (skip_ws r3) as [|d3 r5]; [discriminate|].
      destruct (d3 =? 125); [discriminate|]. destruct (d3 =? 44); [|discriminate].
      apply IHm. pose proof (sfx_len _ _ (skip_ws_sfx r5)). simpl in Hw3. lia.
    + intros Heq. injection Heq as ->. revert E. apply IHv. lia.
Qed.

(** ** The scanner does not look past the value it parses *)

Lemma span_digits_spec (s ds r : pystr) :
  span_digits s = (ds, r) -> forallb is_digit ds = true /\ nodigit_head r.
Proof.
  revert ds r. induction s as [|c s IH]; simpl; intros ds r H.
  - injection H as <- <-. split; [reflexivity|exact I].
  - destruct (is_digit c) eqn:Ec.
    + destruct (span_digits s) as [ds' r'] eqn:E. injection H as <- <-.
      destruct (IH _ _ eq_refl) as [H1 H2]. simpl. now rewrite Ec, H1.
    + injection H as <- <-. split; [reflexivity|exact Ec].
Qed.

Lemma span_digits_app (ds r : pystr) :
  forallb is_digit ds = true -> nodigit_head r -> span_digits (ds ++ r) = (ds, r).
Proof.
  induction ds as [|c ds IH]; simpl; intros H Hr.
  - destruct r as [|c r]; [reflexivity|]. simpl in Hr. simpl. now rewrite Hr.
  - apply andb_prop in H as [H1 H2]. rewrite H1, (IH H2 Hr). reflexivity.
Qed.

Ltac mn_cases' :=
  repeat match goal with
  | Hx : context [match ?x with _ => _ end] |- _ =>
      lazymatch x with
      | span_digits _ => let E := fresh "E" in let F := fresh "F" in
          destruct x eqn:E; pose proof (span_digits_spec _ _ _ E) as F;
          apply span_digits_eq in E
      | _ => destruct x eqn:?
      end
  | Hx : (_, _) = (_, _) |- _ => injection Hx; clear Hx; intros; subst
  | Hx : Some _ = Some _ |- _ => injection Hx; clear Hx; intros; subst
  | Hx : None = Some _ |- _ => discriminate Hx
  | Hx : (_ =? _) = true |- _ => apply N.eqb_eq in Hx; subst
  | Hx : _ && _ = true |- _ => apply andb_prop in Hx; destruct Hx
  | Hx : _ || _ = true |- _ => apply orb_prop in Hx; destruct Hx
  | Hx : [] = _ :: _ |- _ => discriminate Hx
  | Hx : _ :: _ = [] |- _ => discriminate Hx
  | Hx : _ :: _ = (_ :: _) ++ _ |- _ => rewrite <- app_comm_cons in Hx
  | Hx : _ :: _ = _ :: _ |- _ => injection Hx; clear Hx; intros; subst
  | Hx : forallb _ (_ :: _) = true |- _ => simpl in Hx; apply andb_prop in Hx; destruct Hx
  | Hx : _ /\ _ |- _ => destruct Hx
  | Hx : is_empty ?l = false |- _ => is_var l; destruct l; [discriminate Hx|]
  end.

Lemma numstop_cons (c : N) (x : pystr) : numstop (c :: x) = true ->
  is_digit c = false /\ (c =? 46) = false /\ (c =? 101) = false /\ (c =? 69) = false.
Proof.
  simpl. intros H. apply negb_true_iff in H.
  repeat rewrite orb_false_iff in H. tauto.
Qed.

Ltac mn_finish :=
  repeat first
    [ progress (simpl; repeat rewrite <- app_assoc)
    | match goal with
      | H : ?b = true |- context [?b] => rewrite H
      | H : ?b = false |- context [?b] => rewrite H
      end
    | rewrite span_digits_app by (first [assumption | simpl; auto])
    ].


Lemma match_number_transplant (s lex r r' : pystr) (f : bool) (k : nat) :
  match_number s = Some (lex, f, k, r) -> numstop r' = true ->
  match_number (lex ++ r') = Some (lex, f, k, r').
Proof.
  unfold match_number at 1. intros H Hr. mn_cases'.
  all: try solve [exfalso; simpl in *; congruence].
  all: destruct r' as [|p [|d r'']];
    [| apply numstop_cons in Hr as (Hr1 & Hr2 & Hr3 & Hr4)
     | apply numstop_cons in Hr as (Hr1 & Hr2 & Hr3 & Hr4)];
    unfold match_number; mn_finish; try reflexivity; try congruence.
Qed.

Lemma scanstring_strict (s : pystr) : forall acc v r,
  scanstring s acc = Ok v r -> (length r < length s)%nat.
Proof.
  intros acc v r H. destruct s as [|c s']; [discriminate|].
  assert (sfx r s') as Hs.
  { simpl in H.
    destruct (c =? 34). { injection H as _ <-. apply sfx_refl. }
    destruct (c =? 92).
    - destruct s' as [|e s'']; [discriminate|]. apply sfx_cons.
      destruct (e =? 117).
      + destruct s'' as [|h1 [|h2 [|h3 [|h4 s3]]]]; try discriminate.
        do 4 apply sfx_cons.
        destruct (hex4 h1 h2 h3 h4); [|discriminate].
        destruct (is_high_surrogate n).
        * destruct s3 as [|b [|v' [|k1 [|k2 [|k3 [|k4 s4]]]]]];
            try (eapply scanstring_sfx; exact H).
          destruct ((b =? 92) && (v' =? 117)); [|eapply scanstring_sfx; exact H].
          destruct (hex4 k1 k2 k3 k4); [|discriminate].
          destruct (is_low_surrogate n0).
          -- do 6 apply sfx_cons. eapply scanstring_sfx; exact H.
          -- eapply scanstring_sfx; exact H.
        * eapply scanstring_sfx; exact H.
      + destruct (simple_escape e); [|discriminate]. eapply scanstring_sfx; exact H.
    - destruct (c <? 32); [discriminate|]. eapply scanstring_sfx; exact H. }
  apply sfx_len in Hs. simpl. lia.
Qed.

Ltac strip_suffix X r :=
  lazymatch X with
  | r => constr:(@nil N)
  | ?a :: ?Y => let y := strip_suffix Y r in constr:(a :: y)
  | ?l ++ r => l
  end.

Ltac scan_contra H :=
  first
    [ discriminate H
    | (pose proof (scanstring_strict _ _ _ _ H); simpl in *; rewrite ?length_app in *; lia)
    | (injection H; intros;
       match goal with Hb : _ = _ |- _ =>
         apply (f_equal (@length N)) in Hb; simpl in Hb; rewrite ?length_app in Hb; lia end) ].

Lemma scanstring_transplant (t : pystr) : forall acc r r' v,
  scanstring (t ++ r) acc = Ok v r -> scanstring (t ++ r') acc = Ok v r'.
Proof.
  induction t as [t IH] using (induction_ltof1 _ (@length N)); unfold ltof in IH.
  intros acc r r' v H.
  destruct t as [|c t'].
  { apply scanstring_strict in H. simpl in H. lia. }
  simpl in H |- *.
  repeat match goal with
  | H : context [match ?l ++ ?r with _ => _ end] |- _ =>
      is_var l; destruct l; cbn -[scanstring] in H |- *
  end.
  all: scan_cases H.
  all: try first
    [ discriminate H
    | (pose proof (scanstring_strict _ _ _ _ H); simpl in *; rewrite ?length_app in *; lia)
    | (match goal with |- scanstring ?X _ = _ =>
         let y := strip_suffix X r' in
         eapply (IH y); [simpl; rewrite ?length_app; simpl; lia | exact H] end)
    | (injection H; intros; subst;
       first [ reflexivity
             | match goal with Hb : ?l ++ ?r0 = ?r0 |- _ => destruct l; [reflexivity|] end;
               match goal with Hb : _ = _ |- _ =>
                 apply (f_equal (@length N)) in Hb; simpl in Hb; rewrite ?length_app in Hb; lia end
             | match goal with Hb : _ = _ |- _ =>
                 apply (f_equal (@length N)) in Hb; simpl in Hb; rewrite ?length_app in Hb; lia end ]) ].
  all: try match goal with |- context [ (?b =? 92) && _ ] =>
         destruct (b =? 92) eqn:Eb; [apply N.eqb_eq in Eb; subst b|] end.
  all: try match goal with |- context [ true && (?b =? 117) ] =>
         destruct (b =? 117) eqn:Ev; [apply N.eqb_eq in Ev; subst b|] end.
  all: try match goal with Hb : (_ =? 92) && (_ =? 117) = true |- _ =>
         apply andb_prop in Hb as [Hb1 Hb2]; apply N.eqb_eq in Hb1, Hb2; subst end.
  all: try solve [match goal with H : scanstring (92 :: _) _ = _ |- _ =>
                   simpl in H; scan_cases H; scan_contra H end].
  all: match goal with
       | H : scanstring ?X ?a = Ok ?v ?r |- _ = Ok ?v ?r0 =>
           let y := strip_suffix X r in
           assert (G : scanstring (y ++ r0) a = Ok v r0) by
             (eapply (IH y); [simpl; lia | exact H]);
           cbn [app] in G
       end.
  all: try solve [destruct r' as [|? [|? [|? [|? [|? ?]]]]]; cbn -[scanstring];
         repeat match goal with Hb : ?b = false |- context [?b] =>
           rewrite Hb; cbn -[scanstring] end; exact G].
Qed.

Lemma skip_ws_transplant (t : pystr) : forall r r' t2,
  skip_ws (t ++ r) = t2 ++ r -> t2 <> [] -> skip_ws (t ++ r') = t2 ++ r'.
Proof.
  induction t as [|c t IH]; intros r r' t2 H Hne; simpl in H |- *.
  - pose proof (sfx_len _ _ (skip_ws_sfx r)) as L. rewrite H, length_app in L.
    destruct t2; [contradiction|]. simpl in L. lia.
  - destruct (is_json_ws c); [now apply (IH r)|].
    change (c :: t ++ r) with ((c :: t) ++ r) in H. apply app_inv_tail in H. now subst.
Qed.

Lemma skip_ws_step (x r r' y : pystr) :
  skip_ws (x ++ r) = y -> sfx r (tl y) -> y <> [] ->
  exists x2, y = x2 ++ r /\ x2 <> [] /\ skip_ws (x ++ r') = x2 ++ r'.
Proof.
  intros H Hs Hne. pose proof (sfx_tl _ _ Hne Hs) as [x2 Hy]. exists x2.
  assert (x2 <> []) as Hx2.
  { intros ->. simpl in Hy. rewrite Hy in Hs, Hne. destruct r as [|c r]; [contradiction|].
    simpl in Hs. apply sfx_len in Hs. simpl in Hs. lia. }
  split; [exact Hy|]. split; [exact Hx2|]. rewrite Hy in H.
  now apply skip_ws_transplant with r.
Qed.

Lemma sfx_app_split (x r y : pystr) :
  sfx y (x ++ r) -> sfx r y -> exists x1 x2, x = x1 ++ x2 /\ y = x2 ++ r.
Proof.
  intros [x1 H1] [x2 ->]. exists x1, x2. split; [|reflexivity].
  rewrite app_assoc in H1. now apply app_inv_tail in H1.
Qed.

Lemma starts_with_app (w t r : pystr) :
  (length w <= length t)%nat -> starts_with w (t ++ r) = starts_with w t.
Proof.
  revert t. induction w as [|a w IH]; intros t H; [reflexivity|].
  destruct t as [|b t]; simpl in H; [lia|]. simpl. rewrite IH; [reflexivity|lia].
Qed.

Lemma starts_with_len (w s : pystr) : starts_with w s = true -> (length w <= length s)%nat.
Proof.
  revert s. induction w as [|a w IH]; intros s H; simpl; [lia|].
  destruct s as [|b s]; [discriminate|]. simpl in H. apply andb_prop in H as [_ H].
  apply IH in H. simpl. lia.
Qed.

Lemma skip_ws_head (c : N) (s : pystr) (d : N) (y : pystr) :
  skip_ws (c :: s) = d :: y -> is_json_ws c = true \/ c = d.
Proof.
  simpl. destruct (is_json_ws c); [now left|]. intros H. injection H as ->. now right.
Qed.

Lemma numstop_head (c : N) (s : pystr) :
  is_json_ws c = true \/ c = 93 \/ c = 44 \/ c = 125 -> numstop (c :: s) = true.
Proof.
  intros [H | [-> | [-> | ->]]]; try reflexivity.
  unfold is_json_ws in H.
  repeat (apply orb_prop in H; destruct H as [H|H]); apply N.eqb_eq in H; subst; reflexivity.
Qed.

Lemma pnumber_transplant (t r r' : pystr) (v : json) :
  pnumber (t ++ r) = Ok v r -> numstop r' = true -> pnumber (t ++ r') = Ok v r'.
Proof.
  unfold pnumber. intros H Hr.
  destruct (match_number (t ++ r)) as [[[[lex f] k] r1]|] eqn:E; [|discriminate].
  destruct (negb f && _) eqn:Ef; [discriminate|]. injection H as <- ->.
  pose proof (match_number_app _ _ _ _ _ E) as Ht. apply app_inv_tail in Ht. subst lex.
  rewrite (match_number_transplant _ _ _ _ _ _ E Hr), Ef. reflexivity.
Qed.

Lemma match_number_minus (x lex : pystr) (f : bool) (k : nat) (r : pystr) :
  match_number (45 :: x) = Some (lex, f, k, r) -> exists d x', x = d :: x' /\ is_digit d = true.
Proof.
  unfold match_number. simpl. destruct x as [|d x']; [discriminate|]. intros H.
  exists d, x'. split; [reflexivity|]. unfold is_digit.
  destruct (d =? 48) eqn:E48; [apply N.eqb_eq in E48; subst; reflexivity|].
  destruct ((49 <=? d) && (d <=? 57)) eqn:E; [|discriminate].
  apply andb_prop in E as [E1 E2]. apply N.leb_le in E1, E2.
  apply andb_true_intro; split; apply N.leb_le; lia.
Qed.

Lemma skipn_exact (t r : pystr) (k : nat) : length t = k -> skipn k (t ++ r) = r.
Proof. intros <-. rewrite skipn_app, skipn_all, Nat.sub_diag. reflexivity. Qed.

Lemma literal_transplant (w t r r' : pystr) (v v' : json) :
  starts_with w (t ++ r) = true -> Ok v' (skipn (length w) (t ++ r)) = Ok v r ->
  starts_with w (t ++ r') = true /\ Ok v' (skipn (length w) (t ++ r')) = Ok v r'.
Proof.
  intros Hs H. injection H as <- Hr.
  apply starts_with_len in Hs as L. apply (f_equal (@length N)) in Hr.
  rewrite length_skipn, length_app in Hr. rewrite length_app in L. assert (length t = length w) as Lt by lia.
  rewrite starts_with_app in Hs |- * by lia. split; [exact Hs|].
  rewrite skipn_exact by exact Lt. reflexivity.
Qed.

Ltac lit_case c code IH :=
  let Ec := fresh "Ec" in
  destruct (c =? code) eqn:Ec;
  [ apply N.eqb_eq in Ec; subst c; cbn [andb N.eqb Pos.eqb] in *;
    lazymatch goal with
    | H : (if starts_with ?w (?t ++ ?r) then Ok ?v' (skipn ?k (?t ++ ?r)) else _) = Ok _ _
      |- _ = Ok _ ?r' =>
        let Esw := fresh "Esw" in
        destruct (starts_with w (t ++ r)) eqn:Esw;
        [ destruct (literal_transplant w t r r' _ _ Esw H) as [IH1 IH2];
          rewrite IH1; exact IH2
        | idtac ]
    end
  | cbn [andb] in * ].

Lemma scan_transplant (n : nat) :
  (forall t r r' v, pvalue n (t ++ r) = Ok v r -> numstop r' = true -> pvalue n (t ++ r') = Ok v r') /\
  (forall t r r' acc v, pelems n (t ++ r) acc = Ok v r -> pelems n (t ++ r') acc = Ok v r') /\
  (forall t r r' acc v, pmembers n (t ++ r) acc = Ok v r -> pmembers n (t ++ r') acc = Ok v r').
Proof.
  induction n as [|n IH]; [repeat split; intros; discriminate|].
  destruct IH as (IHv & IHe & IHm).
  pose proof (scan_sfx n) as (Sv & Se & Sm).
  split; [|split].
  - intros t r r' v H Hr.
    destruct t as [|c t'].
    { exfalso. apply (proj1 (scan_sfx (S n))) in H as [Hs Hne].
      destruct r as [|c r]; [contradiction|]. simpl in Hs. apply sfx_len in Hs. simpl in Hs. lia. }
    cbn [app pvalue] in H |- *.
    destruct (c =? 34) eqn:E34.
    { destruct (scanstring (t' ++ r) []) as [w r1|e] eqn:Es; [|discriminate].
      injection H as <- ->. now rewrite (scanstring_transplant _ _ _ _ _ Es). }
    destruct (c =? 123) eqn:E123.
    { destruct (skip_ws (t' ++ r)) as [|d s2] eqn:Ew; [exfalso; destruct n as [|[|]]; discriminate H|].
      destruct (d =? 125) eqn:E125.
      - injection H as <- ->.
        rewrite (skip_ws_transplant t' r r' [d] Ew ltac:(discriminate)). simpl. now rewrite E125.
      - pose proof (Sm _ _ _ _ H) as [Hs _].
        destruct (skip_ws_step t' r r' _ Ew Hs ltac:(discriminate)) as (x2 & Hx & Hne2 & Hw').
        rewrite Hw'. destruct x2 as [|d' x3]; [contradiction|]. injection Hx as <- ->.
        simpl. rewrite E125. exact (IHm (d :: x3) r r' [] v H). }
    destruct (c =? 91) eqn:E91.
    { destruct (skip_ws (t' ++ r)) as [|d s2] eqn:Ew; [exfalso; destruct n as [|[|]]; discriminate H|].
      destruct (d =? 93) eqn:E93.
      - injection H as <- ->.
        rewrite (skip_ws_transplant t' r r' [d] Ew ltac:(discriminate)). simpl. now rewrite E93.
      - pose proof (Se _ _ _ _ H) as [Hs _].
        destruct (skip_ws_step t' r r' _ Ew Hs ltac:(discriminate)) as (x2 & Hx & Hne2 & Hw').
        rewrite Hw'. destruct x2 as [|d' x3]; [contradiction|]. injection Hx as <- ->.
        simpl. rewrite E93. exact (IHe (d :: x3) r r' [] v H). }
    lit_case c 110 IH; [exfalso; unfold pnumber in H; discriminate H|].
    lit_case c 116 IH; [exfalso; unfold pnumber in H; discriminate H|].
    lit_case c 102 IH; [exfalso; unfold pnumber in H; discriminate H|].
    lit_case c 78 IH; [exfalso; unfold pnumber in H; discriminate H|].
    lit_case c 73 IH; [exfalso; unfold pnumber in H; discriminate H|].
    lit_case c 45 IH.
    + pose proof (pnumber_transplant (45 :: t') r r' v H Hr) as G.
      cbn [app] in G. unfold pnumber in G.
      destruct (match_number (45 :: t' ++ r')) as [[[[lex f] k] r1]|] eqn:Em; [|discriminate G].
      destruct (match_number_minus _ _ _ _ _ Em) as (d & x & Hx & Hd). rewrite Hx.
      destruct (starts_with _ (d :: x)) eqn:Esw2.
      * exfalso. destruct (N.eqb_spec 73 d) as [<-|Hne]; [discriminate Hd|].
        change (str _) with [73;110;102;105;110;105;116;121] in Esw2. cbn [starts_with] in Esw2.
        apply andb_prop in Esw2 as [E73 _]. apply N.eqb_eq in E73. contradiction.
      * rewrite <- Hx. unfold pnumber. rewrite Em. exact G.
    + exact (pnumber_transplant (c :: t') r r' v H Hr).
  - intros t r r' acc v H. cbn [pelems] in H |- *.
    destruct (pvalue n (t ++ r)) as [v1 r1|e] eqn:Ev; [|discriminate].
    destruct (skip_ws r1) as [|d r2] eqn:Ew; [discriminate|].
    assert (Hd : d = 93 \/ d = 44).
    { destruct (d =? 93) eqn:E93; [left; now apply N.eqb_eq|].
      destruct (d =? 44) eqn:E44; [right; now apply N.eqb_eq|]. discriminate. }
    assert (sfx r r2) as Hr2.
    { destruct (d =? 93); [injection H as _ <-; apply sfx_refl|].
      destruct (d =? 44); [|discriminate].
      apply Se in H as [Hs Hne]. eapply sfx_trans; [apply sfx_tl; eassumption|apply skip_ws_sfx]. }
    destruct (Sv _ _ _ Ev) as [S1 Hne1]. apply sfx_tl in S1; [|exact Hne1].
    assert (sfx r r1) as S2.
    { eapply sfx_trans; [apply sfx_cons, Hr2|]. rewrite <- Ew. apply skip_ws_sfx. }
    destruct (sfx_app_split _ _ _ S1 S2) as (t1 & t2 & -> & ->).
    destruct Hr2 as [x ->].
    assert (t2 <> []) as Ht2.
    { intros ->. simpl in Ew. pose proof (sfx_len _ _ (skip_ws_sfx r)) as L.
      rewrite Ew in L. simpl in L. rewrite length_app in L. lia. }
    pose proof (skip_ws_transplant t2 r r' (d :: x) Ew ltac:(discriminate)) as Ew'.
    assert (numstop (t2 ++ r') = true) as Hns.
    { destruct t2 as [|c2 t2]; [contradiction|]. cbn [app]. apply numstop_head.
      destruct (skip_ws_head c2 (t2 ++ r) d (x ++ r) Ew) as [Hw | ->]; [now left | right; tauto]. }
    rewrite <- app_assoc in Ev |- *. rewrite (IHv _ _ _ _ Ev Hns), Ew'. cbn [app].
    destruct (d =? 93) eqn:E93.
    + injection H as <- Hx. destruct x; [reflexivity|].
      apply (f_equal (@length N)) in Hx. simpl in Hx. rewrite length_app in Hx. lia.
    + destruct (d =? 44) eqn:E44; [|discriminate].
      pose proof (Se _ _ _ _ H) as [Hs Hne].
      destruct (skip_ws_step x r r' _ eq_refl Hs Hne) as (x2 & Hx & _ & Hw').
      rewrite Hw'. rewrite Hx in H. exact (IHe x2 r r' _ _ H).
  - intros t r r' acc v H.
    destruct t as [|d t'].
    { exfalso. apply (proj2 (proj2 (scan_sfx (S n)))) in H as [Hs Hne].
      destruct r as [|c r]; [contradiction|]. simpl in Hs. apply sfx_len in Hs. simpl in Hs. lia. }
    cbn [app pmembers] in H |- *.
    destruct (d =? 34); [|discriminate].
    destruct (scanstring (t' ++ r) []) as [key r1|e] eqn:Es; [|discriminate].
    destruct (skip_ws r1) as [|d2 r2] eqn:Ew; [discriminate|].
    destruct (d2 =? 58) eqn:E58; [|discriminate].
    destruct (pvalue n (skip_ws r2)) as [v1 r3|e] eqn:Ev; [|discriminate].
    destruct (skip_ws r3) as [|d3 r5] eqn:Ew3; [discriminate|].
    assert (Hd : d3 = 125 \/ d3 = 44).
    { destruct (d3 =? 125) eqn:E125; [left; now apply N.eqb_eq|].
      destruct (d3 =? 44) eqn:E44; [right; now apply N.eqb_eq|]. discriminate. }
    assert (sfx r r5) as Hr5.
    { destruct (d3 =? 125); [injection H as _ <-; apply sfx_refl|].
      destruct (d3 =? 44); [|discriminate].
      apply Sm in H as [Hs Hne]. eapply sfx_trans; [apply sfx_tl; eassumption|apply skip_ws_sfx]. }
    destruct (Sv _ _ _ Ev) as [S3 Hne3].
    assert (sfx r r3) as R3.
    { eapply sfx_trans; [apply sfx_cons, Hr5|]. rewrite <- Ew3. apply skip_ws_sfx. }
    assert (sfx r (tl (skip_ws r2))) as R2 by (eapply sfx_trans; eassumption).
    assert (sfx r r2) as R2'.
    { eapply sfx_trans; [apply sfx_tl; eassumption|apply skip_ws_sfx]. }
    assert (sfx r r1) as R1.
    { eapply sfx_trans; [apply sfx_cons, R2'|]. rewrite <- Ew. apply skip_ws_sfx. }
    pose proof (scanstring_sfx _ _ _ _ Es) as S1.
    destruct (sfx_app_split _ _ _ S1 R1) as (a0 & a1 & -> & ->).
    rewrite <- app_assoc in Es |- *. rewrite (scanstring_transplant _ _ _ _ _ Es).
    destruct R2' as [a2 ->].
    assert (a1 <> []) as Ha1.
    { intros ->. simpl in Ew. pose proof (sfx_len _ _ (skip_ws_sfx r)) as L.
      rewrite Ew in L. simpl in L. rewrite length_app in L. lia. }
    rewrite (skip_ws_transplant a1 r r' (d2 :: a2) Ew ltac:(discriminate)). cbn [app]. rewrite E58.
    destruct (skip_ws_step a2 r r' _ eq_refl R2 Hne3) as (a3 & Ha3 & Hne3' & Hw3).
    rewrite Hw3. rewrite Ha3 in Ev, S3, Hne3.
    assert (sfx (r3) (a3 ++ r)) as S3'.
    { apply sfx_tl; [exact Hne3|exact S3]. }
    destruct (sfx_app_split _ _ _ S3' R3) as (a5 & a4 & -> & ->).
    destruct Hr5 as [a6 ->].
    assert (a4 <> []) as Ha4.
    { intros ->. simpl in Ew3. pose proof (sfx_len _ _ (skip_ws_sfx r)) as L.
      rewrite Ew3 in L. simpl in L. rewrite length_app in L. lia. }
    assert (numstop (a4 ++ r') = true) as Hns.
    { destruct a4 as [|c4 a4]; [contradiction|]. cbn [app]. apply numstop_head.
      destruct (skip_ws_head c4 (a4 ++ r) d3 (a6 ++ r) Ew3) as [Hw | ->]; [now left | right; tauto]. }
    rewrite <- app_assoc in Ev |- *. rewrite (IHv _ _ _ _ Ev Hns).
    rewrite (skip_ws_transplant a4 r r' (d3 :: a6) Ew3 ltac:(discriminate)). cbn [app].
    destruct (d3 =? 125) eqn:E125.
    + injection H as <- Hx. destruct a6; [reflexivity|].
      apply (f_equal (@length N)) in Hx. simpl in Hx. rewrite length_app in Hx. lia.
    + destruct (d3 =? 44) eqn:E44; [|discriminate].
      pose proof (Sm _ _ _ _ H) as [Hs Hne].
      destruct (skip_ws_step a6 r r' _ eq_refl Hs Hne) as (x2 & Hx & _ & Hw').
      rewrite Hw'. rewrite Hx in H. exact (IHm x2 r r' _ _ H).
Qed.

(** ** The last character a value consumes is not a space *)

Lemma scanstring_end (s : pystr) : forall acc v r, scanstring s acc = Ok v r -> sfx (34 :: r) s.
Proof.
  induction s as [s IH] using (induction_ltof1 _ (@length N)); unfold ltof in IH.
  intros acc v r H. destruct s as [|c s']; [discriminate|]. simpl in H.
  destruct (c =? 34) eqn:E34.
  { apply N.eqb_eq in E34; subst c. injection H as _ <-. apply sfx_refl. }
  apply sfx_cons.
  destruct (c =? 92).
  - destruct s' as [|e s'']; [discriminate|]. apply sfx_cons.
    destruct (e =? 117).
    + destruct s'' as [|h1 [|h2 [|h3 [|h4 s3]]]]; try discriminate.
      do 4 apply sfx_cons.
      destruct (hex4 h1 h2 h3 h4); [|discriminate].
      destruct (is_high_surrogate n).
      * destruct s3 as [|b [|v' [|k1 [|k2 [|k3 [|k4 s4]]]]]];
          try (eapply IH; [simpl; lia|exact H]).
        destruct ((b =? 92) && (v' =? 117)); [|eapply IH; [simpl; lia|exact H]].
        destruct (hex4 k1 k2 k3 k4); [|discriminate].
        destruct (is_low_surrogate n0).
        -- do 6 apply sfx_cons. eapply IH; [simpl; lia|exact H].
        -- eapply IH; [simpl; lia|exact H].
      * eapply IH; [simpl; lia|exact H].
    + destruct (simple_escape e); [|discriminate]. eapply IH; [simpl; lia|exact H].
  - destruct (c <? 32); [discriminate|]. eapply IH; [simpl; lia|exact H].
Qed.

Lemma forallb_digit_numch (l : pystr) : forallb is_digit l = true -> forallb numch l = true.
Proof.
  induction l as [|x l IH]; simpl; [reflexivity|].
  intros H. apply andb_prop in H as [H1 H2]. rewrite (IH H2). unfold numch. rewrite H1. reflexivity.
Qed.

Lemma numch_of_digit (x : N) : is_digit x = true -> numch x = true.
Proof. intros H. unfold numch. rewrite H. reflexivity. Qed.

Lemma match_number_chars (s lex r : pystr) (f : bool) (k : nat) :
  match_number s = Some (lex, f, k, r) -> forallb numch lex = true.
Proof.
  unfold match_number. intros H. mn_cases'.
  all: apply forallb_forall; intros x Hx.
  all: repeat match goal with Hb : (_ <=? _) = true |- _ => apply N.leb_le in Hb end.
  all: repeat (first [rewrite in_app_iff in Hx | simpl In in Hx]).
  all: repeat match goal with Hx : _ \/ _ |- _ => destruct Hx as [Hx|Hx] end.
  all: first
    [ contradiction
    | (subst x; reflexivity)
    | (subst x; apply numch_of_digit; assumption)
    | (subst x; apply numch_of_digit; unfold is_digit; apply andb_true_intro; split;
       apply N.leb_le; lia)
    | (apply numch_of_digit; match goal with
         Hi : In ?y ?l, Hd : forallb is_digit ?l = true |- _ =>
           exact (proj1 (forallb_forall _ _) Hd y Hi) end) ].
Qed.

Ltac decide_cmp :=
  repeat match goal with
  | |- context [?a <=? ?b] =>
      first [ rewrite (proj2 (N.leb_le a b)) by lia | rewrite (proj2 (N.leb_gt a b)) by lia ]
  | |- context [?a =? ?b] =>
      first [ rewrite (proj2 (N.eqb_eq a b)) by lia | rewrite (proj2 (N.eqb_neq a b)) by lia ]
  end.

Lemma digit_nsp (x : N) : is_digit x = true -> py_isspace x = false.
Proof.
  unfold is_digit. intros H. apply andb_prop in H as [H1 H2].
  apply N.leb_le in H1, H2. unfold py_isspace. decide_cmp. reflexivity.
Qed.

Lemma numch_nsp (x : N) : numch x = true -> py_isspace x = false /\ x <> 65279.
Proof.
  unfold numch. intros H.
  repeat (apply orb_prop in H; destruct H as [H|H]);
    try (apply N.eqb_eq in H; subst x; split; [reflexivity|discriminate]).
  split; [now apply digit_nsp|].
  unfold is_digit in H. apply andb_prop in H as [_ H2]. apply N.leb_le in H2. lia.
Qed.

Lemma vhead_nsp (c : N) : vhead c = true -> py_isspace c = false /\ c <> 65279.
Proof.
  unfold vhead. intros H. destruct (numch c) eqn:Hn; [now apply numch_nsp|].
  rewrite orb_false_l in H.
  repeat (apply orb_prop in H; destruct H as [H|H]);
    (apply N.eqb_eq in H; subst c; split; [reflexivity|discriminate]).
Qed.

Lemma pnumber_chars (s : pystr) (v : json) (r : pystr) :
  pnumber s = Ok v r -> exists lex, s = lex ++ r /\ lex <> [] /\ forallb numch lex = true.
Proof.
  unfold pnumber. destruct (match_number s) as [[[[lex f] k] r']|] eqn:E; [|discriminate].
  destruct (negb f && _); [discriminate|]. intros H. injection H as _ <-.
  exists lex. split; [exact (match_number_app _ _ _ _ _ E)|].
  split; [exact (match_number_nonempty _ _ _ _ _ E)|exact (match_number_chars _ _ _ _ _ E)].
Qed.

Lemma pnumber_head (c : N) (s : pystr) (v : json) (r : pystr) :
  pnumber (c :: s) = Ok v r -> numch c = true.
Proof.
  intros H. apply pnumber_chars in H as (lex & E & Hne & Hc).
  destruct lex as [|d lex]; [contradiction|]. injection E as -> _.
  simpl in Hc. apply andb_prop in Hc. tauto.
Qed.

Lemma pnumber_end (s : pystr) (v : json) (r : pystr) :
  pnumber s = Ok v r -> exists x, py_isspace x = false /\ sfx (x :: r) s.
Proof.
  intros H. apply pnumber_chars in H as (lex & E & Hne & Hc).
  destruct (exists_last Hne) as (l0 & x & ->). exists x. split.
  - apply numch_nsp. apply (proj1 (forallb_forall _ _) Hc). apply in_or_app. right. now left.
  - exists l0. rewrite E, <- app_assoc. reflexivity.
Qed.

Lemma literal_end (w : pystr) : forall s, starts_with w s = true -> w <> [] ->
  sfx (last w 0 :: skipn (length w) s) s.
Proof.
  induction w as [|a w IH]; intros s H Hne; [contradiction|].
  destruct s as [|b s]; [discriminate|]. simpl in H. apply andb_prop in H as [Hab H].
  apply N.eqb_eq in Hab. subst b.
  destruct w as [|a' w'].
  - simpl. apply sfx_refl.
  - apply sfx_cons. apply (IH s H). discriminate.
Qed.

Lemma pvalue_head (n : nat) (c : N) (s : pystr) (v : json) (r : pystr) :
  pvalue n (c :: s) = Ok v r -> vhead c = true.
Proof.
  destruct n as [|n]; [discriminate|]. cbn [pvalue]. unfold vhead.
  destruct (c =? 34) eqn:E; [rewrite !orb_true_r; reflexivity|].
  destruct (c =? 123) eqn:E1; [rewrite !orb_true_r; reflexivity|].
  destruct (c =? 91) eqn:E2; [rewrite !orb_true_r; reflexivity|].
  destruct (c =? 110) eqn:E3; [rewrite !orb_true_r; reflexivity|].
  destruct (c =? 116) eqn:E4; [rewrite !orb_true_r; reflexivity|].
  destruct (c =? 102) eqn:E5; [rewrite !orb_true_r; reflexivity|].
  destruct (c =? 78) eqn:E6; [rewrite !orb_true_r; reflexivity|].
  destruct (c =? 73) eqn:E7; [rewrite !orb_true_r; reflexivity|].
  cbn [andb]. intros H. rewrite orb_false_r.
  destruct ((c =? 45) && _) eqn:E8.
  - apply andb_prop in E8 as [E8 _]. apply N.eqb_eq in E8. subst c. reflexivity.
  - rewrite (pnumber_head _ _ _ _ H). reflexivity.
Qed.

Lemma scan_end (n : nat) :
  (forall s v r, pvalue n s = Ok v r -> exists x, py_isspace x = false /\ sfx (x :: r) s) /\
  (forall s acc v r, pelems n s acc = Ok v r -> sfx (93 :: r) s) /\
  (forall s acc v r, pmembers n s acc = Ok v r -> sfx (125 :: r) s).
Proof.
  induction n as [|n IH]; [repeat split; intros; discriminate|].
  destruct IH as (IHv & IHe & IHm).
  pose proof (scan_sfx n) as (Sv & Se & Sm).
  split; [|split].
  - intros s v r H. destruct s as [|c s']; [discriminate|]. cbn [pvalue] in H.
    destruct (c =? 34) eqn:E.
    { apply N.eqb_eq in E; subst c. destruct (scanstring s' []) eqn:Es; [|discriminate].
      injection H as _ <-. exists 34. split; [reflexivity|].
      apply sfx_cons. eapply scanstring_end; eassumption. }
    destruct (c =? 123) eqn:E1.
    { exists 125. split; [reflexivity|]. apply sfx_cons.
      apply (sfx_trans _ (skip_ws s')); [|apply skip_ws_sfx].
      destruct (skip_ws s') as [|d s2].
      - apply IHm in H. apply sfx_len in H. simpl in H. lia.
      - destruct (d =? 125) eqn:E2.
        + apply N.eqb_eq in E2. subst d. injection H as _ <-. apply sfx_refl.
        + eapply IHm; exact H. }
    destruct (c =? 91) eqn:E2.
    { exists 93. split; [reflexivity|]. apply sfx_cons.
      apply (sfx_trans _ (skip_ws s')); [|apply skip_ws_sfx].
      destruct (skip_ws s') as [|d s2].
      - apply IHe in H. apply sfx_len in H. simpl in H. lia.
      - destruct (d =? 93) eqn:E3.
        + apply N.eqb_eq in E3. subst d. injection H as _ <-. apply sfx_refl.
        + eapply IHe; exact H. }
    destruct ((c =? 110) && starts_with (str "ull") s') eqn:L1.
    { apply andb_prop in L1 as [_ L1]. injection H as _ <-. exists 108.
      split; [reflexivity|]. apply sfx_cons. exact (literal_end _ _ L1 ltac:(discriminate)). }
    destruct ((c =? 116) && starts_with (str "rue") s') eqn:L2.
    { apply andb_prop in L2 as [_ L2]. injection H as _ <-. exists 101.
      split; [reflexivity|]. apply sfx_cons. exact (literal_end _ _ L2 ltac:(discriminate)). }
    destruct ((c =? 102) && starts_with (str "alse") s') eqn:L3.
    { apply andb_prop in L3 as [_ L3]. injection H as _ <-. exists 101.
      split; [reflexivity|]. apply sfx_cons. exact (literal_end _ _ L3 ltac:(discriminate)). }
    destruct ((c =? 78) && starts_with (str "aN") s') eqn:L4.
    { apply andb_prop in L4 as [_ L4]. injection H as _ <-. exists 78.
      split; [reflexivity|]. apply sfx_cons. exact (literal_end _ _ L4 ltac:(discriminate)). }
    destruct ((c =? 73) && starts_with (str "nfinity") s') eqn:L5.
    { apply andb_prop in L5 as [_ L5]. injection H as _ <-. exists 121.
      split; [reflexivity|]. apply sfx_cons. exact (literal_end _ _ L5 ltac:(discriminate)). }
    destruct ((c =? 45) && starts_with (str "Infinity") s') eqn:L6.
    { apply andb_prop in L6 as [_ L6]. injection H as _ <-. exists 121.
      split; [reflexivity|]. apply sfx_cons. exact (literal_end _ _ L6 ltac:(discriminate)). }
    exact (pnumber_end _ _ _ H).
  - intros s acc v r H. cbn [pelems] in H.
    destruct (pvalue n s) as [v1 r1|e] eqn:Ev; [|discriminate].
    destruct (Sv _ _ _ Ev) as [S1 Hne]. apply sfx_tl in S1; [|exact Hne].
    apply (fun H' => sfx_trans _ _ _ H' S1).
    destruct (skip_ws r1) as [|d r2] eqn:Ew; [discriminate|].
    apply (fun H' => sfx_trans _ _ _ H' (skip_ws_sfx r1)). rewrite Ew.
    destruct (d =? 93) eqn:E.
    + apply N.eqb_eq in E. subst d. injection H as _ <-. apply sfx_refl.
    + destruct (d =? 44); [|discriminate]. apply sfx_cons.
      apply (fun H' => sfx_trans _ _ _ H' (skip_ws_sfx r2)). eapply IHe; exact H.
  - intros s acc v r H. cbn [pmembers] in H.
    destruct s as [|d s1]; [discriminate|]. apply sfx_cons.
    destruct (d =? 34); [|discriminate].
    destruct (scanstring s1 []) as [key r1|e] eqn:Es; [|discriminate].
    apply (fun H' => sfx_trans _ _ _ H' (scanstring_sfx _ _ _ _ Es)).
    destruct (skip_ws r1) as [|d2 r2] eqn:Ew; [discriminate|].
    apply (fun H' => sfx_trans _ _ _ H' (skip_ws_sfx r1)). rewrite Ew. apply sfx_cons.
    destruct (d2 =? 58); [|discriminate].
    apply (fun H' => sfx_trans _ _ _ H' (skip_ws_sfx r2)).
    destruct (pvalue n (skip_ws r2)) as [v1 r3|e] eqn:Ev; [|discriminate].
    destruct (Sv _ _ _ Ev) as [S3 Hne3]. apply sfx_tl in S3; [|exact Hne3].
    apply (fun H' => sfx_trans _ _ _ H' S3).
    destruct (skip_ws r3) as [|d3 r5] eqn:Ew3; [discriminate|].
    apply (fun H' => sfx_trans _ _ _ H' (skip_ws_sfx r3)). rewrite Ew3.
    destruct (d3 =? 125) eqn:E.
    + apply N.eqb_eq in E. subst d3. injection H as _ <-. apply sfx_refl.
    + destruct (d3 =? 44); [|discriminate]. apply sfx_cons.
      apply (fun H' => sfx_trans _ _ _ H' (skip_ws_sfx r5)). eapply IHm; exact H.
Qed.

(** ** [str.strip] keeps a value [json.loads] accepts *)

Lemma skip_ws_split (s : pystr) : exists w, s = w ++ skip_ws s /\ forallb is_json_ws w = true.
Proof.
  induction s as [|c s IH]; [now exists []|]. simpl.
  destruct (is_json_ws c) eqn:E.
  - destruct IH as (w & Hw & Hf). exists (c :: w). simpl. rewrite E, Hf, <- Hw. now split.
  - now exists [].
Qed.

Lemma skip_ws_nil (r : pystr) : skip_ws r = [] -> forallb is_json_ws r = true.
Proof.
  induction r as [|c r IH]; simpl; [reflexivity|].
  destruct (is_json_ws c); [exact IH|discriminate].
Qed.

Lemma json_ws_py (c : N) : is_json_ws c = true -> py_isspace c = true.
Proof.
  unfold is_json_ws. intros H.
  repeat (apply orb_prop in H; destruct H as [H|H]); apply N.eqb_eq in H; subst c; reflexivity.
Qed.

Lemma lstrip_ws (w x : pystr) : forallb is_json_ws w = true -> lstrip (w ++ x) = lstrip x.
Proof.
  induction w as [|c w IH]; simpl; [reflexivity|].
  intros H. apply andb_prop in H as [H1 H2]. rewrite (json_ws_py _ H1). exact (IH H2).
Qed.

Lemma forallb_rev {A} (f : A -> bool) (l : list A) : forallb f (rev l) = forallb f l.
Proof.
  induction l as [|a l IH]; simpl; [reflexivity|].
  rewrite forallb_app, IH. simpl. rewrite andb_true_r. apply andb_comm.
Qed.

Lemma loads_nonempty (s : pystr) (v : json) : loads s = Ret v -> s <> [].
Proof. intros H ->. discriminate H. Qed.

Lemma loads_strip (s : pystr) (v : json) : loads s = Ret v -> loads (py_strip s) = Ret v.
Proof.
  unfold loads at 1. intros H.
  destruct (starts_with [65279] s) eqn:Eb; [discriminate|].
  destruct (pvalue (S (2 * length s)) (skip_ws s)) as [v' r|e] eqn:Ev; [|discriminate].
  destruct (is_empty (skip_ws r)) eqn:Er; [|discriminate]. injection H as ->.
  assert (Hr : forallb is_json_ws r = true).
  { apply skip_ws_nil. destruct (skip_ws r); [reflexivity|discriminate]. }
  destruct (skip_ws_split s) as (w1 & Hs & Hw1).
  destruct (proj1 (scan_sfx _) _ _ _ Ev) as [Sy Hney].
  pose proof (proj1 (scan_end _) _ _ _ Ev) as (x & Hx & t2 & Ht2).
  destruct (skip_ws s) as [|c0 y'] eqn:Ey; [contradiction|].
  pose proof (vhead_nsp _ (pvalue_head _ _ _ _ _ Ev)) as [Hc0 Hc0'].
  simpl tl in Sy. destruct Sy as [t1 ->].
  assert (Hu : c0 :: t1 = t2 ++ [x]).
  { apply (app_inv_tail r). rewrite <- app_assoc. exact Ht2. }
  assert (Hstrip : py_strip s = c0 :: t1).
  { unfold py_strip. rewrite Hs, lstrip_ws by exact Hw1. simpl. rewrite Hc0.
    change (c0 :: t1 ++ r) with ((c0 :: t1) ++ r). rewrite rev_app_distr, lstrip_ws
      by (rewrite forallb_rev; exact Hr).
    rewrite Hu, rev_app_distr. simpl. rewrite Hx. simpl. rewrite rev_involutive.
    reflexivity. }
  rewrite Hstrip. unfold loads.
  assert (Hj : is_json_ws c0 = false).
  { destruct (is_json_ws c0) eqn:Ej; [|reflexivity]. rewrite (json_ws_py _ Ej) in Hc0. discriminate. }
  cbn [starts_with]. rewrite (proj2 (N.eqb_neq 65279 c0) (fun e => Hc0' (eq_sym e))). cbn [andb].
  cbn [skip_ws]. rewrite Hj.
  assert (Ht : pvalue (S (2 * length s)) ((c0 :: t1) ++ []) = Ok v []).
  { apply (proj1 (scan_transplant _) _ r); [exact Ev|reflexivity]. }
  rewrite app_nil_r in Ht.
  assert (Hlen : (length (c0 :: t1) <= length s)%nat).
  { rewrite Hs, length_app. simpl. rewrite length_app. lia. }
  assert (F : pvalue (S (2 * length (c0 :: t1))) (c0 :: t1) <> Err NoFuel).
  { apply (proj1 (fuel_enough _)). lia. }
  rewrite <- (proj1 (fuel_mono (S (2 * length (c0 :: t1))) (S (2 * length s)) ltac:(lia)) _ F), Ht.
  reflexivity.
Qed.

Lemma loads_never_out_of_fuel (s : pystr) : loads s <> Exc NoFuel.
Proof.
  unfold loads. destruct (starts_with [65279] s); [discriminate|].
  destruct (pvalue (S (2 * length s)) (skip_ws s)) as [v r|e] eqn:E.
  - destruct (is_empty (skip_ws r)); discriminate.
  - intros Heq. injection Heq as ->.
    refine (proj1 (fuel_enough _) (skip_ws s) _ E).
    pose proof (sfx_len _ _ (skip_ws_sfx s)). lia.
Qed.

(** Both extractors return what [json.loads] returns on a response it
    accepts as it stands. *)
Lemma loads_extractors (s : pystr) (v : json) :
  loads s = Ret v ->
  extract_json_from_text s = v /\ forall d, extract_json_from_response s d = Ret v.
Proof.
  intros H. pose proof (loads_nonempty _ _ H) as Hne.
  assert (E : is_empty s = false) by (destruct s; [contradiction|reflexivity]).
  split.
  - unfold extract_json_from_text. rewrite E, H. reflexivity.
  - intros d. unfold extract_json_from_response. rewrite E. cbv zeta.
    rewrite (loads_strip _ _ H). reflexivity.
Qed.

(** ** The two extractors agree on what [json.loads] accepts *)

(** C1 (amended): the two extractors do not return the same value on every
    input (see [extractors_differ_on_prose_array]), but they agree on every
    response that [json.loads] accepts as it stands: both return the parsed
    value. [extract_json_from_response] parses the stripped response, and
    [loads_strip] shows that stripping keeps the value. *)
Theorem extractors_agree_on_json (s : pystr) (v : json) :
  loads s = Ret v ->
  extract_json_from_text s = v /\ extract_json_from_response s JNull = Ret v.
Proof.
  intros H. destruct (loads_extractors s v H) as [H1 H2]. split; [exact H1|apply H2].
Qed.

Lemma extractors_agree_on_json_witness :
  loads (str " [1, [true, null]] ") = Ret (JArr [JNum (str "1"); JArr [JBool true; JNull]]) /\
  extract_json_from_text (str " [1, [true, null]] ") = JArr [JNum (str "1"); JArr [JBool true; JNull]] /\
  extract_json_from_response (str " [1, [true, null]] ") JNull = Ret (JArr [JNum (str "1"); JArr [JBool true; JNull]]).
Proof.
  assert (H : loads (str " [1, [true, null]] ") = Ret (JArr [JNum (str "1"); JArr [JBool true; JNull]]))
    by (vm_compute; reflexivity).
  split; [exact H|]. exact (extractors_agree_on_json _ _ H).
Defined.

(** ** [json.dumps] output is read back by [json.loads] *)

Lemma fuel_up (n m : nat) (s : pystr) (v : json) (r : pystr) :
  pvalue n s = Ok v r -> (n <= m)%nat -> pvalue m s = Ok v r.
Proof.
  intros H Hle. rewrite (proj1 (fuel_mono n m Hle) s); [exact H|]. rewrite H. discriminate.
Qed.

Lemma fuel_up_elems (n m : nat) (s : pystr) acc (v : json) (r : pystr) :
  pelems n s acc = Ok v r -> (n <= m)%nat -> pelems m s acc = Ok v r.
Proof.
  intros H Hle. rewrite (proj1 (proj2 (fuel_mono n m Hle)) s acc); [exact H|]. rewrite H. discriminate.
Qed.

Lemma fuel_up_members (n m : nat) (s : pystr) acc (v : json) (r : pystr) :
  pmembers n s acc = Ok v r -> (n <= m)%nat -> pmembers m s acc = Ok v r.
Proof.
  intros H Hle. rewrite (proj2 (proj2 (fuel_mono n m Hle)) s acc); [exact H|]. rewrite H. discriminate.
Qed.

(** Any successful parse is also the one [loads] performs with its budget. *)
Lemma fuel_any (n : nat) (s : pystr) (v : json) (r : pystr) :
  pvalue n s = Ok v r -> pvalue (S (2 * length s)) s = Ok v r.
Proof.
  intros H. destruct (Nat.le_ge_cases n (S (2 * length s))) as [Hle|Hge].
  - exact (fuel_up _ _ _ _ _ H Hle).
  - rewrite <- (proj1 (fuel_mono _ _ Hge) s); [exact H|].
    apply (proj1 (fuel_enough _)). lia.
Qed.

Lemma vhead_not_ws (c : N) : vhead c = true -> is_json_ws c = false.
Proof.
  intros H. apply vhead_nsp in H as [H _].
  destruct (is_json_ws c) eqn:E; [|reflexivity]. rewrite (json_ws_py _ E) in H. discriminate.
Qed.

Lemma skip_ws_vhead (c : N) (t : pystr) : vhead c = true -> skip_ws (c :: t) = c :: t.
Proof. intros H. simpl. rewrite (vhead_not_ws _ H). reflexivity. Qed.

Lemma skip_ws_nl (ind : option nat) (l : nat) (t : pystr) :
  skip_ws (newline_indent ind l ++ t) = skip_ws t.
Proof.
  destruct ind as [i|]; [|reflexivity]. simpl.
  induction (i * l)%nat as [|k IH]; simpl; [reflexivity|exact IH].
Qed.

Lemma numstop_nl (ind : option nat) (l : nat) (c : N) (t : pystr) :
  numstop (c :: t) = true -> numstop (newline_indent ind l ++ c :: t) = true.
Proof. destruct ind; simpl; [reflexivity|exact id]. Qed.

Lemma pystr_eqb_true (a b : pystr) : pystr_eqb a b = true -> a = b.
Proof. unfold pystr_eqb. destruct (list_eq_dec N.eq_dec a b); [auto|discriminate]. Qed.

Lemma keys_distinct_app (l1 l2 : list pystr) (k : pystr) :
  keys_distinct (l1 ++ k :: l2) = true -> ~ In k l1.
Proof.
  induction l1 as [|a l1 IH]; simpl; [auto|].
  intros H. apply andb_prop in H as [H1 H2]. intros [->|Hin].
  - apply negb_true_iff in H1. rewrite existsb_app in H1. simpl in H1.
    unfold pystr_eqb in H1 at 2. destruct (list_eq_dec N.eq_dec k k) as [_|C]; [|contradiction].
    rewrite orb_true_r in H1. discriminate.
  - exact (IH H2 Hin).
Qed.

Lemma dict_set_new (d : list (pystr * json)) (key : pystr) (v : json) :
  ~ In key (map fst d) -> dict_set d key v = d ++ [(key, v)].
Proof.
  induction d as [|[k w] d IH]; simpl; [reflexivity|].
  intros H. destruct (list_eq_dec N.eq_dec k key) as [->|_]; [exfalso; auto|].
  rewrite IH; [reflexivity|auto].
Qed.

Lemma num_ok_parse (lex : pystr) (n : nat) (r : pystr) :
  num_ok lex = true -> numstop r = true -> (1 <= n)%nat -> pvalue n (lex ++ r) = Ok (JNum lex) r.
Proof.
  unfold num_ok. intros H Hr Hn.
  destruct (pvalue 1 lex) as [[| | l | | |] [|c t]|e] eqn:E; try discriminate.
  apply pystr_eqb_true in H. subst l.
  assert (E' : pvalue 1 (lex ++ []) = Ok (JNum lex) []) by (rewrite app_nil_r; exact E).
  apply (fuel_up 1); [|exact Hn].
  exact (proj1 (scan_transplant 1) lex [] r _ E' Hr).
Qed.

Lemma escape_char_scan (c : N) (rest acc : pystr) :
  scanstring (escape_char c ++ rest) acc = scanstring rest (c :: acc).
Proof.
  unfold escape_char.
  destruct (c =? 34) eqn:E1; [apply N.eqb_eq in E1; subst; reflexivity|].
  destruct (c =? 92) eqn:E2; [apply N.eqb_eq in E2; subst; reflexivity|].
  destruct (c =? 10) eqn:E3; [apply N.eqb_eq in E3; subst; reflexivity|].
  destruct (c =? 13) eqn:E4; [apply N.eqb_eq in E4; subst; reflexivity|].
  destruct (c =? 9) eqn:E5; [apply N.eqb_eq in E5; subst; reflexivity|].
  destruct (c =? 8) eqn:E6; [apply N.eqb_eq in E6; subst; reflexivity|].
  destruct (c =? 12) eqn:E7; [apply N.eqb_eq in E7; subst; reflexivity|].
  destruct (c <? 32) eqn:E8.
  - apply N.ltb_lt in E8.
    assert (Hk : exists k, c = N.of_nat k /\ (k < 32)%nat) by (exists (N.to_nat c); lia).
    destruct Hk as (k & -> & Hk).
    do 32 (destruct k as [|k]; [first [discriminate | reflexivity]|]). lia.
  - simpl. rewrite E1, E2, E8. reflexivity.
Qed.

Lemma encode_scan (s : pystr) : forall acc r,
  scanstring (flat_map escape_char s ++ 34 :: r) acc = Ok (rev acc ++ s) r.
Proof.
  induction s as [|c s IH]; intros acc r; simpl.
  - rewrite app_nil_r. reflexivity.
  - rewrite <- app_assoc, escape_char_scan, IH. simpl. rewrite <- app_assoc. reflexivity.
Qed.

Lemma num_ok_head (lex : pystr) : num_ok lex = true -> exists c t, lex = c :: t /\ vhead c = true.
Proof.
  unfold num_ok. destruct lex as [|c t]; [discriminate|].
  destruct (pvalue 1 (c :: t)) as [v r|e] eqn:E; [|discriminate]. intros _.
  exists c, t. split; [reflexivity|]. exact (pvalue_head _ _ _ _ _ E).
Qed.

Lemma dumps_head (ind : option nat) (lvl : nat) (j : json) :
  json_wf j = true -> exists c t, dumps_at ind lvl j = c :: t /\ vhead c = true.
Proof.
  intros H. destruct j as [| [] | lex | s | [|x xs] | [|[k v] kvs]].
  all: try (eexists; eexists; split; [reflexivity|reflexivity]).
  exact (num_ok_head _ H).
Qed.

Lemma skip_ws_dumps (ind : option nat) (lvl : nat) (j : json) (t : pystr) :
  json_wf j = true -> skip_ws (dumps_at ind lvl j ++ t) = dumps_at ind lvl j ++ t.
Proof.
  intros H. destruct (dumps_head ind lvl j H) as (c & u & E & Hc). rewrite E.
  exact (skip_ws_vhead _ _ Hc).
Qed.

Lemma elems_parse (ind : option nat) (lvl : nat) (r : pystr) (xs : list json) :
  Forall (fun j => json_wf j = true /\ dumps_parses ind j) xs ->
  forall y acc, json_wf y = true -> dumps_parses ind y ->
  exists n, pelems n (dumps_at ind (S lvl) y ++
    flat_map (fun y => item_separator ind ++ newline_indent ind (S lvl) ++ dumps_at ind (S lvl) y) xs ++
    newline_indent ind lvl ++ [93] ++ r) acc = Ok (JArr (rev acc ++ y :: xs)) r.
Proof.
  induction xs as [|z zs IH]; intros Hall y acc Hwy Hy.
  - destruct (Hy (S lvl) (newline_indent ind lvl ++ [93] ++ r)) as [n Hn].
    { apply numstop_nl. reflexivity. }
    exists (S n). cbn [pelems flat_map]. rewrite app_nil_l, Hn, skip_ws_nl. reflexivity.
  - inversion Hall as [|? ? [Hwz Hz] Hzs]; subst.
    destruct (Hy (S lvl) ((item_separator ind ++ newline_indent ind (S lvl) ++ dumps_at ind (S lvl) z) ++
       flat_map (fun y => item_separator ind ++ newline_indent ind (S lvl) ++ dumps_at ind (S lvl) y) zs ++
       newline_indent ind lvl ++ [93] ++ r)) as [n1 Hn1].
    { destruct ind; reflexivity. }
    destruct (IH Hzs z (y :: acc) Hwz Hz) as [n2 Hn2].
    exists (S (Nat.max n1 n2)). cbn [pelems flat_map].
    rewrite <- !app_assoc in Hn1. rewrite <- !app_assoc. rewrite (fuel_up _ _ _ _ _ Hn1) by lia.
    destruct ind as [i|]; cbn [item_separator app skip_ws is_json_ws N.eqb Pos.eqb orb].
    + rewrite skip_ws_nl, skip_ws_dumps by exact Hwz.
      rewrite (fuel_up_elems _ _ _ _ _ _ Hn2) by lia.
      simpl. rewrite <- app_assoc. reflexivity.
    + cbn [newline_indent app]. rewrite skip_ws_dumps by exact Hwz.
      rewrite (fuel_up_elems _ _ _ _ _ _ Hn2) by lia.
      simpl. rewrite <- app_assoc. reflexivity.
Qed.

Lemma members_parse (ind : option nat) (lvl : nat) (r : pystr) (kvs : list (pystr * json)) :
  Forall (fun kv => json_wf (snd kv) = true /\ dumps_parses ind (snd kv)) kvs ->
  forall k v acc, json_wf v = true -> dumps_parses ind v ->
  keys_distinct (map fst (acc ++ (k, v) :: kvs)) = true ->
  exists n, pmembers n (encode_str k ++ key_separator ++ dumps_at ind (S lvl) v ++
    flat_map (fun kv => item_separator ind ++ newline_indent ind (S lvl) ++
                        encode_str (fst kv) ++ key_separator ++ dumps_at ind (S lvl) (snd kv)) kvs ++
    newline_indent ind lvl ++ [125] ++ r) acc = Ok (JObj (acc ++ (k, v) :: kvs)) r.
Proof.
  induction kvs as [|[k2 v2] kvs IH]; intros Hall k v acc Hwv Hv Hd.
  - destruct (Hv (S lvl) (newline_indent ind lvl ++ [125] ++ r)) as [n Hn].
    { apply numstop_nl. reflexivity. }
    exists (S n). unfold encode_str, key_separator. cbn [flat_map]. rewrite app_nil_l.
    rewrite <- !app_assoc. cbn [pmembers app N.eqb Pos.eqb].
    rewrite encode_scan. cbn [rev app skip_ws is_json_ws N.eqb Pos.eqb orb].
    rewrite skip_ws_dumps by exact Hwv. cbn [app] in Hn. rewrite Hn, skip_ws_nl. cbn [skip_ws is_json_ws N.eqb Pos.eqb orb].
    rewrite map_app in Hd. simpl in Hd.
    rewrite dict_set_new by exact (keys_distinct_app _ _ _ Hd). reflexivity.
  - inversion Hall as [|? ? [Hw2 H2] Hrest]; subst. cbn [snd] in Hw2, H2.
    destruct (Hv (S lvl) ((item_separator ind ++ newline_indent ind (S lvl) ++
        encode_str k2 ++ key_separator ++ dumps_at ind (S lvl) v2) ++
      flat_map (fun kv => item_separator ind ++ newline_indent ind (S lvl) ++
                        encode_str (fst kv) ++ key_separator ++ dumps_at ind (S lvl) (snd kv)) kvs ++
      newline_indent ind lvl ++ [125] ++ r)) as [n1 Hn1].
    { destruct ind; reflexivity. }
    assert (Hd' : keys_distinct (map fst ((acc ++ [(k, v)]) ++ (k2, v2) :: kvs)) = true)
      by (rewrite <- app_assoc; exact Hd).
    destruct (IH Hrest k2 v2 (acc ++ [(k, v)]) Hw2 H2 Hd') as [n2 Hn2].
    exists (S (Nat.max n1 n2)). unfold encode_str at 1, key_separator at 1. cbn [flat_map fst snd].
    rewrite <- !app_assoc in Hn1. rewrite <- !app_assoc. cbn [pmembers app N.eqb Pos.eqb].
    rewrite encode_scan. cbn [rev app skip_ws is_json_ws N.eqb Pos.eqb orb].
    rewrite skip_ws_dumps by exact Hwv. rewrite (fuel_up _ _ _ _ _ Hn1) by lia.
    rewrite map_app in Hd. simpl in Hd.
    rewrite dict_set_new by exact (keys_distinct_app _ _ _ Hd).
    destruct ind as [i|]; cbn [item_separator app skip_ws is_json_ws N.eqb Pos.eqb orb];
      [rewrite skip_ws_nl | cbn [newline_indent app]].
    all: unfold encode_str, key_separator in *; cbn [app item_separator newline_indent skip_ws is_json_ws N.eqb Pos.eqb orb] in Hn2 |- *.
    all: rewrite <- ?app_assoc in Hn2; rewrite <- ?app_assoc; cbn [app] in Hn2 |- *.
    all: apply (fuel_up_members _ _ _ _ _ _ Hn2); lia.
Qed.

Lemma vhead_close (c : N) : vhead c = true -> (c =? 93) = false /\ (c =? 125) = false.
Proof.
  intros H. split; destruct (c =? _) eqn:E; try reflexivity;
    apply N.eqb_eq in E; subst; discriminate.
Qed.

Lemma dumps_parse (ind : option nat) (j : json) : json_wf j = true -> dumps_parses ind j.
Proof.
  induction j as [| b | lex | s | xs IH | kvs IH] using json_ind'; intros Hw lvl r Hr.
  - exists 1%nat. reflexivity.
  - destruct b; exists 1%nat; reflexivity.
  - exists 1%nat. apply num_ok_parse; [exact Hw|exact Hr|lia].
  - exists 1%nat. cbn [dumps_at]. unfold encode_str. rewrite <- !app_assoc. cbn [app].
    cbn [pvalue N.eqb Pos.eqb]. rewrite encode_scan. reflexivity.
  - destruct xs as [|x xs]; [exists 1%nat; reflexivity|].
    cbn [json_wf forallb] in Hw. apply andb_prop in Hw as [Hwx Hwxs].
    inversion IH as [|? ? IHx IHxs]; subst.
    assert (Hall : Forall (fun j => json_wf j = true /\ dumps_parses ind j) xs).
    { apply Forall_forall. intros y Hy. rewrite forallb_forall in Hwxs.
      pose proof (Hwxs y Hy) as Hwy. split; [exact Hwy|].
      exact (proj1 (Forall_forall _ _) IHxs y Hy Hwy). }
    destruct (elems_parse ind lvl r xs Hall x [] Hwx (IHx Hwx)) as [n Hn].
    exists (S n). cbn [dumps_at]. rewrite <- !app_assoc. cbn [app pvalue N.eqb Pos.eqb].
    rewrite skip_ws_nl, skip_ws_dumps by exact Hwx.
    destruct (dumps_head ind (S lvl) x Hwx) as (c & t & E & Hc).
    rewrite E. cbn [app]. rewrite (proj1 (vhead_close _ Hc)). rewrite E in Hn. exact Hn.
  - destruct kvs as [|[k v] kvs]; [exists 1%nat; reflexivity|].
    cbn [json_wf forallb map fst snd] in Hw.
    apply andb_prop in Hw as [Hd Hw]. apply andb_prop in Hw as [Hwv Hwkvs].
    inversion IH as [|? ? IHv IHkvs]; subst. cbn [snd] in IHv.
    assert (Hall : Forall (fun kv => json_wf (snd kv) = true /\ dumps_parses ind (snd kv)) kvs).
    { apply Forall_forall. intros y Hy. rewrite forallb_forall in Hwkvs.
      pose proof (Hwkvs y Hy) as Hwy. split; [exact Hwy|].
      exact (proj1 (Forall_forall _ _) IHkvs y Hy Hwy). }
    destruct (members_parse ind lvl r kvs Hall k v [] Hwv (IHv Hwv) Hd) as [n Hn].
    exists (S n). cbn [dumps_at]. unfold encode_str in Hn |- * at 1.
    rewrite <- !app_assoc in Hn. rewrite <- !app_assoc. cbn [app pvalue N.eqb Pos.eqb].
    rewrite skip_ws_nl. cbn [app skip_ws is_json_ws N.eqb Pos.eqb orb] in Hn |- *. exact Hn.
Qed.

(** [json.loads] reads back what [json.dumps] writes. *)
Lemma loads_dumps (ind : option nat) (j : json) : json_wf j = true -> loads (dumps ind j) = Ret j.
Proof.
  intros Hw. destruct (dumps_parse ind j Hw 0%nat [] eq_refl) as [n Hn]. rewrite app_nil_r in Hn.
  destruct (dumps_head ind 0%nat j Hw) as (c & t & E & Hc).
  unfold loads, dumps. rewrite E in *.
  destruct (vhead_nsp _ Hc) as [_ Hbom].
  assert (B : starts_with [65279] (c :: t) = false).
  { cbn [starts_with]. destruct (65279 =? c) eqn:Eb; [|reflexivity].
    apply N.eqb_eq in Eb. congruence. }
  rewrite B, skip_ws_vhead by exact Hc. rewrite (fuel_any _ _ _ _ Hn). reflexivity.
Qed.

(** ** Fenced objects in a response *)

Lemma pvalue_nonhead (n : nat) (c : N) (s : pystr) :
  vhead c = false -> pvalue (S n) (c :: s) = Err JSONDecodeError.
Proof.
  unfold vhead, numch. intros H.
  repeat match goal with Hx : _ || _ = false |- _ => apply orb_false_iff in Hx as [? ?] end.
  assert (Hd : (49 <=? c) && (c <=? 57) = false).
  { match goal with Hx : is_digit c = false |- _ => unfold is_digit in Hx; rename Hx into Hdig end.
    destruct (49 <=? c) eqn:A; [|reflexivity]. apply N.leb_le in A.
    destruct (48 <=? c) eqn:B; [exact Hdig|]. apply N.leb_gt in B. lia. }
  assert (H48 : (c =? 48) = false).
  { destruct (c =? 48) eqn:E; [|reflexivity]. apply N.eqb_eq in E. subst c. vm_compute in H. discriminate H. }
  cbn [pvalue].
  repeat match goal with Hx : (c =? _) = false |- context [c =? ?k] => lazymatch type of Hx with (c =? k) = false => rewrite Hx end end.
  cbn [andb]. unfold pnumber, match_number.
  repeat match goal with Hx : (c =? _) = false |- _ => rewrite Hx end.
  cbn iota beta. repeat match goal with Hx : (c =? _) = false |- context [c =? ?k] => lazymatch type of Hx with (c =? k) = false => rewrite Hx end end. rewrite Hd. reflexivity.
Qed.

Lemma span_digits_tick (s X : pystr) :
  span_digits (s ++ 96 :: X) = (fst (span_digits s), snd (span_digits s) ++ 96 :: X).
Proof.
  induction s as [|c s IH]; [reflexivity|]. cbn [app span_digits].
  destruct (is_digit c); [|reflexivity]. rewrite IH. destruct (span_digits s). reflexivity.
Qed.

Lemma match_number_tick (s X : pystr) :
  match_number (s ++ 96 :: X) =
  match match_number s with
  | Some (lex, f, k, r) => Some (lex, f, k, r ++ 96 :: X)
  | None => None
  end.
Proof.
  unfold match_number.
  repeat (simpl; rewrite ?andb_false_r, ?orb_false_r; first
    [ rewrite span_digits_tick
    | match goal with |- context [span_digits ?t] => is_var t; destruct (span_digits t) end
    | match goal with |- context [match ?l ++ 96 :: X with _ => _ end] => is_var l; destruct l end
    | match goal with |- context [match ?l with _ => _ end] => is_var l; destruct l end
    | match goal with |- context [if ?b then _ else _] => destruct b end
    | reflexivity ]).
Qed.

Lemma pnumber_tick (s X : pystr) :
  pnumber (s ++ 96 :: X) =
  match pnumber s with Ok v r => Ok v (r ++ 96 :: X) | Err e => Err e end.
Proof.
  unfold pnumber. rewrite match_number_tick.
  destruct (match_number s) as [[[[lex f] k] r]|]; [|reflexivity].
  destruct (negb f && _); reflexivity.
Qed.

Lemma lit_tick (w : pystr) : forall (t X : pystr),
  no_tick w = true -> starts_with w (t ++ 96 :: X) = true ->
  skipn (length w) (t ++ 96 :: X) = skipn (length w) t ++ 96 :: X.
Proof.
  induction w as [|a w IH]; intros t X Hw Hs; [reflexivity|].
  cbn [no_tick forallb] in Hw. apply andb_prop in Hw as [Ha Hw]. apply negb_true_iff in Ha.
  destruct t as [|b t].
  - cbn [app starts_with] in Hs. rewrite Ha in Hs. discriminate.
  - cbn [app starts_with] in Hs. apply andb_prop in Hs as [_ Hs].
    cbn [length skipn app]. exact (IH t X Hw Hs).
Qed.

Lemma pvalue_scalar_tick (n : nat) (c : N) (t X : pystr) (v : json) (r : pystr) :
  (c =? 34) = false -> (c =? 123) = false -> (c =? 91) = false ->
  pvalue (S n) (c :: t ++ 96 :: X) = Ok v r -> exists r0, r = r0 ++ 96 :: X.
Proof.
  intros H34 H123 H91. cbn [pvalue]. rewrite H34, H123, H91.
  do 6 (match goal with
  | |- (if ?b && starts_with ?w ?s then _ else _) = _ -> _ =>
      let E := fresh "E" in destruct (b && starts_with w s) eqn:E;
      [ apply andb_prop in E as [_ E]; intros Hv; injection Hv as _ <-;
        exists (skipn (length w) t); exact (lit_tick w t X eq_refl E)
      | ]
  end).
  change (c :: t ++ 96 :: X) with ((c :: t) ++ 96 :: X). rewrite pnumber_tick.
  destruct (pnumber (c :: t)) as [v' r'|e]; intros Hv; [|discriminate Hv].
  injection Hv as _ <-. eexists; reflexivity.
Qed.

Lemma pvalue_scalar_err (n : nat) (c : N) (t X : pystr) (e : perr) :
  (c =? 34) = false -> (c =? 123) = false -> (c =? 91) = false ->
  pvalue (S n) (c :: t ++ 96 :: X) = Err e -> pnumber (c :: t) = Err e.
Proof.
  intros H34 H123 H91. cbn [pvalue]. rewrite H34, H123, H91.
  repeat match goal with
  | |- (if ?b then Ok _ _ else _) = _ -> _ => destruct b; [discriminate|]
  end.
  change (c :: t ++ 96 :: X) with ((c :: t) ++ 96 :: X). rewrite pnumber_tick.
  destruct (pnumber (c :: t)) as [v' r'|e']; intros He; [discriminate He|exact He].
Qed.

Lemma pnumber_no_fuel (s : pystr) : pnumber s <> Err NoFuel.
Proof.
  unfold pnumber. destruct (match_number s) as [[[[lex f] k] r]|]; [|discriminate].
  destruct (negb f && _); discriminate.
Qed.

Lemma skip_ws_tick (r0 X : pystr) : skip_ws (r0 ++ 96 :: X) <> [].
Proof.
  induction r0 as [|c r0 IH]; [discriminate|]. cbn [app skip_ws].
  destruct (is_json_ws c); [exact IH|discriminate].
Qed.

Lemma loads_prose (P X : pystr) :
  prose_head_ok P = true -> loads (P ++ 96 :: X) = Exc JSONDecodeError.
Proof.
  intros H. unfold loads.
  destruct (starts_with [65279] (P ++ 96 :: X)); [reflexivity|].
  assert (G : forall k, match pvalue (S k) (skip_ws (P ++ 96 :: X)) with
                        | Err e => e = JSONDecodeError
                        | Ok v r => exists r0, r = r0 ++ 96 :: X end).
  { intros k. induction P as [|d P IH].
    - replace (skip_ws ([] ++ 96 :: X)) with (96 :: X) by reflexivity.
      rewrite (pvalue_nonhead k 96 X eq_refl). reflexivity.
    - unfold prose_head_ok in H. cbn [lstrip] in H. cbn [app skip_ws].
      destruct (is_json_ws d) eqn:Ej.
      + rewrite (json_ws_py _ Ej) in H. apply IH. exact H.
      + destruct (py_isspace d) eqn:Ep.
        * destruct (vhead d) eqn:V; [apply vhead_nsp in V as [V _]; congruence|].
          rewrite (pvalue_nonhead _ _ _ V). reflexivity.
        * apply andb_prop in H as [Hc Hl]. apply negb_true_iff in Hc, Hl.
          repeat rewrite orb_false_iff in Hc. destruct Hc as [[H34 H91] H123].
          destruct (pvalue (S k) (d :: P ++ 96 :: X)) as [v r|e] eqn:Ev.
          -- exact (pvalue_scalar_tick _ _ _ _ _ _ H34 H123 H91 Ev).
          -- apply pvalue_scalar_err in Ev; [|assumption..].
             destruct e; [reflexivity| |].
             ++ unfold int_too_long in Hl. rewrite Ev in Hl. discriminate.
             ++ exfalso. exact (pnumber_no_fuel _ Ev). }
  specialize (G (Nat.mul 2 (length (P ++ 96 :: X)))).
  destruct (pvalue _ _) as [v r|e].
  - destruct G as [r0 ->]. destruct (skip_ws (r0 ++ 96 :: X)) eqn:Es; [|reflexivity].
    exfalso. exact (skip_ws_tick _ _ Es).
  - subst e. reflexivity.
Qed.

Lemma lstrip_app_ns (x t : pystr) (c : N) :
  py_isspace c = false -> lstrip (x ++ c :: t) = lstrip x ++ c :: t.
Proof.
  intros P. induction x as [|d x IH]; cbn [lstrip app].
  - rewrite P. reflexivity.
  - destruct (py_isspace d); [exact IH|reflexivity].
Qed.

Lemma lstrip_idem (x : pystr) : lstrip (lstrip x) = lstrip x.
Proof.
  induction x as [|d x IH]; cbn [lstrip]; [reflexivity|].
  destruct (py_isspace d) eqn:P; [exact IH|]. cbn [lstrip]. rewrite P. reflexivity.
Qed.

Lemma sw_fence_snoc (s rest : pystr) (c : N) :
  (c =? 96) = false -> starts_with fence (s ++ c :: rest) = starts_with fence (s ++ [c]).
Proof.
  intros H. change fence with [96; 96; 96]. rewrite N.eqb_sym in H.
  destruct s as [|a [|b [|e s]]]; cbn [app starts_with]; rewrite ?H, ?andb_false_r; reflexivity.
Qed.

Lemma no_fence_app_r (a b : pystr) : no_fence (a ++ b) = true -> no_fence b = true.
Proof.
  induction a as [|d a IH]; intros H; [exact H|].
  cbn [app no_fence] in H. apply andb_prop in H as [_ H]. exact (IH H).
Qed.

Lemma no_fence_skipn (i : nat) (s : pystr) : no_fence s = true -> no_fence (skipn i s) = true.
Proof.
  intros H. rewrite <- (firstn_skipn i s) in H. exact (no_fence_app_r _ _ H).
Qed.

Lemma lstrip_suffix (x : pystr) : exists a, x = a ++ lstrip x.
Proof.
  induction x as [|d x [a IH]]; [exists []; reflexivity|]. cbn [lstrip].
  destruct (py_isspace d); [exists (d :: a); cbn [app]; rewrite <- IH; reflexivity|exists []; reflexivity].
Qed.

Lemma no_fence_lstrip (P : pystr) :
  no_fence (P ++ [96; 96]) = true -> no_fence (lstrip P ++ [96; 96]) = true.
Proof.
  destruct (lstrip_suffix P) as [a Ha]. rewrite Ha at 1. rewrite <- app_assoc. apply no_fence_app_r.
Qed.

Lemma py_strip_frame (P1 M0 P2 : pystr) (c1 c2 : N) :
  py_isspace c1 = false -> py_isspace c2 = false ->
  py_strip (P1 ++ c1 :: M0 ++ [c2] ++ P2) = lstrip P1 ++ (c1 :: M0 ++ [c2]) ++ rev (lstrip (rev P2)).
Proof.
  intros H1 H2. unfold py_strip.
  rewrite (lstrip_app_ns _ _ _ H1).
  replace (lstrip P1 ++ c1 :: M0 ++ [c2] ++ P2) with ((lstrip P1 ++ c1 :: M0 ++ [c2]) ++ P2)
    by (rewrite <- !app_assoc; cbn [app]; rewrite <- ?app_assoc; reflexivity).
  rewrite rev_app_distr.
  replace (rev (lstrip P1 ++ c1 :: M0 ++ [c2])) with (c2 :: rev (lstrip P1 ++ c1 :: M0))
    by (rewrite app_comm_cons, app_assoc, rev_unit; reflexivity).
  rewrite (lstrip_app_ns _ _ _ H2), rev_app_distr.
  replace (rev (c2 :: rev (lstrip P1 ++ c1 :: M0))) with ((lstrip P1 ++ c1 :: M0) ++ [c2])
    by (cbn [rev]; rewrite rev_involutive; reflexivity).
  rewrite <- !app_assoc. cbn [app]. rewrite <- !app_assoc. reflexivity.
Qed.

(** ** The regular expressions on a fenced response *)

Lemma m_lit_app (w x : pystr) (k : pystr -> option (list pystr)) : m_lit w (w ++ x) k = k x.
Proof.
  unfold m_lit. assert (E : starts_with w (w ++ x) = true).
  { induction w as [|a w IH]; [reflexivity|]. cbn [starts_with app]. rewrite N.eqb_refl. exact IH. }
  rewrite E. f_equal. clear E. induction w as [|a w IH]; [reflexivity|]. exact IH.
Qed.

Lemma m_lit_fence_none (d : N) (t : pystr) (k : pystr -> option (list pystr)) :
  (d =? 96) = false -> m_lit fence (d :: t) k = None.
Proof.
  intros H. change fence with [96; 96; 96]. unfold m_lit. cbn [starts_with].
  rewrite N.eqb_sym, H. reflexivity.
Qed.

Lemma re_search_here (r : matcher) (s : pystr) (g : list pystr) :
  r s (fun _ => Some []) = Some g -> re_search r s = Some g.
Proof. intros H. destruct s; cbn [re_search]; rewrite H; reflexivity. Qed.

Lemma m_star_spaces (ws t : pystr) (c : N) (k : pystr -> option (list pystr)) (g : list pystr) :
  forallb py_isspace ws = true -> py_isspace c = false -> k (c :: t) = Some g ->
  m_star py_isspace (ws ++ c :: t) k = Some g.
Proof.
  intros Hw Hc Hk. induction ws as [|w ws IH]; cbn [app m_star].
  - rewrite Hc. exact Hk.
  - cbn [forallb] in Hw. apply andb_prop in Hw as [Hw1 Hw2]. rewrite Hw1, (IH Hw2). reflexivity.
Qed.

Lemma lazy_skip (x y : pystr) (k : pystr -> option (list pystr)) :
  (forall i, (i < length x)%nat -> k (skipn i x ++ y) = None) ->
  m_star_lazy any_char (x ++ y) k = m_star_lazy any_char y k.
Proof.
  induction x as [|d x IH]; intros H; [reflexivity|].
  cbn [app m_star_lazy]. assert (H0 : (0 < length (d :: x))%nat) by (cbn [length]; lia). specialize (H 0%nat) as H0'. cbn [skipn app] in H0'. rewrite (H0' H0). cbn [any_char].
  apply IH. intros i Hi. apply (H (S i)). cbn [length]. lia.
Qed.

Lemma group_cap (u w : pystr) : firstn (length (u ++ w) - length w) (u ++ w) = u.
Proof.
  rewrite length_app, Nat.add_sub, firstn_app, Nat.sub_diag, firstn_O, app_nil_r.
  apply firstn_all.
Qed.

Lemma skipn_snoc (i : nat) (a : pystr) (c : N) :
  (i <= length a)%nat -> skipn i (a ++ [c]) = skipn i a ++ [c].
Proof.
  intros Hi. rewrite skipn_app. replace (i - length a)%nat with 0%nat by lia. reflexivity.
Qed.

Lemma opt_json_case (tag ws1 rest : pystr) (c : N) (k : pystr -> option (list pystr)) (g : list pystr) :
  (tag = [] \/ tag = str "json") -> forallb py_isspace ws1 = true -> (c =? 106) = false ->
  k (ws1 ++ c :: rest) = Some g ->
  m_opt_lit (str "json") (tag ++ ws1 ++ c :: rest) k = Some g.
Proof.
  intros [-> | ->] Hw Hc Hk; unfold m_opt_lit.
  - cbn [app]. assert (E : m_lit (str "json") (ws1 ++ c :: rest) k = None).
    { change (str "json") with [106; 115; 111; 110]. unfold m_lit.
      destruct ws1 as [|w ws1]; cbn [app starts_with].
      - rewrite N.eqb_sym, Hc. reflexivity.
      - cbn [forallb] in Hw. apply andb_prop in Hw as [Hw _].
        destruct (106 =? w) eqn:E; [|reflexivity]. apply N.eqb_eq in E. subst w. discriminate Hw. }
    rewrite E. exact Hk.
  - rewrite m_lit_app, Hk. reflexivity.
Qed.

Lemma fence_app (x : pystr) : fence ++ x = 96 :: 96 :: 96 :: x.
Proof. reflexivity. Qed.

Lemma lazy_here (p : N -> bool) (s : pystr) (k : pystr -> option (list pystr)) (g : list pystr) :
  k s = Some g -> m_star_lazy p s k = Some g.
Proof. intros H. destruct s; cbn [m_star_lazy]; rewrite H; reflexivity. Qed.

Lemma re_search_skip_fence (r : matcher) (P X : pystr) :
  (forall s k, starts_with fence s = false -> r s k = None) ->
  no_fence (P ++ [96; 96]) = true ->
  re_search r (P ++ fence ++ X) = re_search r (fence ++ X).
Proof.
  intros Hr. induction P as [|d P IH]; intros H; [reflexivity|].
  cbn [app no_fence] in H. apply andb_prop in H as [Hd H]. apply negb_true_iff in Hd.
  cbn [app re_search]. rewrite Hr; [exact (IH H)|].
  replace (d :: P ++ fence ++ X) with ((d :: P ++ [96; 96]) ++ 96 :: X)
    by (rewrite fence_app; cbn [app]; rewrite <- app_assoc; reflexivity).
  rewrite starts_with_app; [exact Hd|].
  change (length fence) with 3%nat. cbn [length]. rewrite length_app. cbn [length]. lia.
Qed.

Ltac norm_app := repeat progress (rewrite <- ?app_assoc; cbn [app]).

Lemma react_fence_nofence (s : pystr) k : starts_with fence s = false -> react_fence_re s k = None.
Proof. intros H. unfold react_fence_re, m_seq at 1, m_lit. rewrite H. reflexivity. Qed.

Lemma research_fence_nofence (s : pystr) k : starts_with fence s = false -> research_fence_re s k = None.
Proof. intros H. unfold research_fence_re, m_seq at 1, m_lit. rewrite H. reflexivity. Qed.

Lemma star_fence_none (x0 rest : pystr) (c : N) (k : pystr -> option (list pystr)) :
  no_fence (x0 ++ [c]) = true -> py_isspace c = false -> (c =? 96) = false ->
  m_star py_isspace (x0 ++ c :: rest) (fun t => m_lit fence t k) = None.
Proof.
  intros Hx Hc Hc'. induction x0 as [|d x0 IH]; cbn [app m_star].
  - rewrite Hc. exact (m_lit_fence_none _ _ _ Hc').
  - cbn [app no_fence] in Hx. apply andb_prop in Hx as [Hd Hx]. apply negb_true_iff in Hd.
    assert (L : m_lit fence (d :: x0 ++ c :: rest) k = None).
    { unfold m_lit. change (d :: x0 ++ c :: rest) with ((d :: x0) ++ c :: rest).
      rewrite (sw_fence_snoc _ _ _ Hc'). cbn [app]. rewrite Hd. reflexivity. }
    destruct (py_isspace d); [rewrite (IH Hx)|]; exact L.
Qed.

Section FencedObject.

Variables (tag ws1 m ws2 R : pystr).
Hypothesis Htag : tag = [] \/ tag = str "json".
Hypothesis Hws1 : forallb py_isspace ws1 = true.
Hypothesis Hws2 : forallb py_isspace ws2 = true.
Hypothesis Hm : no_fence (123 :: m ++ [125]) = true.

Let u := 123 :: m ++ [125].
Let W := ws2 ++ fence ++ R.

Lemma after_group_ok (k0 : pystr -> option (list pystr)) (g : list pystr) :
  k0 R = Some g -> m_star py_isspace W (fun s5 => m_lit fence s5 k0) = Some g.
Proof.
  intros H. unfold W. rewrite fence_app. apply m_star_spaces; [exact Hws2|reflexivity|].
  rewrite <- fence_app, m_lit_app. exact H.
Qed.

Lemma react_fence_match :
  react_fence_re (fence ++ tag ++ ws1 ++ u ++ W) (fun _ => Some []) = Some [u].
Proof.
  unfold react_fence_re, m_seq at 1. rewrite m_lit_app.
  unfold u. cbn [app].
  apply opt_json_case; [exact Htag|exact Hws1|reflexivity|].
  apply m_star_spaces; [exact Hws1|reflexivity|].
  unfold m_seq at 1, m_group. unfold m_seq at 1, m_lit at 1. cbn [starts_with N.eqb Pos.eqb andb length skipn].
  unfold m_seq at 1. rewrite <- app_assoc, lazy_skip.
  - apply lazy_here. cbv beta. rewrite m_lit_app. unfold m_seq. rewrite (after_group_ok (fun _ => Some []) [] eq_refl).
    replace (S (length (m ++ [125] ++ W))) with (length ((123 :: m ++ [125]) ++ W))
      by (cbn [length app]; rewrite <- app_assoc; reflexivity).
    replace (123 :: m ++ [125] ++ W) with ((123 :: m ++ [125]) ++ W)
      by (cbn [app]; rewrite <- app_assoc; reflexivity).
    rewrite group_cap. reflexivity.
  - intros i Hi. destruct (skipn i m) as [|d t] eqn:E.
    { apply (f_equal (@length N)) in E. rewrite length_skipn in E. cbn [length] in E. lia. }
    assert (Ht : no_fence (t ++ [125]) = true).
    { pose proof (no_fence_skipn (S i) _ Hm) as Hs. cbn [skipn] in Hs.
      rewrite skipn_snoc in Hs by lia. rewrite E in Hs.
      cbn [app no_fence] in Hs. apply andb_prop in Hs as [_ Hs]. exact Hs. }
    cbn [app]. unfold m_lit. cbn [length skipn starts_with].
    destruct (125 =? d); cbn [andb]; [|reflexivity].
    unfold m_seq. pose proof (star_fence_none t W 125 (fun _ => Some []) Ht eq_refl eq_refl) as Z.
    unfold m_lit in Z. rewrite Z. reflexivity.
Qed.

Lemma research_fence_match :
  research_fence_re (fence ++ tag ++ ws1 ++ u ++ W) (fun _ => Some []) = Some [u].
Proof.
  unfold research_fence_re, m_seq at 1. rewrite m_lit_app.
  apply (opt_json_case tag ws1 ((m ++ [125]) ++ W) 123); [exact Htag|exact Hws1|reflexivity|].
  apply (m_star_spaces ws1 ((m ++ [125]) ++ W) 123); [exact Hws1|reflexivity|].
  change (123 :: (m ++ [125]) ++ W) with (u ++ W).
  unfold m_seq at 1, m_group. rewrite lazy_skip.
  - apply lazy_here. unfold m_seq. rewrite (after_group_ok (fun _ => Some []) [] eq_refl).
    rewrite group_cap. reflexivity.
  - intros i Hi. unfold u in Hi |- *.
    assert (Li : (i <= length (123%N :: m))%nat)
      by (cbn [length] in Hi |- *; rewrite length_app in Hi; cbn [length] in Hi; lia).
    rewrite app_comm_cons, skipn_snoc by exact Li.
    assert (Ht : no_fence (skipn i (123 :: m) ++ [125]) = true).
    { pose proof (no_fence_skipn i _ Hm) as Hs.
      rewrite app_comm_cons, skipn_snoc in Hs by exact Li. exact Hs. }
    unfold m_seq. rewrite <- app_assoc. cbn [app].
    pose proof (star_fence_none (skipn i (123 :: m)) W 125 (fun _ => Some []) Ht eq_refl eq_refl) as Z.
    rewrite Z. reflexivity.
Qed.

End FencedObject.

Lemma fenced_extract (P1 tag ws1 m ws2 P2 : pystr) (v : json) :
  loads (123 :: m ++ [125]) = Ret v -> (tag = [] \/ tag = str "json") ->
  forallb py_isspace ws1 = true -> forallb py_isspace ws2 = true -> no_fence (123 :: m ++ [125]) = true ->
  no_fence (P1 ++ [96; 96]) = true -> prose_head_ok P1 = true ->
  extract_json_from_text (P1 ++ fence ++ tag ++ ws1 ++ (123 :: m ++ [125]) ++ ws2 ++ fence ++ P2) = v /\
  forall d, extract_json_from_response
              (P1 ++ fence ++ tag ++ ws1 ++ (123 :: m ++ [125]) ++ ws2 ++ fence ++ P2) d = Ret v.
Proof.
  intros Hv Ht H1 H2 Hm HP Hh.
  assert (L : forall P Y, prose_head_ok P = true -> loads (P ++ fence ++ Y) = Exc JSONDecodeError)
    by (intros P Y HY; rewrite fence_app; exact (loads_prose _ _ HY)).
  assert (E : is_empty (P1 ++ fence ++ tag ++ ws1 ++ (123 :: m ++ [125]) ++ ws2 ++ fence ++ P2) = false)
    by (destruct P1; reflexivity).
  split.
  - unfold extract_json_from_text. rewrite E, (L _ _ Hh).
    cbv beta iota zeta.
    rewrite re_search_skip_fence by (exact react_fence_nofence || exact HP).
    rewrite (re_search_here _ _ _ (react_fence_match tag ws1 m ws2 P2 Ht H1 H2 Hm)).
    cbn [group1]. rewrite Hv. reflexivity.
  - intros d. unfold extract_json_from_response. rewrite E. cbv zeta.
    set (M0 := 96 :: 96 :: tag ++ ws1 ++ (123 :: m ++ [125]) ++ ws2 ++ [96; 96]).
    assert (Es : P1 ++ fence ++ tag ++ ws1 ++ (123 :: m ++ [125]) ++ ws2 ++ fence ++ P2 =
                 P1 ++ 96 :: M0 ++ [96] ++ P2).
    { unfold M0. rewrite !fence_app. norm_app. reflexivity. }
    rewrite Es, (py_strip_frame P1 M0 P2 96 96 eq_refl eq_refl).
    replace ((96 :: M0 ++ [96]) ++ rev (lstrip (rev P2)))
      with (fence ++ tag ++ ws1 ++ (123 :: m ++ [125]) ++ ws2 ++ fence ++ rev (lstrip (rev P2)))
      by (unfold M0; rewrite !fence_app; norm_app; reflexivity).
    rewrite L by (unfold prose_head_ok; rewrite lstrip_idem; exact Hh).
    cbn [catch_decode].
    rewrite re_search_skip_fence by (exact research_fence_nofence || exact (no_fence_lstrip _ HP)).
    rewrite (re_search_here _ _ _ (research_fence_match tag ws1 m ws2 _ Ht H1 H2 Hm)).
    cbn [group1]. rewrite Hv. reflexivity.
Qed.

Lemma dumps_obj_shape (ind : option nat) (lvl : nat) (kvs : list (pystr * json)) :
  exists m, dumps_at ind lvl (JObj kvs) = 123 :: m ++ [125].
Proof.
  destruct kvs as [|[k v] kvs]; [exists []; reflexivity|].
  exists (newline_indent ind (S lvl) ++ encode_str k ++ key_separator ++ dumps_at ind (S lvl) v ++
    flat_map (fun kv => item_separator ind ++ newline_indent ind (S lvl) ++
                        encode_str (fst kv) ++ key_separator ++ dumps_at ind (S lvl) (snd kv)) kvs ++
    newline_indent ind lvl).
  cbn [dumps_at]. rewrite <- !app_assoc. reflexivity.
Qed.




(** ** Saving and loading a research run *)

Ltac bsolve :=
  repeat (match goal with
    | |- context [?x <? ?y] =>
        first [rewrite (proj2 (N.ltb_lt x y)) by lia | rewrite (proj2 (N.ltb_ge x y)) by lia]
    | |- context [?x <=? ?y] =>
        first [rewrite (proj2 (N.leb_le x y)) by lia | rewrite (proj2 (N.leb_gt x y)) by lia]
    | |- context [?x =? ?y] =>
        first [rewrite (proj2 (N.eqb_eq x y)) by lia | rewrite (proj2 (N.eqb_neq x y)) by lia]
    end; cbn [andb orb]).

Lemma utf8_decode_cons (b0 : N) (t : list N) :
  utf8_decode (b0 :: t) =
      if b0 <? 128 then option_map (cons b0) (utf8_decode t)
      else if in_range 194 223 b0 then
        match t with
        | b1 :: t' =>
            if cont_byte b1
            then option_map (cons ((b0 - 192) * 64 + (b1 - 128))) (utf8_decode t')
            else None
        | _ => None
        end
      else if in_range 224 239 b0 then
        match t with
        | b1 :: b2 :: t' =>
            if in_range (if b0 =? 224 then 160 else 128) (if b0 =? 237 then 159 else 191) b1
               && cont_byte b2
            then option_map (cons ((b0 - 224) * 4096 + (b1 - 128) * 64 + (b2 - 128)))
                            (utf8_decode t')
            else None
        | _ => None
        end
      else if in_range 240 244 b0 then
        match t with
        | b1 :: b2 :: b3 :: t' =>
            if in_range (if b0 =? 240 then 144 else 128) (if b0 =? 244 then 143 else 191) b1
               && cont_byte b2 && cont_byte b3
            then option_map (cons ((b0 - 240) * 262144 + (b1 - 128) * 4096
                                   + (b2 - 128) * 64 + (b3 - 128)))
                            (utf8_decode t')
            else None
        | _ => None
        end
      else None.
Proof. reflexivity. Qed.

Lemma utf8_char_roundtrip (c : N) (bc t : list N) :
  utf8_encode_char c = Some bc -> utf8_decode (bc ++ t) = option_map (cons c) (utf8_decode t).
Proof.
  unfold utf8_encode_char. intros H.
  destruct (c <? 128) eqn:L1.
  { injection H as <-. apply N.ltb_lt in L1. cbn [app]; rewrite utf8_decode_cons. bsolve. reflexivity. }
  apply N.ltb_ge in L1.
  pose proof (N.div_mod c 64 ltac:(discriminate)) as D1. pose proof (N.mod_lt c 64 ltac:(discriminate)) as M1.
  destruct (c <? 2048) eqn:L2.
  { replace bc with [192 + c / 64; 128 + c mod 64] by congruence. apply N.ltb_lt in L2.
    set (q := c / 64) in *. set (r := c mod 64) in *.
    cbn [app]; rewrite utf8_decode_cons. unfold cont_byte, in_range. bsolve.
    replace ((192 + q - 192) * 64 + (128 + r - 128)) with c by lia. reflexivity. }
  apply N.ltb_ge in L2.
  pose proof (N.div_mod c 4096 ltac:(discriminate)) as D2. pose proof (N.mod_lt c 4096 ltac:(discriminate)) as M2.
  pose proof (N.div_mod (c mod 4096) 64 ltac:(discriminate)) as D3.
  pose proof (N.mod_lt (c mod 4096) 64 ltac:(discriminate)) as M3.
  set (a := c / 4096) in *. set (m := c mod 4096) in *. set (b := m / 64) in *. set (d := m mod 64) in *.
  assert (Q1 : c / 64 = 64 * a + b) by (symmetry; apply (N.div_unique _ _ _ d); lia).
  assert (Q2 : (64 * a + b) mod 64 = b) by (symmetry; apply (N.mod_unique _ _ a); lia).
  assert (Q3 : c mod 64 = d) by (symmetry; apply (N.mod_unique _ _ (64 * a + b)); lia).
  destruct (c <? 65536) eqn:L3.
  { apply N.ltb_lt in L3. unfold in_range in H.
    destruct ((55296 <=? c) && (c <=? 57343)) eqn:S; [discriminate|].
    assert (NS : c < 55296 \/ 57343 < c).
    { destruct (55296 <=? c) eqn:S1; [|apply N.leb_gt in S1; lia].
      destruct (c <=? 57343) eqn:S2; [discriminate|]. apply N.leb_gt in S2. lia. }
    cbv beta iota in H.
    replace bc with [224 + a; 128 + (c / 64) mod 64; 128 + c mod 64] by congruence.
    rewrite Q1, Q2, Q3.
    cbn [app]; rewrite utf8_decode_cons. unfold cont_byte, in_range.
    bsolve.
    destruct (224 + a =? 224) eqn:E1; [apply N.eqb_eq in E1 | apply N.eqb_neq in E1];
    destruct (224 + a =? 237) eqn:E2; [apply N.eqb_eq in E2 | apply N.eqb_neq in E2 | apply N.eqb_eq in E2 | apply N.eqb_neq in E2];
    bsolve; try lia.
    all: replace ((224 + a - 224) * 4096 + (128 + b - 128) * 64 + (128 + d - 128)) with c by lia; reflexivity. }
  apply N.ltb_ge in L3.
  destruct (c <? 1114112) eqn:L4; [|discriminate]. apply N.ltb_lt in L4.
  replace bc with [240 + c / 262144; 128 + a mod 64; 128 + (c / 64) mod 64; 128 + c mod 64]
    by congruence.
  pose proof (N.div_mod c 262144 ltac:(discriminate)) as D4. pose proof (N.mod_lt c 262144 ltac:(discriminate)) as M4.
  set (a4 := c / 262144) in *. set (m4 := c mod 262144) in *.
  assert (Q4 : a = 64 * a4 + m4 / 4096).
  { unfold a. symmetry. apply (N.div_unique _ _ _ (m4 mod 4096)); [apply N.mod_lt; discriminate|].
    pose proof (N.div_mod m4 4096 ltac:(discriminate)). lia. }
  assert (Q5 : a mod 64 = m4 / 4096).
  { symmetry. apply (N.mod_unique _ _ a4); [|lia].
    assert (m4 / 4096 < 64) by (apply N.Div0.div_lt_upper_bound; lia). lia. }
  rewrite Q1, Q2, Q3, Q5.
  assert (B4 : m4 / 4096 < 64) by (apply N.Div0.div_lt_upper_bound; lia).
  cbn [app]; rewrite utf8_decode_cons. unfold cont_byte, in_range.
  bsolve.
  destruct (240 + a4 =? 240) eqn:E1; [apply N.eqb_eq in E1 | apply N.eqb_neq in E1];
  destruct (240 + a4 =? 244) eqn:E2; [apply N.eqb_eq in E2 | apply N.eqb_neq in E2 | apply N.eqb_eq in E2 | apply N.eqb_neq in E2];
  bsolve; try lia.
  all: replace ((240 + a4 - 240) * 262144 + (128 + m4 / 4096 - 128) * 4096 + (128 + b - 128) * 64 + (128 + d - 128)) with c by lia; reflexivity.
Qed.

Lemma utf8_roundtrip (s : pystr) (bs : list N) : utf8_encode s = Some bs -> utf8_decode bs = Some s.
Proof.
  revert bs. induction s as [|c s IH]; intros bs H; cbn [utf8_encode] in H.
  - injection H as <-. reflexivity.
  - destruct (utf8_encode_char c) as [bc|] eqn:E1; [|discriminate].
    destruct (utf8_encode s) as [r|] eqn:E2; [|discriminate].
    injection H as <-. rewrite (utf8_char_roundtrip _ _ _ E1), (IH r eq_refl). reflexivity.
Qed.

Lemma universal_newlines_id (s : pystr) : no_cr s = true -> universal_newlines s = s.
Proof.
  induction s as [|c s IH]; [reflexivity|]. cbn [no_cr forallb universal_newlines].
  intros H. apply andb_prop in H as [H1 H2]. apply negb_true_iff in H1. rewrite H1, (IH H2). reflexivity.
Qed.

Lemma no_cr_app (a b : pystr) : no_cr (a ++ b) = no_cr a && no_cr b.
Proof. apply forallb_app. Qed.

Lemma num_ok_no_cr (lex : pystr) : num_ok lex = true -> no_cr lex = true.
Proof.
  unfold num_ok. destruct (pvalue 1 lex) as [v r|e] eqn:E; [|discriminate].
  destruct v as [| | l | | |]; try discriminate. destruct r; [|discriminate].
  intros H. apply pystr_eqb_true in H. subst l.
  destruct lex as [|c t]; [discriminate E|]. cbn [pvalue] in E.
  destruct (c =? 34). { destruct (scanstring t []); discriminate. }
  destruct (c =? 123). { destruct (skip_ws t) as [|d s2]; [discriminate|]. destruct (d =? 125); discriminate. }
  destruct (c =? 91). { destruct (skip_ws t) as [|d s2]; [discriminate|]. destruct (d =? 93); discriminate. }
  destruct ((c =? 110) && _). { discriminate. }
  destruct ((c =? 116) && _). { discriminate. }
  destruct ((c =? 102) && _). { discriminate. }
  destruct ((c =? 78) && _). { injection E; intros; subst; reflexivity. }
  destruct ((c =? 73) && _). { injection E; intros; subst; reflexivity. }
  destruct ((c =? 45) && _). { injection E; intros; subst; reflexivity. }
  apply pnumber_chars in E as (lex' & E & _ & Hc). rewrite app_nil_r in E. subst lex'.
  unfold no_cr. rewrite forallb_forall in Hc |- *. intros x Hx. specialize (Hc x Hx).
  destruct (x =? 13) eqn:X; [|reflexivity]. apply N.eqb_eq in X. subst x. discriminate Hc.
Qed.

Lemma escape_char_no_cr (c : N) : no_cr (escape_char c) = true.
Proof.
  unfold escape_char.
  destruct (c =? 34); [reflexivity|]. destruct (c =? 92); [reflexivity|].
  destruct (c =? 10); [reflexivity|]. destruct (c =? 13) eqn:E; [reflexivity|].
  destruct (c =? 9); [reflexivity|]. destruct (c =? 8); [reflexivity|]. destruct (c =? 12); [reflexivity|].
  destruct (c <? 32).
  - cbn [no_cr forallb]. unfold hexdigit.
    generalize (c / 16) (c mod 16). intros p q.
    destruct (p <? 10); destruct (q <? 10); bsolve; reflexivity.
  - cbn [no_cr forallb]. rewrite E. reflexivity.
Qed.

Lemma encode_str_no_cr (s : pystr) : no_cr (encode_str s) = true.
Proof.
  unfold encode_str. rewrite !no_cr_app. cbn [no_cr forallb].
  induction s as [|c s IH]; [reflexivity|]. cbn [flat_map]. rewrite no_cr_app, escape_char_no_cr. exact IH.
Qed.

Lemma newline_indent_no_cr (ind : option nat) (l : nat) : no_cr (newline_indent ind l) = true.
Proof.
  destruct ind as [i|]; [|reflexivity]. cbn [newline_indent no_cr forallb].
  induction (i * l)%nat as [|k IH]; [reflexivity|]. exact IH.
Qed.

Lemma flat_map_no_cr {A} (f : A -> pystr) (l : list A) :
  (forall x, In x l -> no_cr (f x) = true) -> no_cr (flat_map f l) = true.
Proof.
  induction l as [|x l IH]; intros H; [reflexivity|]. cbn [flat_map].
  rewrite no_cr_app, (H x (or_introl eq_refl)). apply IH. intros y Hy. apply H. right. exact Hy.
Qed.

Lemma item_separator_no_cr (ind : option nat) : no_cr (item_separator ind) = true.
Proof. destruct ind; reflexivity. Qed.

Lemma dumps_no_cr (ind : option nat) (j : json) : forall lvl, json_wf j = true -> no_cr (dumps_at ind lvl j) = true.
Proof.
  induction j as [| b | lex | s | xs IH | kvs IH] using json_ind'; intros lvl Hw.
  - reflexivity.
  - destruct b; reflexivity.
  - exact (num_ok_no_cr _ Hw).
  - apply encode_str_no_cr.
  - destruct xs as [|x xs]; [reflexivity|].
    cbn [json_wf forallb] in Hw. apply andb_prop in Hw as [Hwx Hwxs].
    inversion IH as [|? ? IHx IHxs]; subst.
    rewrite forallb_forall in Hwxs. rewrite Forall_forall in IHxs.
    cbn [dumps_at]. rewrite !no_cr_app, !newline_indent_no_cr, (IHx _ Hwx), flat_map_no_cr; [reflexivity|].
    intros y Hy. rewrite !no_cr_app, item_separator_no_cr, newline_indent_no_cr, (IHxs y Hy _ (Hwxs y Hy)).
    reflexivity.
  - destruct kvs as [|[k v] kvs]; [reflexivity|].
    cbn [json_wf forallb map fst snd] in Hw.
    apply andb_prop in Hw as [_ Hw]. apply andb_prop in Hw as [Hwv Hwkvs].
    inversion IH as [|? ? IHv IHkvs]; subst. cbn [snd] in IHv.
    rewrite forallb_forall in Hwkvs. rewrite Forall_forall in IHkvs.
    cbn [dumps_at]. rewrite !no_cr_app, !newline_indent_no_cr, encode_str_no_cr, (IHv _ Hwv), flat_map_no_cr;
      [reflexivity|].
    intros y Hy. rewrite !no_cr_app, item_separator_no_cr, newline_indent_no_cr, encode_str_no_cr,
      (IHkvs y Hy _ (Hwkvs y Hy)).
    reflexivity.
Qed.

Lemma step_get_query (s : research_step) : subscript (step_to_json s) (str "query") = Some (rs_query s).
Proof. reflexivity. Qed.
Lemma step_get_step_type (s : research_step) : subscript (step_to_json s) (str "step_type") = Some (rs_step_type s).
Proof. reflexivity. Qed.
Lemma step_get_sources (s : research_step) : subscript (step_to_json s) (str "sources") = Some (rs_sources s).
Proof. reflexivity. Qed.
Lemma step_get_analysis (s : research_step) : subscript (step_to_json s) (str "analysis") = Some (rs_analysis s).
Proof. reflexivity. Qed.
Lemma step_get_reasoning (s : research_step) : subscript (step_to_json s) (str "reasoning") = Some (rs_reasoning s).
Proof. reflexivity. Qed.

Lemma data_get_steps (q : json) (steps : list research_step) (now : pystr) :
  subscript (research_data q steps now) (str "steps") = Some (JArr (map step_to_json steps)).
Proof. reflexivity. Qed.
Lemma data_get_query (q : json) (steps : list research_step) (now : pystr) :
  subscript (research_data q steps now) (str "query") = Some q.
Proof. reflexivity. Qed.

Lemma step_json_wf (s : research_step) : step_wf s = true -> json_wf (step_to_json s) = true.
Proof.
  unfold step_wf. intros H.
  repeat match goal with Hx : _ && _ = true |- _ => apply andb_prop in Hx as [? ?] end.
  unfold step_to_json. cbn [json_wf forallb snd].
  repeat match goal with Hx : json_wf _ = true |- _ => rewrite Hx; clear Hx end.
  reflexivity.
Qed.

Lemma load_steps_map (clock : nat -> pystr) (steps : list research_step) : forall i,
  forallb step_wf steps = true ->
  exists steps', load_steps clock i (map step_to_json steps) = Some steps' /\
                 map step_fields steps' = map step_fields steps.
Proof.
  induction steps as [|s steps IH]; intros i H; [exists []; split; reflexivity|].
  cbn [forallb] in H. apply andb_prop in H as [Hs H].
  destruct (IH (S i) H) as (st & E1 & E2).
  cbn [map load_steps]. rewrite step_get_query, step_get_step_type. cbv zeta.
  rewrite step_get_sources, step_get_analysis, step_get_reasoning, E1. cbn [option_map].
  eexists. split; [reflexivity|]. cbn [map]. rewrite E2. f_equal.
  unfold step_fields, make_step. cbn [rs_query rs_step_type rs_sources rs_analysis rs_reasoning].
  unfold step_wf in Hs. apply andb_prop in Hs as [_ Hsrc].
  destruct (truthy (rs_sources s)) eqn:T; [reflexivity|].
  cbn [orb] in Hsrc. destruct (rs_sources s) as [| | | | [|]|]; try discriminate. reflexivity.
Qed.

Lemma research_data_wf (q : json) (steps : list research_step) (now : pystr) :
  json_wf q = true -> forallb step_wf steps = true -> json_wf (research_data q steps now) = true.
Proof.
  intros Hq H. unfold research_data. cbn [json_wf forallb snd]. rewrite Hq.
  assert (A : forallb json_wf (map step_to_json steps) = true).
  { induction steps as [|s steps IH]; [reflexivity|]. cbn [forallb] in H |- *.
    apply andb_prop in H as [H1 H2]. cbn [map forallb]. rewrite (step_json_wf _ H1). exact (IH H2). }
  rewrite A. reflexivity.
Qed.

(** C9: if [save_research] succeeds (every string can be encoded as
    UTF-8) on a query string and a list of steps whose fields are JSON
    values with valid number lexemes and distinct keys, and whose sources
    are as the [ResearchStep] constructor leaves them (truthy, or the
    empty list), then [load_research] on the written file returns the same
    query and a list of steps whose query, step_type, sources, analysis and
    reasoning fields equal those of the saved steps, in the same order and
    with the same length. The timestamp comes from the clock. *)
Theorem save_then_load (query : pystr) (steps : list research_step) (now : pystr)
    (clock : nat -> pystr) (file : list N) :
  save_research (JStr query) steps now = Some file ->
  forallb step_wf steps = true ->
  exists steps', load_research file clock = Some (JStr query, steps') /\
                 map step_fields steps' = map step_fields steps.
Proof.
  intros Hs Hw.
  pose proof (research_data_wf (JStr query) steps now eq_refl Hw) as Hwf.
  destruct (load_steps_map clock steps 0 Hw) as (st & E1 & E2).
  exists st. unfold load_research, read_text. rewrite (utf8_roundtrip _ _ Hs). cbn [option_map].
  rewrite universal_newlines_id by (apply dumps_no_cr; exact Hwf).
  rewrite (loads_dumps _ _ Hwf), data_get_steps. cbn [py_iter]. rewrite E1, data_get_query.
  split; [reflexivity|exact E2].
Qed.

Lemma save_then_load_witness :
  exists steps',
    load_research
      (match save_research (JStr [20013; 25991])
               [make_step (JStr (str "a")) (JStr (str "search"))
                          (JArr [JObj [(str "url", JStr (str "u"))]])
                          (JStr (str "x")) (JStr [10; 13; 34]) (str "t0")] (str "t1")
       with Some f => f | None => [] end) (fun _ => str "t2")
    = Some (JStr [20013; 25991], steps') /\
    map step_fields steps' =
    map step_fields [make_step (JStr (str "a")) (JStr (str "search"))
                          (JArr [JObj [(str "url", JStr (str "u"))]])
                          (JStr (str "x")) (JStr [10; 13; 34]) (str "t0")].
Proof.
  apply (save_then_load [20013; 25991] _ (str "t1")); vm_compute; reflexivity.
Defined.

(** ** The files [process_path] writes *)

Lemma lstrip_all_space (s : pystr) : is_empty (lstrip s) = forallb py_isspace s.
Proof.
  induction s as [|c s IH]; [reflexivity|]. cbn [lstrip forallb].
  destruct (py_isspace c); [exact IH|reflexivity].
Qed.

Lemma forallb_lstrip (s : pystr) : forallb py_isspace (lstrip s) = forallb py_isspace s.
Proof.
  induction s as [|c s IH]; [reflexivity|]. cbn [lstrip forallb].
  destruct (py_isspace c) eqn:E; [exact IH|]. cbn [forallb]. rewrite E. reflexivity.
Qed.

Lemma is_empty_rev {A} (s : list A) : is_empty (rev s) = is_empty s.
Proof. destruct s as [|c s]; [reflexivity|]. cbn [rev]. destruct (rev s); reflexivity. Qed.

Lemma py_strip_empty (s : pystr) : is_empty (py_strip s) = forallb py_isspace s.
Proof.
  unfold py_strip. rewrite is_empty_rev, lstrip_all_space, forallb_rev, forallb_lstrip.
  reflexivity.
Qed.

Lemma universal_newlines_space (s : pystr) :
  forallb py_isspace (universal_newlines s) = forallb py_isspace s.
Proof.
  induction s as [s IH] using (induction_ltof1 _ (@length N)); unfold ltof in IH.
  destruct s as [|c t]; [reflexivity|]. cbn [universal_newlines].
  destruct (c =? 13) eqn:E.
  - apply N.eqb_eq in E; subst c.
    destruct t as [|d t']; [reflexivity|].
    destruct (d =? 10) eqn:D.
    + apply N.eqb_eq in D; subst d. cbn [forallb].
      rewrite (IH t') by (cbn [length]; lia). reflexivity.
    + cbn [forallb]. rewrite (IH (d :: t')) by (cbn [length]; lia). reflexivity.
  - cbn [forallb]. rewrite (IH t) by (cbn [length]; lia). reflexivity.
Qed.

Lemma existsb_negb (s : pystr) :
  existsb (fun c => negb (py_isspace c)) s = negb (forallb py_isspace s).
Proof.
  induction s as [|c s IH]; [reflexivity|]. cbn [existsb forallb].
  rewrite IH, negb_andb. reflexivity.
Qed.

Lemma file_block_eq (root : list pystr) (name : pystr) (data : list N) :
  file_block (root, name, data) =
  match utf8_decode data with
  | Some text =>
      get_comment_prefix name ++ rel_path root name ++ [10] ++ universal_newlines text ++ [10; 10]
  | None => []
  end.
Proof. reflexivity. Qed.

Lemma process_files_blocks (output_file : pystr) (root : list pystr) (files : list (pystr * list N)) :
  let fs := filter (included output_file) (map (fun f => (root, fst f, snd f)) files) in
  process_files output_file root files = (flat_map file_block fs, length fs).
Proof.
  induction files as [|[name data] files IH]; [reflexivity|].
  cbn zeta in *. cbn [process_files map fst snd filter].
  rewrite IH.
  change (included output_file (root, name, data)) with
    (negb (mem name (IGNORE_FILES output_file)) && negb (is_binary_file name) &&
     match utf8_decode data with
     | Some text => existsb (fun c => negb (py_isspace c)) text
     | None => false
     end).
  destruct (mem name (IGNORE_FILES output_file) || is_binary_file name) eqn:M.
  - apply orb_true_iff in M. destruct M as [M|M]; rewrite M;
      rewrite ?andb_false_r; reflexivity.
  - apply orb_false_iff in M as [M1 M2]. rewrite M1, M2. cbn [negb andb].
    unfold read_text. destruct (utf8_decode data) as [text|] eqn:U; [|reflexivity].
    cbn [option_map]. rewrite py_strip_empty, universal_newlines_space, existsb_negb.
    destruct (forallb py_isspace text); [reflexivity|]. cbn [negb flat_map length].
    rewrite file_block_eq, U, <- ?app_assoc. reflexivity.
Qed.

Lemma walk_flat_cons (rf : list pystr * list (pystr * list N)) L :
  walk_flat (rf :: L) = map (fun f => (fst rf, fst f, snd f)) (snd rf) ++ walk_flat L.
Proof. reflexivity. Qed.

Lemma walk_flat_app (A B : list (list pystr * list (pystr * list N))) :
  walk_flat (A ++ B) = walk_flat A ++ walk_flat B.
Proof. unfold walk_flat. apply flat_map_app. Qed.

Lemma os_walk_visible (e : entry) : forall root, walk_flat (os_walk root e) = visible_files root e.
Proof.
  induction e as [n d|n cs Hcs] using entry_ind'; intros root; [reflexivity|].
  cbn [os_walk visible_files]. rewrite walk_flat_cons. cbn [fst snd]. f_equal.
  - clear Hcs. induction cs as [|c cs IH]; [reflexivity|].
    cbn [flat_map]. rewrite map_app, IH. destruct c; reflexivity.
  - induction Hcs as [|c cs Hc Hcs IH]; [reflexivity|].
    rewrite walk_flat_app, IH. cbn [flat_map]. f_equal.
    destruct c as [m d|m ds]; [reflexivity|].
    destruct (mem m IGNORE_DIRS); [reflexivity|]. apply Hc.
Qed.

(** C10 (amended): for every source tree, the text [process_path] writes
    is the concatenation, in [os.walk] order, of one block per included
    file: a file not under a directory named in [IGNORE_DIRS], not named in
    [IGNORE_FILES], without an extension in [BINARY_EXTENSIONS], whose bytes
    decode as UTF-8 and whose text has a non-whitespace character. The
    block is the comment prefix ([# ] or [// ]), the relative path, a line
    end, the text as read in text mode (["
"] and a lone ["
"] become
    ["
"]) and a blank line. The returned count is the number of included
    files. *)
Theorem process_path_included (source : entry) (output_file : pystr) :
  let fs := filter (included output_file) (visible_files [] source) in
  process_path source output_file = (flat_map file_block fs, length fs).
Proof.
  cbn zeta. rewrite <- os_walk_visible. unfold process_path.
  generalize (os_walk [] source) as L. intros L.
  induction L as [|[root files] L IH]; [reflexivity|].
  cbn [fold_right fst snd]. rewrite IH, (process_files_blocks output_file root files).
  cbn zeta. rewrite walk_flat_cons. cbn [fst snd].
  rewrite filter_app, flat_map_app, length_app. reflexivity.
Qed.

(** ** File names in merge_codebase_context.py *)

Lemma last_dot_none (s : pystr) (i : nat) : no_dot s = true -> last_dot s i = None.
Proof.
  revert i. induction s as [|c s IH]; intros i H; [reflexivity|].
  cbn [no_dot forallb] in H. apply andb_prop in H as [Hc H]. apply negb_true_iff in Hc.
  cbn [last_dot]. rewrite (IH _ H), Hc. reflexivity.
Qed.

Lemma last_dot_app (x e : pystr) (i : nat) :
  no_dot e = true -> last_dot (x ++ 46 :: e) i = Some (i + length x)%nat.
Proof.
  revert i. induction x as [|c x IH]; intros i H; cbn [app last_dot length].
  - rewrite (last_dot_none _ _ H). rewrite Nat.add_0_r. reflexivity.
  - rewrite (IH (S i) H). f_equal. lia.
Qed.

Lemma last_dot_some (s : pystr) (i j : nat) :
  last_dot s i = Some j -> (i <= j)%nat /\ exists t, skipn (j - i) s = 46 :: t.
Proof.
  revert i. induction s as [|c s IH]; intros i H; [discriminate|].
  cbn [last_dot] in H. destruct (last_dot s (S i)) as [j'|] eqn:E.
  - injection H as <-. destruct (IH _ E) as [Hle [t Ht]]. split; [lia|].
    exists t. replace (j' - i)%nat with (S (j' - S i)) by lia. exact Ht.
  - destruct (c =? 46) eqn:Hc; [|discriminate]. injection H as <-.
    apply N.eqb_eq in Hc. subst c. split; [lia|]. exists s. rewrite Nat.sub_diag. reflexivity.
Qed.

Lemma splitext_ext_shape (name : pystr) :
  splitext_ext name = [] \/ exists t, splitext_ext name = 46 :: t.
Proof.
  unfold splitext_ext. destruct (last_dot name 0) as [i|] eqn:E; [|left; reflexivity].
  destruct (existsb _ _); [|left; reflexivity]. right.
  destruct (last_dot_some _ _ _ E) as [_ [t Ht]]. rewrite Nat.sub_0_r in Ht. exists t. exact Ht.
Qed.

Lemma mem_app (x : pystr) (l1 l2 : list pystr) : mem x (l1 ++ l2) = mem x l1 || mem x l2.
Proof. unfold mem. apply existsb_app. Qed.

Lemma existsb_dots (x : pystr) :
  forallb (fun c => c =? 46) x = true -> existsb (fun c => negb (c =? 46)) x = false.
Proof.
  induction x as [|c x IH]; [reflexivity|]. cbn [forallb existsb].
  intros H. apply andb_prop in H as [Hc H]. rewrite Hc, (IH H). reflexivity.
Qed.

Lemma firstn_app_exact {A} (x y : list A) : firstn (length x) (x ++ y) = x.
Proof. rewrite firstn_app, Nat.sub_diag, firstn_all. cbn [firstn]. apply app_nil_r. Qed.

Lemma skipn_app_exact {A} (x y : list A) : skipn (length x) (x ++ y) = y.
Proof. rewrite skipn_app, Nat.sub_diag, skipn_all. reflexivity. Qed.

(** [os.path.splitext] on a name [stem.e]. *)
Lemma splitext_ext_app (stem e : pystr) :
  existsb (fun c => negb (c =? 46)) stem = true -> no_dot e = true ->
  splitext_ext (stem ++ 46 :: e) = 46 :: e.
Proof.
  intros Hs He. unfold splitext_ext. rewrite (last_dot_app _ _ 0 He). cbn [Nat.add].
  rewrite firstn_app_exact, Hs, skipn_app_exact. reflexivity.
Qed.

Lemma splitext_ext_dots (dots rest : pystr) :
  forallb (fun c => c =? 46) dots = true -> no_dot rest = true -> splitext_ext (dots ++ rest) = [].
Proof.
  intros Hd Hr. unfold splitext_ext.
  destruct (last_dot (dots ++ rest) 0) as [i|] eqn:E; [|reflexivity].
  destruct (last_dot_some _ _ _ E) as [_ [t Ht]]. rewrite Nat.sub_0_r in Ht.
  assert (Hi : (i < length dots)%nat).
  { destruct (Nat.lt_ge_cases i (length dots)) as [L|L]; [exact L|].
    rewrite skipn_app in Ht. rewrite (skipn_all2 dots) in Ht by lia. cbn [app] in Ht.
    assert (In 46 (skipn (i - length dots) rest)) by (rewrite Ht; left; reflexivity).
    assert (H' : In 46 rest) by (rewrite <- (firstn_skipn (i - length dots) rest); apply in_or_app; right; exact H).
    clear H; rename H' into H. unfold no_dot in Hr. rewrite forallb_forall in Hr.
    specialize (Hr _ H). rewrite N.eqb_refl in Hr. discriminate. }
  rewrite firstn_app, (proj2 (Nat.sub_0_le i (length dots))) by lia. cbn [firstn]. rewrite app_nil_r.
  assert (F : forallb (fun c => c =? 46) (firstn i dots) = true).
  { rewrite <- (firstn_skipn i dots) in Hd. rewrite forallb_app in Hd.
    apply andb_prop in Hd as [Hd _]. exact Hd. }
  rewrite (existsb_dots _ F). reflexivity.
Qed.

(** [get_comment_prefix] decides on the lower-cased extension alone: the
    entry ['makefile'] of its list never matches, since the extension
    [os.path.splitext] returns is empty or starts with a dot. *)
Theorem get_comment_prefix_dotted (filename : pystr) :
  get_comment_prefix filename =
  if mem (py_lower (splitext_ext filename)) script_exts then str "# " else str "// ".
Proof.
  unfold get_comment_prefix. cbv zeta.
  change (map str [".py"; ".sh"; ".yaml"; ".yml"; ".conf"; ".ini"; ".rb"; ".pl"; ".dockerfile"; "makefile"])
    with (script_exts ++ [str "makefile"]).
  rewrite mem_app.
  assert (M : mem (py_lower (splitext_ext filename)) [str "makefile"] = false).
  { destruct (splitext_ext_shape filename) as [E|[t E]]; rewrite E; reflexivity. }
  rewrite M, orb_false_r. reflexivity.
Qed.

(** For a name [stem.e] whose stem holds a character other than a dot and
    whose [e] has no dot, [is_binary_file] looks [.e], lower-cased, up in
    [BINARY_EXTENSIONS]. *)
Theorem is_binary_file_ext (stem e : pystr) :
  existsb (fun c => negb (c =? 46)) stem = true -> no_dot e = true ->
  is_binary_file (stem ++ 46 :: e) = mem (py_lower (46 :: e)) BINARY_EXTENSIONS.
Proof. intros Hs He. unfold is_binary_file. rewrite (splitext_ext_app _ _ Hs He). reflexivity. Qed.

(** A name made of leading dots and a rest without a dot (['.png'],
    ['..jpg']) has no extension, so it is never taken for binary. *)
Theorem is_binary_file_dotfile (dots rest : pystr) :
  forallb (fun c => c =? 46) dots = true -> no_dot rest = true -> is_binary_file (dots ++ rest) = false.
Proof. intros Hd Hr. unfold is_binary_file. rewrite (splitext_ext_dots _ _ Hd Hr). reflexivity. Qed.

Lemma is_binary_file_ext_witness :
  (existsb (fun c => negb (c =? 46)) (str "logo") = true /\ no_dot (str "PNG") = true) /\
  is_binary_file (str "logo" ++ 46 :: str "PNG") = mem (py_lower (46 :: str "PNG")) BINARY_EXTENSIONS.
Proof. split; [split; reflexivity|]. apply is_binary_file_ext; reflexivity. Defined.

Lemma is_binary_file_dotfile_witness :
  (forallb (fun c => c =? 46) [46] = true /\ no_dot (str "png") = true) /\
  is_binary_file ([46] ++ str "png") = false.
Proof. split; [split; reflexivity|]. apply is_binary_file_dotfile; reflexivity. Defined.

(** ** [extract_json_from_response] and [generate_search_queries] *)

Lemma catch_decode_safe (r : py json) (k : unit -> py json) :
  decode_safe (k tt) -> decode_safe (catch_decode r k).
Proof.
  intros Hk. destruct r as [v|[| |]]; cbn [catch_decode]; auto.
  - left. exists v. reflexivity.
  - right. reflexivity.
Qed.

(** [extract_json_from_response] returns a value or raises [ValueError]: a
    [JSONDecodeError] never escapes it. The content has at most 100
    opening brackets, so no decoded value comes near CPython's recursion
    limit, where [RecursionError] would escape instead. *)
Theorem extract_json_from_response_decode_safe (content : pystr) (default : json) :
  (open_brackets content <= 100)%nat ->
  (exists v, extract_json_from_response content default = Ret v) \/
  extract_json_from_response content default = Exc ValueError.
Proof.
  intros _.
  change (decode_safe (extract_json_from_response content default)).
  assert (D : decode_safe (Ret default)) by (left; exists default; reflexivity).
  unfold extract_json_from_response. destruct (is_empty content); [exact D|]. cbv zeta.
  apply catch_decode_safe.
  destruct (group1 (re_search research_fence_re (py_strip content)));
    [apply catch_decode_safe|];
  (destruct (group1 (re_search research_obj_re (py_strip content)));
    [apply catch_decode_safe|]);
  (destruct (group1 (re_search research_arr_re (py_strip content)));
    [apply catch_decode_safe|]); exact D.
Qed.

Lemma extract_json_from_response_decode_safe_witness :
  (open_brackets (str "Result: [1, 2") <= 100)%nat /\
  ((exists v, extract_json_from_response (str "Result: [1, 2") JNull = Ret v) \/
   extract_json_from_response (str "Result: [1, 2") JNull = Exc ValueError).
Proof.
  assert (H : (open_brackets (str "Result: [1, 2") <= 100)%nat) by (vm_compute; lia).
  split; [exact H|]. exact (extract_json_from_response_decode_safe _ JNull H).
Defined.

Lemma forallb_lstrip_sub (p : N -> bool) (s : pystr) : forallb p s = true -> forallb p (lstrip s) = true.
Proof.
  induction s as [|c s IH]; [trivial|]. cbn [lstrip forallb]. intros H.
  apply andb_prop in H as [Hc H]. destruct (py_isspace c); [exact (IH H)|].
  cbn [forallb]. rewrite Hc, H. reflexivity.
Qed.

Lemma forallb_py_strip (p : N -> bool) (s : pystr) : forallb p s = true -> forallb p (py_strip s) = true.
Proof.
  intros H. unfold py_strip. rewrite forallb_rev. apply forallb_lstrip_sub.
  rewrite forallb_rev. apply forallb_lstrip_sub. exact H.
Qed.

Lemma re_search_none (r : matcher) (p : N -> bool) (s : pystr) :
  (forall k, r [] k = None) -> (forall c t k, p c = true -> r (c :: t) k = None) ->
  forallb p s = true -> re_search r s = None.
Proof.
  intros H0 H1. induction s as [|c s IH]; intros H; cbn [re_search].
  - rewrite H0. reflexivity.
  - cbn [forallb] in H. apply andb_prop in H as [Hc H]. rewrite (H1 _ _ _ Hc). exact (IH H).
Qed.

Lemma delim_free_neq (c : N) : delim_free c = true ->
  (96 =? c) = false /\ (123 =? c) = false /\ (91 =? c) = false.
Proof.
  unfold delim_free. intros H. apply negb_true_iff in H.
  apply orb_false_iff in H as [H H3]. apply orb_false_iff in H as [H1 H2].
  rewrite !(N.eqb_sym _ c). auto.
Qed.

Lemma research_res_none (c : N) (t : pystr) (k : pystr -> option (list pystr)) :
  delim_free c = true ->
  research_fence_re (c :: t) k = None /\ research_obj_re (c :: t) k = None /\
  research_arr_re (c :: t) k = None.
Proof.
  intros H. destruct (delim_free_neq _ H) as (H1 & H2 & H3).
  unfold research_fence_re, research_obj_re, research_arr_re, m_group, m_seq, m_lit.
  change fence with [96; 96; 96]. cbn [starts_with]. rewrite H1, H2, H3. auto.
Qed.

Lemma response_default (content : pystr) (default : json) :
  no_json_delim content = true -> loads (py_strip content) = Exc JSONDecodeError ->
  extract_json_from_response content default = Ret default.
Proof.
  intros Hc Hl. unfold extract_json_from_response.
  destruct (is_empty content); [reflexivity|]. cbv zeta. rewrite Hl. cbn [catch_decode].
  apply (forallb_py_strip _ _) in Hc.   rewrite (re_search_none research_fence_re delim_free _ (fun _ => eq_refl)
             (fun c t k H => proj1 (research_res_none c t k H)) Hc).
  rewrite (re_search_none research_obj_re delim_free _ (fun _ => eq_refl)
             (fun c t k H => proj1 (proj2 (research_res_none c t k H))) Hc).
  rewrite (re_search_none research_arr_re delim_free _ (fun _ => eq_refl)
             (fun c t k H => proj2 (proj2 (research_res_none c t k H))) Hc).
  reflexivity.
Qed.

(** A reply without a backtick, a brace or a bracket that [json.loads]
    rejects after stripping gives the default. *)
Theorem extract_json_from_response_default (content : pystr) (default : json) :
  no_json_delim content = true -> loads (py_strip content) = Exc JSONDecodeError ->
  extract_json_from_response content default = Ret default.
Proof. exact (response_default content default). Qed.

Lemma extract_json_from_response_default_witness :
  (no_json_delim (str "  no JSON here, sorry ") = true /\
   loads (py_strip (str "  no JSON here, sorry ")) = Exc JSONDecodeError) /\
  extract_json_from_response (str "  no JSON here, sorry ") (JStr (str "d")) = Ret (JStr (str "d")).
Proof.
  assert (H1 : no_json_delim (str "  no JSON here, sorry ") = true) by reflexivity.
  assert (H2 : loads (py_strip (str "  no JSON here, sorry ")) = Exc JSONDecodeError)
    by (vm_compute; reflexivity).
  split; [split; assumption|]. exact (extract_json_from_response_default _ _ H1 H2).
Defined.

Lemma lstrip_split (s : pystr) : exists w, s = w ++ lstrip s.
Proof.
  induction s as [|c s IH]; [exists []; reflexivity|]. cbn [lstrip].
  destruct (py_isspace c); [|exists []; reflexivity].
  destruct IH as [w Hw]. exists (c :: w). cbn [app]. f_equal. exact Hw.
Qed.

Lemma lstrip_head (s : pystr) : match lstrip s with c :: _ => py_isspace c = false | [] => True end.
Proof.
  induction s as [|c s IH]; [exact I|]. cbn [lstrip].
  destruct (py_isspace c) eqn:E; [exact IH|exact E].
Qed.

Lemma py_strip_idem (s : pystr) : py_strip (py_strip s) = py_strip s.
Proof.
  unfold py_strip at 2 3. set (x := lstrip s). set (p := rev (lstrip (rev x))).
  assert (Hx : match x with c :: _ => py_isspace c = false | [] => True end) by apply lstrip_head.
  destruct (lstrip_split (rev x)) as [w Hw].
  assert (Hp : x = p ++ rev w).
  { unfold p. rewrite <- rev_app_distr, <- Hw, rev_involutive. reflexivity. }
  assert (Lp : lstrip p = p).
  { destruct p as [|c p'] eqn:E; [reflexivity|]. rewrite Hp in Hx. cbn [app] in Hx.
    cbn [lstrip]. rewrite Hx. reflexivity. }
  unfold py_strip. rewrite Lp. unfold p. rewrite rev_involutive, lstrip_idem. reflexivity.
Qed.

(** When the reply is a JSON object, [generate_search_queries] returns its
    ['queries'] value if that is a string, a list or a dict, and
    [[main_query]] otherwise (for objects nested at most 100 deep: deeper
    ones approach CPython's recursion limit). *)
Theorem generate_search_queries_object (main_query : pystr) (ind : option nat)
    (kvs : list (pystr * json)) :
  json_wf (JObj kvs) = true -> (json_depth (JObj kvs) <= 100)%nat ->
  generate_search_queries main_query (dumps ind (JObj kvs)) =
  match dict_get kvs (str "queries") with
  | Some q => if py_sized q then q else JArr [JStr main_query]
  | None => JArr [JStr main_query]
  end.
Proof.
  intros Hw _. unfold generate_search_queries.
  pose proof (loads_strip _ _ (loads_dumps ind _ Hw)) as H.
  rewrite (proj2 (loads_extractors _ _ H) JNull).
  unfold dict_get_default. destruct (dict_get kvs (str "queries")); reflexivity.
Qed.

Lemma generate_search_queries_object_witness :
  json_wf (JObj [(str "queries", JArr [JStr (str "a"); JStr (str "b")])]) = true /\
  (json_depth (JObj [(str "queries", JArr [JStr (str "a"); JStr (str "b")])]) <= 100)%nat /\
  generate_search_queries (str "q") (dumps (Some 2%nat) (JObj [(str "queries", JArr [JStr (str "a"); JStr (str "b")])]))
  = JArr [JStr (str "a"); JStr (str "b")].
Proof.
  assert (H : json_wf (JObj [(str "queries", JArr [JStr (str "a"); JStr (str "b")])]) = true)
    by reflexivity.
  assert (D : (json_depth (JObj [(str "queries", JArr [JStr (str "a"); JStr (str "b")])]) <= 100)%nat)
    by (vm_compute; lia).
  split; [exact H|]. split; [exact D|]. rewrite (generate_search_queries_object _ _ _ H D). reflexivity.
Defined.

(** A reply without a backtick, a brace or a bracket that is not JSON gives
    [[main_query]]. *)
Theorem generate_search_queries_no_json (main_query content : pystr) :
  no_json_delim content = true -> loads (py_strip content) = Exc JSONDecodeError ->
  generate_search_queries main_query content = JArr [JStr main_query].
Proof.
  intros Hc Hl. unfold generate_search_queries.
  pose proof (py_strip_idem content) as Hs.
  assert (Hc' : no_json_delim (py_strip content) = true) by (apply forallb_py_strip; exact Hc).
  rewrite <- Hs in Hl.
  pose proof (response_default _ JNull Hc' Hl) as E.
  rewrite E. reflexivity.
Qed.

Lemma generate_search_queries_no_json_witness :
  (no_json_delim (str "I could not think of queries.") = true /\
   loads (py_strip (str "I could not think of queries.")) = Exc JSONDecodeError) /\
  generate_search_queries (str "q") (str "I could not think of queries.") = JArr [JStr (str "q")].
Proof.
  assert (H1 : no_json_delim (str "I could not think of queries.") = true) by reflexivity.
  assert (H2 : loads (py_strip (str "I could not think of queries.")) = Exc JSONDecodeError)
    by (vm_compute; reflexivity).
  split; [split; assumption|]. exact (generate_search_queries_no_json _ _ H1 H2).
Defined.

(** ** Loading a research file *)

Lemma load_steps_missing (clock : nat -> pystr) (items : list json) : forall i,
  existsb (fun it => negb (has_required_keys it)) items = true -> load_steps clock i items = None.
Proof.
  induction items as [|it items IH]; intros i H; [discriminate|].
  cbn [existsb] in H. cbn [load_steps]. unfold has_required_keys in H.
  destruct (subscript it (str "query")), (subscript it (str "step_type")); cbn [negb orb] in H;
    try reflexivity.
  rewrite (IH _ H). reflexivity.
Qed.

(** A file whose ['steps'] list has an item without ['query'] or
    ['step_type'] does not load. *)
Theorem load_research_missing_key (file : list N) (clock : nat -> pystr) (text : pystr)
    (data : json) (items : list json) :
  read_text file = Some text -> loads text = Ret data -> subscript data (str "steps") = Some (JArr items) ->
  existsb (fun it => negb (has_required_keys it)) items = true ->
  load_research file clock = None.
Proof.
  intros Ht Hl Hs Hm. unfold load_research. rewrite Ht, Hl, Hs. cbn [py_iter].
  rewrite (load_steps_missing _ _ 0 Hm). reflexivity.
Qed.

Lemma load_steps_sources (clock : nat -> pystr) (items : list json) : forall i steps,
  load_steps clock i items = Some steps ->
  Forall (fun s => truthy (rs_sources s) = true \/ rs_sources s = JArr []) steps.
Proof.
  induction items as [|it items IH]; intros i steps H.
  - injection H as <-. constructor.
  - cbn [load_steps] in H.
    destruct (subscript it (str "query")), (subscript it (str "step_type")); try discriminate.
    destruct (load_steps clock (S i) items) as [st|] eqn:E; [|discriminate].
    cbn [option_map] in H. injection H as <-. constructor; [|exact (IH _ _ E)].
    unfold make_step. cbn [rs_sources].
    match goal with |- context [if truthy ?v then _ else _] => destruct (truthy v) eqn:T end;
      [left; exact T|right; reflexivity].
Qed.


Lemma load_research_missing_key_witness :
  (read_text (sample_file (JObj [(str "query", JStr (str "q"));
                                 (str "steps", JArr [JObj [(str "query", JStr (str "a"))]])]))
     = Some (dumps (Some 2%nat) (JObj [(str "query", JStr (str "q"));
                                 (str "steps", JArr [JObj [(str "query", JStr (str "a"))]])])) /\
   loads (dumps (Some 2%nat) (JObj [(str "query", JStr (str "q"));
                                 (str "steps", JArr [JObj [(str "query", JStr (str "a"))]])]))
     = Ret (JObj [(str "query", JStr (str "q"));
                  (str "steps", JArr [JObj [(str "query", JStr (str "a"))]])]) /\
   subscript (JObj [(str "query", JStr (str "q"));
                    (str "steps", JArr [JObj [(str "query", JStr (str "a"))]])]) (str "steps")
     = Some (JArr [JObj [(str "query", JStr (str "a"))]]) /\
   existsb (fun it => negb (has_required_keys it)) [JObj [(str "query", JStr (str "a"))]] = true) /\
  load_research (sample_file (JObj [(str "query", JStr (str "q"));
                                    (str "steps", JArr [JObj [(str "query", JStr (str "a"))]])]))
    (fun _ => []) = None.
Proof.
  split; [vm_compute; repeat split|].
  apply (load_research_missing_key _ _ (dumps (Some 2%nat) (JObj [(str "query", JStr (str "q"));
           (str "steps", JArr [JObj [(str "query", JStr (str "a"))]])]))
           (JObj [(str "query", JStr (str "q"));
                  (str "steps", JArr [JObj [(str "query", JStr (str "a"))]])])
           [JObj [(str "query", JStr (str "a"))]]); vm_compute; reflexivity.
Defined.


(** ** Ignored directories in [process_path] *)

Lemma process_path_blocks (source : entry) (output_file : pystr) :
  process_path source output_file =
  (flat_map file_block (filter (included output_file) (visible_files [] source)),
   length (filter (included output_file) (visible_files [] source))).
Proof.
  rewrite <- os_walk_visible. unfold process_path.
  generalize (os_walk [] source) as L. intros L.
  induction L as [|[root files] L IH]; [reflexivity|].
  cbn [fold_right fst snd]. rewrite IH, (process_files_blocks output_file root files).
  cbn zeta. rewrite walk_flat_cons. cbn [fst snd].
  rewrite filter_app, flat_map_app, length_app. reflexivity.
Qed.

Lemma visible_prune (e : entry) : forall root, visible_files root (prune_ignored e) = visible_files root e.
Proof.
  induction e as [n d|n cs Hcs] using entry_ind'; intros root; [reflexivity|].
  cbn [prune_ignored visible_files]. f_equal.
  - clear Hcs. induction cs as [|c cs IH]; [reflexivity|].
    cbn [flat_map]. rewrite !flat_map_app, <- IH.
    destruct c as [m d|m ds]; [reflexivity|].
    destruct (mem m IGNORE_DIRS); reflexivity.
  - induction Hcs as [|c cs Hc Hcs IH]; [reflexivity|].
    cbn [flat_map]. rewrite !flat_map_app, IH. f_equal.
    destruct c as [m d|m ds]; cbn [flat_map app]; [reflexivity|].
    destruct (mem m IGNORE_DIRS) eqn:M; [reflexivity|].
    cbn [flat_map app]. rewrite ?app_nil_r, <- Hc.
    assert (E : exists l, prune_ignored (EDir m ds) = EDir m l) by (eexists; reflexivity).
    destruct E as [l E]. rewrite E, M. reflexivity.
Qed.

(** Removing the directories named in [IGNORE_DIRS] from the tree does not
    change what [process_path] writes nor the count it returns. *)
Theorem process_path_prune_ignored (source : entry) (output_file : pystr) :
  process_path (prune_ignored source) output_file = process_path source output_file.
Proof. rewrite !process_path_blocks, visible_prune. reflexivity. Qed.

(** ** The response stream of [call_llm_step] *)

Lemma stream_loop_done (R C : list json) (rest : list (list N)) :
  stream_loop (done_line :: rest) R C = Some (R, C).
Proof. reflexivity. Qed.

Lemma stream_loop_after_done (lines rest rest' : list (list N)) : forall R C,
  stream_loop (lines ++ done_line :: rest) R C = stream_loop (lines ++ done_line :: rest') R C.
Proof.
  induction lines as [|l lines IH]; intros R C; [rewrite !app_nil_l, !stream_loop_done; reflexivity|].
  cbn [app stream_loop].
  destruct (is_empty l); [apply IH|].
  destruct (utf8_decode l) as [s|]; [|reflexivity].
  destruct (list_eq_dec N.eq_dec _ _); [reflexivity|].
  destruct (loads (strip_data s)) as [ch|e]; [|apply IH].
  destruct (chunk_parts ch); apply IH.
Qed.

(** The lines after [data: [DONE]] are never read: whatever they are, the
    result is the same. *)
Theorem call_llm_step_after_done (status_code : N) (lines rest rest' : list (list N)) :
  call_llm_step status_code (lines ++ done_line :: rest) =
  call_llm_step status_code (lines ++ done_line :: rest').
Proof. unfold call_llm_step. rewrite (stream_loop_after_done lines rest rest'). reflexivity. Qed.

Lemma stream_loop_skip (l : list N) (post : list (list N)) (pre : list (list N)) :
  line_skipped l = true -> forall R C,
  stream_loop (pre ++ l :: post) R C = stream_loop (pre ++ post) R C.
Proof.
  intros Hl. induction pre as [|x pre IH]; intros R C.
  - rewrite !app_nil_l. cbn [stream_loop]. unfold line_skipped in Hl.
    destruct (is_empty l); [reflexivity|]. cbn [orb] in Hl.
    destruct (utf8_decode l) as [s|]; [|discriminate].
    apply andb_prop in Hl. destruct Hl as [H1 H2].
    unfold pystr_eqb in H1. destruct (list_eq_dec N.eq_dec _ _); [discriminate|].
    destruct (loads (strip_data s)) as [ch|e]; [|reflexivity].
    destruct (chunk_parts ch) as [r c].
    destruct r; [|discriminate]. destruct c; [|discriminate]. rewrite !app_nil_r. reflexivity.
  - cbn [app stream_loop].
    destruct (is_empty x); [apply IH|].
    destruct (utf8_decode x) as [s|]; [|reflexivity].
    destruct (list_eq_dec N.eq_dec _ _); [reflexivity|].
    destruct (loads (strip_data s)) as [ch|e]; [|apply IH].
    destruct (chunk_parts ch); apply IH.
Qed.



Lemma lstrip_snoc (l : pystr) (c : N) : py_isspace c = false -> lstrip (l ++ [c]) = lstrip l ++ [c].
Proof.
  intros Hc. induction l as [|x l IH]; cbn [app lstrip]; [rewrite Hc; reflexivity|].
  destruct (py_isspace x); [exact IH|reflexivity].
Qed.

Lemma py_strip_head (c : N) (t : pystr) : py_isspace c = false -> exists y, py_strip (c :: t) = c :: y.
Proof.
  intros Hc. unfold py_strip. cbn [lstrip]. rewrite Hc. cbn [rev].
  rewrite lstrip_snoc by exact Hc. rewrite rev_app_distr. cbn. eexists. reflexivity.
Qed.

Lemma dumps_obj_not_done (kvs : list (pystr * json)) :
  py_strip (dumps None (JObj kvs)) <> str "[DONE]".
Proof.
  destruct (dumps_obj_shape None 0%nat kvs) as [m Em].
  destruct (py_strip_head 123 (m ++ [125]) eq_refl) as [y Ey].
  unfold dumps. rewrite Em, Ey. discriminate.
Qed.

Lemma strip_data_prefix (x : pystr) : strip_data (data_prefix ++ x) = x.
Proof. reflexivity. Qed.

Lemma chunk_parts_delta (r c : pystr) : chunk_parts (delta_chunk r c) = (keep_part r, keep_part c).
Proof. reflexivity. Qed.

Lemma delta_chunk_wf (r c : pystr) : json_wf (delta_chunk r c) = true.
Proof. reflexivity. Qed.

Lemma str_join_app (a b : list json) :
  str_join (a ++ b) = match str_join a, str_join b with Some x, Some y => Some (x ++ y) | _, _ => None end.
Proof.
  induction a as [|j a IH]; cbn [app str_join].
  - destruct (str_join b); reflexivity.
  - destruct j; try reflexivity. rewrite IH.
    destruct (str_join a), (str_join b); cbn; rewrite ?app_assoc; reflexivity.
Qed.

Lemma str_join_keep (f : pystr * pystr -> pystr) (parts : list (pystr * pystr)) :
  str_join (flat_map (fun rc => keep_part (f rc)) parts) = Some (concat (map f parts)).
Proof.
  induction parts as [|p parts IH]; [reflexivity|].
  cbn [flat_map map concat]. rewrite str_join_app, IH.
  unfold keep_part. destruct (f p); cbn; rewrite ?app_nil_r; reflexivity.
Qed.

Lemma stream_loop_chunks (rest : list (list N)) (parts : list (pystr * pystr)) (lines : list (list N)) :
  Forall2 (fun rc l => sse_line (delta_chunk (fst rc) (snd rc)) = Some l) parts lines ->
  forall R C, stream_loop (lines ++ done_line :: rest) R C =
    Some (R ++ flat_map (fun rc => keep_part (fst rc)) parts,
          C ++ flat_map (fun rc => keep_part (snd rc)) parts).
Proof.
  induction 1 as [|[r c] l parts lines Hl Hs IH]; intros R C.
  - rewrite app_nil_l, stream_loop_done, !app_nil_r. reflexivity.
  - apply utf8_roundtrip in Hl. cbn [app stream_loop].
    assert (Hne : is_empty l = false) by (destruct l; [discriminate|reflexivity]).
    rewrite Hne, Hl, strip_data_prefix. cbn [fst snd] in *.
    destruct (list_eq_dec N.eq_dec _ _) as [E|_]; [exfalso; exact (dumps_obj_not_done _ E)|].
    rewrite loads_dumps by apply delta_chunk_wf. rewrite chunk_parts_delta, IH.
    cbn [flat_map fst snd]. rewrite !app_assoc. reflexivity.
Qed.

(** A stream of [data:] chunks, each with a reasoning and a content delta,
    ended by [data: [DONE]], gives the concatenation of the contents and
    the concatenation of the reasoning deltas; empty deltas are dropped
    without effect. *)
Theorem call_llm_step_reassembles (parts : list (pystr * pystr)) (lines rest : list (list N)) :
  Forall2 (fun rc l => sse_line (delta_chunk (fst rc) (snd rc)) = Some l) parts lines ->
  call_llm_step 200 (lines ++ done_line :: rest) =
  LOk {| r_content := concat (map snd parts); r_reasoning := concat (map fst parts) |}.
Proof.
  intros H. unfold call_llm_step. cbn [N.eqb negb]. rewrite (stream_loop_chunks rest parts lines H).
  rewrite !app_nil_l, !str_join_keep. reflexivity.
Qed.

Lemma call_llm_step_reassembles_witness :
  Forall2 (fun rc l => sse_line (delta_chunk (fst rc) (snd rc)) = Some l)
    [(str "The user greets; ", str "Hel"); ([], str "lo!")]
    [str "data: " ++ dumps None (delta_chunk (str "The user greets; ") (str "Hel"));
     str "data: " ++ dumps None (delta_chunk [] (str "lo!"))] /\
  call_llm_step 200 ([str "data: " ++ dumps None (delta_chunk (str "The user greets; ") (str "Hel"));
                      str "data: " ++ dumps None (delta_chunk [] (str "lo!"))] ++ done_line :: [[255]]) =
  LOk {| r_content := str "Hello!"; r_reasoning := str "The user greets; " |}.
Proof.
  assert (H : Forall2 (fun rc l => sse_line (delta_chunk (fst rc) (snd rc)) = Some l)
    [(str "The user greets; ", str "Hel"); ([], str "lo!")]
    [str "data: " ++ dumps None (delta_chunk (str "The user greets; ") (str "Hel"));
     str "data: " ++ dumps None (delta_chunk [] (str "lo!"))])
    by (repeat constructor; vm_compute; reflexivity).
  split; [exact H|]. exact (call_llm_step_reassembles _ _ [[255]] H).
Defined.

Lemma stream_loop_extends (lines : list (list N)) : forall R C R' C',
  stream_loop lines R C = Some (R', C') -> exists c', C' = C ++ c'.
Proof.
  induction lines as [|l lines IH]; intros R C R' C' H; cbn [stream_loop] in H.
  - injection H as <- <-. exists []. rewrite app_nil_r. reflexivity.
  - destruct (is_empty l); [exact (IH _ _ _ _ H)|].
    destruct (utf8_decode l) as [s|]; [|discriminate].
    destruct (list_eq_dec N.eq_dec _ _).
    { injection H as <- <-. exists []. rewrite app_nil_r. reflexivity. }
    destruct (loads (strip_data s)) as [ch|e]; [|exact (IH _ _ _ _ H)].
    destruct (chunk_parts ch) as [r c].
    destruct (IH _ _ _ _ H) as [c' E]. exists (c ++ c'). rewrite E, app_assoc. reflexivity.
Qed.



(** ** The cleaning in [tools_visit] *)

Lemma takewhile_cons (p : N -> bool) (c : N) (t : pystr) :
  takewhile p (c :: t) = if p c then c :: takewhile p t else [].
Proof. reflexivity. Qed.

Lemma star_nl (t : pystr) :
  (m_star py_isspace t (fun s' => m_lit [10] s' nl_k) = None /\ no_nl (takewhile py_isspace t) = true) \/
  (exists a b, t = a ++ 10 :: b /\ forallb py_isspace a = true /\
     m_star py_isspace t (fun s' => m_lit [10] s' nl_k) = Some [b] /\
     no_nl (takewhile py_isspace b) = true).
Proof.
  induction t as [|c t IH].
  - left. split; reflexivity.
  - cbn [m_star]. rewrite takewhile_cons.
    destruct (py_isspace c) eqn:Hc.
    + destruct IH as [[E Hn]|(a & b & Et & Ha & E & Hb)].
      * rewrite E. unfold m_lit at 1. cbn [starts_with]. rewrite andb_true_r.
        destruct (10 =? c) eqn:E10.
        -- apply N.eqb_eq in E10. subst c. right. exists [], t. split; [reflexivity|]. split; [reflexivity|]. split; [reflexivity|exact Hn].
        -- left. split; [reflexivity|]. cbn. rewrite N.eqb_sym, E10. exact Hn.
      * right. exists (c :: a), b. rewrite E. split; [rewrite Et; reflexivity|].
        split; [cbn; rewrite Hc; exact Ha|]. split; [reflexivity|exact Hb].
    + left. split; [|reflexivity]. unfold m_lit. cbn [starts_with].
      destruct (10 =? c) eqn:E10; [|reflexivity].
      apply N.eqb_eq in E10. subst c. discriminate.
Qed.

Lemma blank_nl (t : pystr) :
  blank_lines_re (10 :: t) nl_k = m_star py_isspace t (fun s' => m_lit [10] s' nl_k).
Proof. reflexivity. Qed.

Lemma blank_other (c : N) (t : pystr) : c <> 10 -> blank_lines_re (c :: t) nl_k = None.
Proof.
  intros Hc. unfold blank_lines_re, m_seq, m_lit. cbn [starts_with].
  destruct (10 =? c) eqn:E; [apply N.eqb_eq in E; congruence|reflexivity].
Qed.

Lemma blank_empty : blank_lines_re [] nl_k = None.
Proof. reflexivity. Qed.

Lemma clean_runs (fuel : nat) : forall (s : pystr) (cnt : nat), (length s < fuel)%nat ->
  (cnt = 0%nat \/ ((cnt <= 2)%nat /\ no_nl (takewhile py_isspace s) = true)) ->
  nl_runs_ok cnt (re_sub_fuel fuel blank_lines_re [10; 10] s) = true.
Proof.
  induction fuel as [|f IH]; intros s cnt Hl Hi; [cbn in Hl; lia|].
  cbn [re_sub_fuel]. fold nl_k.
  destruct s as [|c t]; [rewrite blank_empty; reflexivity|].
  cbn [length] in Hl.
  destruct (N.eq_dec c 10) as [->|Hc].
  - assert (Hc0 : cnt = 0%nat) by (destruct Hi as [H|[_ H]]; [exact H|discriminate]).
    subst cnt. rewrite blank_nl.
    destruct (star_nl t) as [[E Hn]|(a & b & Et & Ha & E & Hb)].
    + rewrite E. cbn [nl_runs_ok N.eqb]. apply IH; [lia|]. right. split; [lia|exact Hn].
    + rewrite E. cbn [app nl_runs_ok N.eqb]. cbn [Nat.ltb Nat.leb andb].
      apply IH; [|right; split; [lia|exact Hb]].
      rewrite Et, length_app in Hl. cbn [length] in Hl. lia.
  - rewrite blank_other by exact Hc. cbn [nl_runs_ok].
    destruct (c =? 10) eqn:E; [apply N.eqb_eq in E; congruence|].
    destruct (py_isspace c) eqn:Hs.
    + apply IH; [lia|]. destruct Hi as [H|[H1 H2]]; [left; exact H|right; split; [exact H1|]].
      rewrite takewhile_cons, Hs in H2. cbn in H2. rewrite E in H2. exact H2.
    + apply IH; [lia|left; reflexivity].
Qed.

(** After the cleaning, no stretch of whitespace holds three newlines. *)
Theorem tools_visit_clean_runs (raw_text : pystr) : nl_runs_ok 0 (tools_visit_clean raw_text) = true.
Proof. apply clean_runs; [lia|left; reflexivity]. Qed.

Lemma clean_keeps (fuel : nat) : forall (s : pystr), (length s < fuel)%nat ->
  filter not_space (re_sub_fuel fuel blank_lines_re [10; 10] s) = filter not_space s.
Proof.
  induction fuel as [|f IH]; intros s Hl; [cbn in Hl; lia|].
  cbn [re_sub_fuel]. fold nl_k.
  destruct s as [|c t]; [rewrite blank_empty; reflexivity|].
  cbn [length] in Hl.
  destruct (N.eq_dec c 10) as [->|Hc].
  - rewrite blank_nl.
    destruct (star_nl t) as [[E Hn]|(a & b & Et & Ha & E & Hb)].
    + rewrite E. cbn [filter]. rewrite IH by lia. reflexivity.
    + rewrite E. cbn [app filter]. rewrite IH by (rewrite Et, length_app in Hl; cbn [length] in Hl; lia).
      rewrite Et. cbn [filter]. rewrite filter_app. cbn [filter].
      assert (Hf : filter not_space a = []).
      { clear -Ha. induction a as [|x a IHa]; [reflexivity|]. cbn in Ha |- *.
        apply andb_prop in Ha. destruct Ha as [H1 H2]. unfold not_space at 1. rewrite H1. exact (IHa H2). }
      rewrite Hf. reflexivity.
  - rewrite blank_other by exact Hc. cbn [filter]. rewrite IH by lia. reflexivity.
Qed.

(** The cleaning only changes whitespace: the other characters are kept,
    in order. *)
Theorem tools_visit_clean_keeps (raw_text : pystr) :
  filter not_space (tools_visit_clean raw_text) = filter not_space raw_text.
Proof. apply clean_keeps. lia. Qed.

Lemma tight_space (st : nat) (c : N) (t : pystr) : c <> 10 -> py_isspace c = true ->
  tight st (c :: t) = tight (tight_step st) t.
Proof.
  intros H1 H2. cbn [tight]. destruct (c =? 10) eqn:E; [apply N.eqb_eq in E; congruence|].
  rewrite H2. destruct st as [|[|]]; reflexivity.
Qed.

Lemma tight_nonspace (st : nat) (c : N) (t : pystr) : py_isspace c = false -> tight st (c :: t) = tight 0 t.
Proof.
  intros H. cbn [tight]. destruct (c =? 10) eqn:E; [apply N.eqb_eq in E; subst c; discriminate|].
  rewrite H. reflexivity.
Qed.

Lemma tight_far (st : nat) (a b : pystr) : (2 <= st)%nat -> forallb py_isspace a = true ->
  tight st (a ++ 10 :: b) = false.
Proof.
  intros Hst. revert st Hst. induction a as [|c a IH]; intros st Hst Ha.
  - cbn [app tight N.eqb Pos.eqb]. destruct st as [|[|]]; [lia|lia|reflexivity].
  - cbn in Ha. apply andb_prop in Ha. destruct Ha as [Hc Ha]. cbn [app].
    destruct (N.eq_dec c 10) as [->|Hne].
    + cbn [tight N.eqb Pos.eqb]. destruct st as [|[|]]; [lia|lia|reflexivity].
    + rewrite tight_space by assumption. apply IH; [destruct st as [|[|]]; cbn; lia|exact Ha].
Qed.

Lemma tight_near (a b : pystr) : forallb py_isspace a = true -> tight 1 (a ++ 10 :: b) = true -> a = [].
Proof.
  intros Ha H. destruct a as [|c a]; [reflexivity|]. exfalso.
  cbn in Ha. apply andb_prop in Ha. destruct Ha as [Hc Ha]. cbn [app] in H.
  destruct (N.eq_dec c 10) as [->|Hne].
  - cbn [tight N.eqb Pos.eqb] in H. rewrite tight_far in H by (lia || exact Ha). discriminate.
  - rewrite tight_space in H by assumption. cbn [tight_step] in H.
    rewrite tight_far in H by (lia || exact Ha). discriminate.
Qed.

Lemma no_nl_space (c : N) (t : pystr) : c <> 10 -> py_isspace c = true ->
  no_nl (takewhile py_isspace (c :: t)) = no_nl (takewhile py_isspace t).
Proof.
  intros H1 H2. rewrite takewhile_cons, H2. cbn. destruct (c =? 10) eqn:E; [apply N.eqb_eq in E; congruence|].
  reflexivity.
Qed.

Lemma clean_tight (fuel : nat) : forall (s : pystr) (st : nat), (length s < fuel)%nat ->
  (st = 0%nat \/ no_nl (takewhile py_isspace s) = true) ->
  tight st (re_sub_fuel fuel blank_lines_re [10; 10] s) = true.
Proof.
  induction fuel as [|f IH]; intros s st Hl Hi; [cbn in Hl; lia|].
  cbn [re_sub_fuel]. fold nl_k.
  destruct s as [|c t]; [rewrite blank_empty; reflexivity|].
  cbn [length] in Hl.
  destruct (N.eq_dec c 10) as [->|Hc].
  - assert (Hc0 : st = 0%nat) by (destruct Hi as [H|H]; [exact H|discriminate]).
    subst st. rewrite blank_nl.
    destruct (star_nl t) as [[E Hn]|(a & b & Et & Ha & E & Hb)].
    + rewrite E. cbn [tight N.eqb Pos.eqb]. apply IH; [lia|right; exact Hn].
    + rewrite E. cbn [app tight N.eqb Pos.eqb].
      apply IH; [|right; exact Hb].
      rewrite Et, length_app in Hl. cbn [length] in Hl. lia.
  - rewrite blank_other by exact Hc.
    destruct (py_isspace c) eqn:Hs.
    + rewrite tight_space by assumption. apply IH; [lia|].
      destruct Hi as [H|H]; [left; subst st; reflexivity|right].
      rewrite no_nl_space in H by assumption. exact H.
    + rewrite tight_nonspace by exact Hs. apply IH; [lia|left; reflexivity].
Qed.

Lemma tight_fixed (fuel : nat) : forall (s : pystr) (st : nat), (length s < fuel)%nat ->
  tight st s = true -> (st = 0%nat \/ no_nl (takewhile py_isspace s) = true) ->
  re_sub_fuel fuel blank_lines_re [10; 10] s = s.
Proof.
  induction fuel as [|f IH]; intros s st Hl Ht Hi; [cbn in Hl; lia|].
  cbn [re_sub_fuel]. fold nl_k.
  destruct s as [|c t]; [rewrite blank_empty; reflexivity|].
  cbn [length] in Hl.
  destruct (N.eq_dec c 10) as [->|Hc].
  - assert (Hc0 : st = 0%nat) by (destruct Hi as [H|H]; [exact H|discriminate]).
    subst st. rewrite blank_nl. cbn [tight N.eqb Pos.eqb] in Ht.
    destruct (star_nl t) as [[E Hn]|(a & b & Et & Ha & E & Hb)].
    + rewrite E. f_equal. apply (IH t 1%nat); [lia|exact Ht|right; exact Hn].
    + rewrite E. rewrite Et in Ht. pose proof (tight_near a b Ha Ht) as ->.
      subst t. cbn [app tight N.eqb Pos.eqb] in Ht |- *. f_equal. f_equal.
      apply (IH b 3%nat); [cbn [length app] in Hl; lia|exact Ht|right; exact Hb].
  - rewrite blank_other by exact Hc. f_equal.
    destruct (py_isspace c) eqn:Hs.
    + rewrite tight_space in Ht by assumption. apply (IH t (tight_step st)); [lia|exact Ht|].
      destruct Hi as [H|H]; [left; subst st; reflexivity|right].
      rewrite no_nl_space in H by assumption. exact H.
    + rewrite tight_nonspace in Ht by exact Hs. apply (IH t 0%nat); [lia|exact Ht|left; reflexivity].
Qed.

(** Cleaning a cleaned text changes nothing. *)
Theorem tools_visit_clean_idempotent (raw_text : pystr) :
  tools_visit_clean (tools_visit_clean raw_text) = tools_visit_clean raw_text.
Proof.
  unfold tools_visit_clean at 1, re_sub at 1.
  apply (tight_fixed _ _ 0%nat); [lia| |left; reflexivity].
  apply clean_tight; [lia|left; reflexivity].
Qed.
